(** * vault_checker: checking and cleaning a Bitwarden vault

    A shallow embedding of [src/vault_checker.py] and the properties of its
    filters, duplicate finder and merge resolver.

    Data model.  The document is what [json.load] returns: a tree of Python
    objects.  JSON values are embedded as the inductive [value]; a Python
    [dict] is an association list in insertion order (the code observes that
    order through [dict.values()]); JSON integers are [Z]; floating point
    literals are outside the model.

    The items of [data["items"]] are objects that the code passes around by
    reference, compares with [==] and mutates in place, so they live in a
    store: [heap] maps an address to the current contents of that object and
    [items] is the list object [data["items"]], a list of addresses.  What an
    item holds (its [login] dict, the [uris] list, the URI dicts) is owned by
    the item, as it is for every document built by [json.load].

    Effects.  A function of the module is a computation in the monad [M]:
    it runs from a state (store, item list, [merged_items], output) to a
    state and a result, which is a value or a raised Python exception.  The
    answers of [Confirm.ask] are a parameter, [confirm].  So is the console:
    [print] is rich's, which parses the message for console markup and
    raises [MarkupError] on a message it cannot parse; [renders] tells
    which messages it accepts. *)

From Stdlib Require Import ZArith String Ascii Bool Lia.
From stdpp Require Import base option list strings functions gmap.

Local Open Scope string_scope.
Local Open Scope list_scope.
#[local] Set Warnings "-clear-no-such-hyp".

(** ** JSON values as Python objects *)

#[warnings="-register-all"]
Inductive value : Type :=
  | VNone
  | VBool (b : bool)
  | VInt (n : Z)
  | VStr (s : string)
  | VList (l : list value)
  | VDict (d : list (string * value)).

(** Keys of Python sets and dicts: the hashable JSON values, up to Python's
    [==] ([True == 1] and [False == 0] hash alike). *)
Inductive key : Type :=
  | KNone
  | KInt (n : Z)
  | KStr (s : string).

#[global] Instance key_eq_dec : EqDecision key.
Proof. solve_decision. Defined.

Definition key_encode (k : key) : unit + (Z + string) :=
  match k with
  | KNone => inl tt
  | KInt n => inr (inl n)
  | KStr s => inr (inr s)
  end.

Definition key_decode (x : unit + (Z + string)) : key :=
  match x with
  | inl _ => KNone
  | inr (inl n) => KInt n
  | inr (inr s) => KStr s
  end.

#[global] Instance key_countable : Countable key.
Proof.
  apply (inj_countable' key_encode key_decode).
  intros []; reflexivity.
Defined.

(** Python exceptions the code can raise; [MarkupError] is the one of
    rich's [print].  [OutOfFuel] is not a Python exception: it marks a [for]
    loop cut short by the model's iteration bound, and [for_items_fuel] shows
    it is never produced. *)
Inductive exn : Type :=
  | KeyError (k : value)
  | TypeError
  | AttributeError
  | IndexError
  | ValueError
  | MarkupError
  | OutOfFuel.

Inductive result (A : Type) : Type :=
  | Ok (x : A)
  | Raise (e : exn).
Arguments Ok {A} x.
Arguments Raise {A} e.

(** *** Dictionaries

    A [dict] keeps its bindings in insertion order, one per key. *)

Module Dict.
Section Ops.
Context {K A : Type} `{EqDecision K}.

Fixpoint get (k : K) (d : list (K * A)) : option A :=
  match d with
  | [] => None
  | (k', v) :: d' => if decide (k = k') then Some v else get k d'
  end.

(** [d[k] = v]: an existing key keeps its position, a new key goes
    last. *)
Fixpoint set (k : K) (v : A) (d : list (K * A)) : list (K * A) :=
  match d with
  | [] => [(k, v)]
  | (k', v') :: d' =>
      if decide (k = k') then (k', v) :: d' else (k', v') :: set k v d'
  end.

Definition mem (k : K) (d : list (K * A)) : bool :=
  match get k d with Some _ => true | None => false end.

(** [d.values()] *)
Definition values (d : list (K * A)) : list A := map snd d.

Definition keys (d : list (K * A)) : list K := map fst d.
End Ops.
End Dict.

(** *** Built-in operations *)

(** [a == b]. As CPython does for dicts: equal sizes, and every binding of
    [a] has an equal binding in [b]. *)
Fixpoint py_eq (a b : value) {struct a} : bool :=
  match a, b with
  | VNone, VNone => true
  | VBool x, VBool y => Bool.eqb x y
  | VBool x, VInt m => Z.eqb (Z.b2z x) m
  | VInt n, VBool y => Z.eqb n (Z.b2z y)
  | VInt n, VInt m => Z.eqb n m
  | VStr s, VStr t => String.eqb s t
  | VList xs, VList ys =>
      (fix all2 (xs ys : list value) {struct xs} : bool :=
         match xs, ys with
         | [], [] => true
         | x :: xs', y :: ys' => py_eq x y && all2 xs' ys'
         | _, _ => false
         end) xs ys
  | VDict d, VDict e =>
      Nat.eqb (length d) (length e) &&
      (fix sub (d0 : list (string * value)) : bool :=
         match d0 with
         | [] => true
         | (k, v) :: d' =>
             match Dict.get k e with
             | Some w => py_eq v w
             | None => false
             end && sub d'
         end) d
  | _, _ => false
  end.

(** [bool(v)] *)
Definition py_truthy (v : value) : bool :=
  match v with
  | VNone => false
  | VBool b => b
  | VInt n => negb (Z.eqb n 0)
  | VStr s => negb (String.eqb s "")
  | VList l => negb (Nat.eqb (length l) 0)
  | VDict d => negb (Nat.eqb (length d) 0)
  end.

(** [v is None] *)
Definition py_is_none (v : value) : bool :=
  match v with VNone => true | _ => false end.

(** [needle in hay] on strings is a substring test. *)
Fixpoint str_contains (needle hay : string) : bool :=
  String.prefix needle hay ||
  match hay with
  | EmptyString => false
  | String _ hay' => str_contains needle hay'
  end.

(** [k in v] for a string [k]. *)
Definition py_contains (k : string) (v : value) : result bool :=
  match v with
  | VDict d => Ok (Dict.mem k d)
  | VList l => Ok (existsb (fun x => py_eq x (VStr k)) l)
  | VStr s => Ok (str_contains k s)
  | VNone | VBool _ | VInt _ => Raise TypeError
  end.

(** [v[k]] for a string [k]. *)
Definition py_getitem (v : value) (k : string) : result value :=
  match v with
  | VDict d =>
      match Dict.get k d with
      | Some x => Ok x
      | None => Raise (KeyError (VStr k))
      end
  | _ => Raise TypeError
  end.

(** [v[0]] *)
Definition py_first (v : value) : result value :=
  match v with
  | VList (x :: _) => Ok x
  | VList [] => Raise IndexError
  | VStr (String c _) => Ok (VStr (String c EmptyString))
  | VStr EmptyString => Raise IndexError
  | VDict _ => Raise (KeyError (VInt 0))
  | VNone | VBool _ | VInt _ => Raise TypeError
  end.

(** [v.get("uri")] *)
Definition py_get (v : value) (k : string) : result value :=
  match v with
  | VDict d => Ok (default VNone (Dict.get k d))
  | _ => Raise AttributeError
  end.

(** The elements [for x in v] visits. *)
Definition py_iter (v : value) : result (list value) :=
  match v with
  | VList l => Ok l
  | VStr s => Ok (map (fun c => VStr (String c EmptyString)) (list_ascii_of_string s))
  | VDict d => Ok (map (fun kv => VStr (fst kv)) d)
  | VNone | VBool _ | VInt _ => Raise TypeError
  end.

Definition as_int (v : value) : option Z :=
  match v with
  | VBool b => Some (Z.b2z b)
  | VInt n => Some n
  | _ => None
  end.

(** [a + b] *)
Definition py_add (a b : value) : result value :=
  match a, b with
  | VList xs, VList ys => Ok (VList (xs ++ ys))
  | VStr s, VStr t => Ok (VStr (s ++ t)%string)
  | _, _ =>
      match as_int a, as_int b with
      | Some n, Some m => Ok (VInt (n + m)%Z)
      | _, _ => Raise TypeError
      end
  end.

(** [hash(v)], as far as sets and dicts need it: the key, or [TypeError]
    for an unhashable list or dict. *)
Definition py_hash (v : value) : result key :=
  match v with
  | VNone => Ok KNone
  | VBool b => Ok (KInt (Z.b2z b))
  | VInt n => Ok (KInt n)
  | VStr s => Ok (KStr s)
  | VList _ | VDict _ => Raise TypeError
  end.

(** [d[k] = v] on a Python object [d]. *)
Definition py_setitem (d : value) (k : string) (v : value) : result value :=
  match d with
  | VDict kvs => Ok (VDict (Dict.set k v kvs))
  | _ => Raise TypeError
  end.

(** ** The store, and the monad of the code's effects *)

Definition addr := nat.

(** What the code prints, and what it asks. *)
Inductive event : Type :=
  | RemovingNoUsername (name : value)
  | RemovingNoPassword (name : value)
  | RemovingNoUri (name : value)
  | FoundDuplicate (name_a name_b : value)
  | HasUris (name : value) (uris : list value)
  | AskMerge (answer : bool)
  | MergedInto (name_b name_a : value).

Record state : Type := mkState {
  heap : addr -> value;          (* the item objects *)
  items : list addr;             (* data["items"] *)
  merged_items : gset key;       (* the module-level set *)
  prompts : nat;                 (* confirmation prompts issued so far *)
  log : list event               (* output so far, oldest first *)
}.

Definition with_heap (h : addr -> value) (st : state) : state :=
  mkState h (items st) (merged_items st) (prompts st) (log st).
Definition with_items (l : list addr) (st : state) : state :=
  mkState (heap st) l (merged_items st) (prompts st) (log st).
Definition with_merged (s : gset key) (st : state) : state :=
  mkState (heap st) (items st) s (prompts st) (log st).

(** A computation runs from a state to a state and either a value or a
    raised exception; what was mutated before the exception stays mutated. *)
Definition M (A : Type) : Type := state -> state * result A.

#[global] Instance M_ret : MRet M := fun A x st => (st, Ok x).
#[global] Instance M_bind : MBind M := fun A B f c st =>
  match c st with
  | (st', Ok x) => f x st'
  | (st', Raise e) => (st', Raise e)
  end.

#[global] Instance M_fmap : FMap M := fun A B f c =>
  x ← c; mret (f x).

Definition lift {A} (r : result A) : M A := fun st => (st, r).

Definition load (a : addr) : M value := fun st => (st, Ok (heap st a)).

Definition store (a : addr) (v : value) : M unit := fun st =>
  (with_heap (<[a := v]> (heap st)) st, Ok tt).

Section Console.

(** The console collaborator.  [print] is imported from rich: it takes the
    message as console markup, and a message in which a closing tag closes
    nothing (an item named ["[/x]"], say) makes it raise [MarkupError]
    before anything is written.  Whether a message is accepted is the
    console's affair: [renders e] tells it, for the message [e] with the
    names and URIs put into it. *)
Variable renders : event -> bool.

(** [print(...)] *)
Definition say (e : event) : M unit := fun st =>
  if renders e then
    (mkState (heap st) (items st) (merged_items st) (prompts st) (log st ++ [e]),
     Ok tt)
  else (st, Raise MarkupError).

(** [item[k]] and [item["login"][k]] for the item object at [a]. *)
Definition item_get (a : addr) (k : string) : M value :=
  item ← load a; lift (py_getitem item k).

Definition login_get (a : addr) (k : string) : M value :=
  login ← item_get a "login"; lift (py_getitem login k).

(** [k in item] *)
Definition item_contains (k : string) (a : addr) : M bool :=
  item ← load a; lift (py_contains k item).

(** [k in item["login"]] *)
Definition login_contains (k : string) (a : addr) : M bool :=
  login ← item_get a "login"; lift (py_contains k login).

(** [item["login"]["uris"] = uris]: the [login] dict of the item is updated
    in place. *)
Definition set_login_uris (a : addr) (uris : value) : M unit :=
  item ← load a;
  login ← lift (py_getitem item "login");
  login' ← lift (py_setitem login "uris" uris);
  item' ← lift (py_setitem item "login" login');
  store a item'.

(** Two references compare equal when they are the same object or their
    contents are [==]. *)
Definition obj_eq (st : state) (x a : addr) : bool :=
  bool_decide (x = a) || py_eq (heap st x) (heap st a).

Fixpoint remove_first (same : addr -> bool) (l : list addr) : option (list addr) :=
  match l with
  | [] => None
  | x :: l' =>
      if same x then Some l' else cons x <$> remove_first same l'
  end.

(** [data["items"].remove(item)]: the first element equal to [item] goes;
    [ValueError] when there is none. *)
Definition items_remove (a : addr) : M unit := fun st =>
  match remove_first (fun x => obj_eq st x a) (items st) with
  | Some l' => (with_items l' st, Ok tt)
  | None => (st, Raise ValueError)
  end.

(** [for item in data["items"]: acc = body(item, acc)].  The list iterator
    holds an index into the live list: each step reads [items[i]] from the
    current state and stops when [i] is past the end.  The body can only
    shorten the list, so [length items] steps are enough. *)
Fixpoint for_items {A} (body : addr -> A -> M A) (fuel i : nat) (acc : A) : M A :=
  fun st =>
    match items st !! i with
    | None => (st, Ok acc)
    | Some a =>
        match fuel with
        | 0 => (st, Raise OutOfFuel)
        | S fuel' => (acc' ← body a acc; for_items body fuel' (S i) acc') st
        end
    end.

Definition for_each_item {A} (body : addr -> A -> M A) (acc : A) : M A :=
  fun st => for_items body (length (items st)) 0 acc st.

(** [for x in l: body(x)] over a local list. *)
Fixpoint for_each {X} (body : X -> M unit) (l : list X) : M unit :=
  match l with
  | [] => mret tt
  | x :: l' => body x;; for_each body l'
  end.

(** ** The filters *)

(** ["login" in item and (item["login"]["username"] is None
                          or "username" not in item["login"])] *)
Definition userless (a : addr) : M bool :=
  has_login ← item_contains "login" a;
  if has_login : bool then
    username ← login_get a "username";
    if py_is_none username then mret true
    else negb <$> login_contains "username" a
  else mret false.

Definition remove_userless_item : M unit :=
  for_each_item (fun a _ =>
    c ← userless a;
    if c : bool then
      name ← item_get a "name";
      say (RemovingNoUsername name);;
      items_remove a
    else mret tt) tt.

(** ["login" in item and item["login"]["password"] is None
     or "password" not in item["login"]] *)
Definition passwordless (a : addr) : M bool :=
  has_login ← item_contains "login" a;
  unset ← (if has_login : bool then
             password ← login_get a "password";
             mret (py_is_none password)
           else mret false);
  if unset : bool then mret true
  else negb <$> login_contains "password" a.

Definition remove_passwordless_item : M unit :=
  for_each_item (fun a _ =>
    c ← passwordless a;
    if c : bool then
      name ← item_get a "name";
      say (RemovingNoPassword name);;
      items_remove a
    else mret tt) tt.

(** ["login" in item and "uris" in item["login"] and item["login"]["uris"]] *)
Definition has_uris (a : addr) : M bool :=
  has_login ← item_contains "login" a;
  if has_login : bool then
    has ← login_contains "uris" a;
    if has : bool then py_truthy <$> login_get a "uris"
    else mret false
  else mret false.

(** [[uri for uri in l if uri.get("uri")]] *)
Fixpoint keep_valid_uris (l : list value) : result (list value) :=
  match l with
  | [] => Ok []
  | uri :: l' =>
      match py_get uri "uri" with
      | Raise e => Raise e
      | Ok u =>
          match keep_valid_uris l' with
          | Raise e => Raise e
          | Ok r => Ok (if py_truthy u then uri :: r else r)
          end
      end
  end.

(** The scan of [remove_uriless_item]: one step of its first loop. *)
Definition uriless_scan (a : addr) (items_to_remove : list addr) : M (list addr) :=
  c ← has_uris a;
  if c : bool then
    src ← login_get a "uris";
    elems ← lift (py_iter src);
    uris ← lift (keep_valid_uris elems);
    set_login_uris a (VList uris);;
    mret (if py_truthy (VList uris) then items_to_remove
          else items_to_remove ++ [a])
  else mret (items_to_remove ++ [a]).

Definition uriless_drop (a : addr) : M unit :=
  name ← item_get a "name";
  say (RemovingNoUri name);;
  items_remove a.

Definition remove_uriless_item : M unit :=
  items_to_remove ← for_each_item uriless_scan [];
  for_each uriless_drop items_to_remove.

(** ** The duplicate finder *)

(** [item["login"]["uris"][0]["uri"]] *)
Definition first_uri (a : addr) : M value :=
  uris ← login_get a "uris";
  uri ← lift (py_first uris);
  lift (py_getitem uri "uri").

(** [x == y] on two fields read from the items *)
Definition same_field (field : addr -> M value) (a b : addr) : M bool :=
  x ← field a; y ← field b; mret (py_eq x y).

(** The condition of the comprehension: [item != other_item and ... and ...]
    evaluated left to right, stopping at the first false conjunct. *)
Definition is_duplicate (a b : addr) : M bool :=
  st ← (fun st => (st, Ok st));
  if obj_eq st a b then mret false
  else
    u ← same_field first_uri a b;
    if u : bool then
      n ← same_field (fun x => login_get x "username") a b;
      if n : bool then same_field (fun x => login_get x "password") a b
      else mret false
    else mret false.

Definition find_items_with_duplicates : M (list (addr * addr)) :=
  for_each_item (fun a pairs =>
    for_each_item (fun b pairs =>
      c ← is_duplicate a b;
      mret (if c : bool then pairs ++ [(a, b)] else pairs)) pairs) [].

(** ** The merge resolver *)

(** [v in merged_items] *)
Definition is_merged (v : value) : M bool := fun st =>
  match py_hash v with
  | Ok k => (st, Ok (bool_decide (k ∈ merged_items st)))
  | Raise e => (st, Raise e)
  end.

(** [merged_items.add(v)] *)
Definition mark_merged (v : value) : M unit := fun st =>
  match py_hash v with
  | Ok k => (with_merged ({[k]} ∪ merged_items st) st, Ok tt)
  | Raise e => (st, Raise e)
  end.

(** [[uri["uri"] for uri in l]] *)
Fixpoint uri_strings (l : list value) : result (list value) :=
  match l with
  | [] => Ok []
  | uri :: l' =>
      match py_getitem uri "uri" with
      | Raise e => Raise e
      | Ok u =>
          match uri_strings l' with
          | Raise e => Raise e
          | Ok r => Ok (u :: r)
          end
      end
  end.

(** [{uri["uri"]: uri for uri in l}], built left to right from [d]. *)
Fixpoint by_uri (l : list value) (d : list (key * value)) : result (list (key * value)) :=
  match l with
  | [] => Ok d
  | uri :: l' =>
      match py_getitem uri "uri" with
      | Raise e => Raise e
      | Ok u =>
          match py_hash u with
          | Raise e => Raise e
          | Ok k => by_uri l' (Dict.set k uri d)
          end
      end
  end.

(** [list({uri["uri"]: uri for uri in uris}.values())] *)
Definition dedup_uris (uris : value) : result (list value) :=
  match py_iter uris with
  | Raise e => Raise e
  | Ok l =>
      match by_uri l [] with
      | Raise e => Raise e
      | Ok d => Ok (Dict.values d)
      end
  end.

Section Resolver.

(** The confirmation collaborator: [confirm n] is the answer to the
    [n]-th prompt of the run. *)
Variable confirm : nat -> bool.

(** [Confirm.ask("Do you want to merge these items? [y/N]", default=False)] *)
Definition ask : M bool := fun st =>
  let answer := confirm (prompts st) in
  (mkState (heap st) (items st) (merged_items st) (S (prompts st))
           (log st ++ [AskMerge answer]),
   Ok answer).

(** [print(f"\"{item['name']}\" has the following URIs: {uris}")] after
    [uris = [uri["uri"] for uri in item["login"]["uris"]]] *)
Definition listed_uris (a : addr) : M (list value) :=
  uris ← login_get a "uris";
  elems ← lift (py_iter uris);
  lift (uri_strings elems).

Definition merge_uris_of_items (item_a item_b : addr) : M unit :=
  id_a ← item_get item_a "id";
  a_merged ← is_merged id_a;
  if a_merged : bool then mret tt
  else
    id_b ← item_get item_b "id";
    b_merged ← is_merged id_b;
    if b_merged : bool then mret tt
    else
      name_a ← item_get item_a "name";
      name_b ← item_get item_b "name";
      say (FoundDuplicate name_a name_b);;
      uris_a ← listed_uris item_a;
      uris_b ← listed_uris item_b;
      name_a ← item_get item_a "name";
      say (HasUris name_a uris_a);;
      name_b ← item_get item_b "name";
      say (HasUris name_b uris_b);;
      merge_answer ← ask;
      if merge_answer : bool then
        la ← login_get item_a "uris";
        lb ← login_get item_b "uris";
        uris ← lift (py_add la lb);
        uris ← lift (dedup_uris uris);
        set_login_uris item_a (VList uris);;
        id_b ← item_get item_b "id";
        mark_merged id_b;;
        name_b ← item_get item_b "name";
        name_a ← item_get item_a "name";
        say (MergedInto name_b name_a)
      else mret tt.

(** [for duplicate in items_with_duplicates: merge_uris_of_items( *duplicate)] *)
Definition merge_all (pairs : list (addr * addr)) : M unit :=
  for_each (fun p => merge_uris_of_items (fst p) (snd p)) pairs.

End Resolver.

(** The three filters in the order the driver runs them. *)
Definition filter_stage : M unit :=
  remove_userless_item;;
  remove_passwordless_item;;
  remove_uriless_item.

(** ** The driver *)

(** The lines the driver prints itself, with the numbers it puts in them. *)
Inductive line : Type :=
  | FoundItems (n : Z)
  | RemovedWithoutUsername (n : Z)
  | RemovedWithoutPassword (n : Z)
  | RemovedWithoutUri (n : Z)
  | EndingWith (remaining start : Z).

(** [len(data["items"])] *)
Definition item_count (st : state) : Z := Z.of_nat (length (items st)).

(** [print(...)] in the driver: the line goes to the driver's own output,
    with the number of lines the functions have printed so far, which places
    it among them.  These lines are fixed text around numbers: they bring no
    markup to the console, which has nothing to reject in them. *)
Definition announce (st : state) (l : line) (out : list (nat * line))
    : list (nat * line) :=
  out ++ [(length (log st), l)].

Section Driver.

Variable confirm : nat -> bool.

(** The body of [if __name__ == "__main__"], from the loaded [data] on: the
    final state, the lines printed by the driver, and how it ended. *)
Definition main (data : state) : state * list (nat * line) * result unit :=
  let start_item_count := item_count data in
  let out := announce data (FoundItems start_item_count) [] in
  match remove_userless_item data with
  | (data, Raise e) => (data, out, Raise e)
  | (data, Ok _) =>
    let out :=
      announce data
        (RemovedWithoutUsername (start_item_count - item_count data)%Z) out in
    let cur_count := item_count data in
    match remove_passwordless_item data with
    | (data, Raise e) => (data, out, Raise e)
    | (data, Ok _) =>
      let out :=
        announce data
          (RemovedWithoutPassword (cur_count - item_count data)%Z) out in
      let cur_count := item_count data in
      match remove_uriless_item data with
      | (data, Raise e) => (data, out, Raise e)
      | (data, Ok _) =>
        let out :=
          announce data
            (RemovedWithoutUri (cur_count - item_count data)%Z) out in
        match find_items_with_duplicates data with
        | (data, Raise e) => (data, out, Raise e)
        | (data, Ok items_with_duplicates) =>
          match merge_all confirm items_with_duplicates data with
          | (data, Raise e) => (data, out, Raise e)
          | (data, Ok _) =>
            (data,
             announce data
               (EndingWith (item_count data) start_item_count) out,
             Ok tt)
          end
        end
      end
    end
  end.

End Driver.

(** * Vocabulary of the properties *)

(** [keeps R c]: running [c] relates the state before to the state after,
    whether it returns or raises. *)
Definition keeps (R : relation state) {A} (c : M A) : Prop :=
  forall st, R st (c st).1.

(** The document and the registry are the same in both states. *)
Definition same_data (st st' : state) : Prop :=
  heap st' = heap st /\ items st' = items st /\
  merged_items st' = merged_items st.

(** Only the output differs. *)
Definition only_log (st st' : state) : Prop :=
  same_data st st' /\ prompts st' = prompts st.

(** The registry of the first state is included in that of the second. *)
Definition registry_grows (st st' : state) : Prop :=
  merged_items st ⊆ merged_items st'.

(** [untouched st0 c]: started from a state that differs from [st0] in its
    output only, [c] ends with the document and the registry of [st0]. *)
Definition untouched (st0 : state) {A} (c : M A) : Prop :=
  forall st, only_log st0 st -> same_data st0 (c st).1.

(** The id under which the registry knows the item at [a]. *)
Definition item_id (st : state) (a : addr) : option key :=
  match py_getitem (heap st a) "id" with
  | Ok v => match py_hash v with Ok k => Some k | Raise _ => None end
  | Raise _ => None
  end.

(** The key of a URI entry in the mapping of the merge: [hash(uri["uri"])],
    when the entry has a hashable [uri]. *)
Definition uri_key (u : value) : option key :=
  match py_getitem u "uri" with
  | Ok v => match py_hash v with Ok k => Some k | Raise _ => None end
  | Raise _ => None
  end.

Definition uri_keys (l : list value) : list key := omap uri_key l.

(** The first, and the last, entry of [l] whose key is [k]. *)
Fixpoint first_with (k : key) (l : list value) : option value :=
  match l with
  | [] => None
  | u :: l' => if decide (uri_key u = Some k) then Some u else first_with k l'
  end.

Fixpoint last_with (k : key) (l : list value) : option value :=
  match l with
  | [] => None
  | u :: l' =>
      match last_with k l' with
      | Some w => Some w
      | None => if decide (uri_key u = Some k) then Some u else None
      end
  end.

(** [v] is a login item as the resolver needs it: a dict with a hashable
    [id] (its key is [k]), a [name], and a [login] dict whose [uris] is the
    list [uris] of entries with a hashable [uri]. *)
Definition login_item (v : value) (k : key) (uris : list value) : Prop :=
  exists d l id name,
    v = VDict d /\
    Dict.get "id" d = Some id /\ py_hash id = Ok k /\
    Dict.get "name" d = Some name /\
    Dict.get "login" d = Some (VDict l) /\
    Dict.get "uris" l = Some (VList uris) /\
    Forall (fun u => is_Some (uri_key u)) uris.

(** What the messages show of an item: its [name], and the [uri] of each of
    its URI entries. *)
Definition name_of (st : state) (a : addr) : value :=
  match py_getitem (heap st a) "name" with
  | Ok name => name
  | Raise _ => VNone
  end.

Definition shown_uris (uris : list value) : list value :=
  match uri_strings uris with
  | Ok r => r
  | Raise _ => []
  end.

(** The three messages the resolver prints before it asks, for the items at
    [a] and [b] with the URI lists [ua] and [ub], and the one it prints
    after a merge. *)
Definition merge_notices (st : state) (a b : addr) (ua ub : list value)
    : list event :=
  [FoundDuplicate (name_of st a) (name_of st b);
   HasUris (name_of st a) (shown_uris ua);
   HasUris (name_of st b) (shown_uris ub)].

Definition merge_report (st : state) (a b : addr) : event :=
  MergedInto (name_of st b) (name_of st a).

Definition merge_messages (st : state) (a b : addr) (ua ub : list value)
    : list event :=
  merge_notices st a b ua ub ++ [merge_report st a b].

(** The console accepts every message of the list. *)
Definition rendered (l : list event) : Prop :=
  Forall (fun e => renders e = true) l.

(** The bindings of the mapping built by [by_uri]: each entry sits under
    its own key. *)
Definition keyed (d : list (key * value)) : Prop :=
  Forall (fun kv => uri_key kv.2 = Some kv.1) d.

(** [item["login"]["uris"]] of the item at [a], when it is a list. *)
Definition item_uris (st : state) (a : addr) : option (list value) :=
  match py_getitem (heap st a) "login" with
  | Ok login =>
      match py_getitem login "uris" with
      | Ok (VList us) => Some us
      | _ => None
      end
  | Raise _ => None
  end.

(** The reading of the merge under which, of two entries with the same
    [uri], the first one (A's) is kept: after a confirmed merge of the items
    at [a] and [b], A's list has each key once and under it the first entry
    of A's list followed by B's. *)
Definition first_occurrence_retained (confirm : nat -> bool) (st : state)
    (a b : addr) : Prop :=
  forall ka kb ua ub st',
    login_item (heap st a) ka ua ->
    login_item (heap st b) kb ub ->
    ka ∉ merged_items st -> kb ∉ merged_items st ->
    rendered (merge_messages st a b ua ub) ->
    confirm (prompts st) = true ->
    merge_uris_of_items confirm a b st = (st', Ok tt) ->
    exists merged,
      item_uris st' a = Some merged /\
      NoDup (uri_keys merged) /\
      forall k, first_with k merged = first_with k (ua ++ ub).

(** [f] holds of the two lists position by position. *)
Fixpoint all2 {A B} (f : A -> B -> bool) (xs : list A) (ys : list B) : bool :=
  match xs, ys with
  | [], [] => true
  | x :: xs', y :: ys' => f x y && all2 f xs' ys'
  | _, _ => false
  end.

(** The values that are Python objects: a dict has no key twice, at any
    depth.  [json.load] builds no other. *)
Fixpoint wf_value (v : value) : bool :=
  match v with
  | VList l => forallb wf_value l
  | VDict d =>
      bool_decide (NoDup (Dict.keys d)) &&
      forallb (fun kv : string * value => wf_value kv.2) d
  | _ => true
  end.

(** [v["login"][k]] and [v["login"]["uris"][0]["uri"]] on the contents of
    an item. *)
Definition login_field (v : value) (k : string) : result value :=
  match py_getitem v "login" with
  | Ok login => py_getitem login k
  | Raise e => Raise e
  end.

Definition first_uri_of (v : value) : result value :=
  match login_field v "uris" with
  | Ok uris =>
      match py_first uris with
      | Ok first => py_getitem first "uri"
      | Raise e => Raise e
      end
  | Raise e => Raise e
  end.

(** The three fields the finder compares, when the item has them all. *)
Definition credentials (v : value) : option (value * value * value) :=
  match first_uri_of v, login_field v "username", login_field v "password" with
  | Ok u, Ok n, Ok p => Some (u, n, p)
  | _, _, _ => None
  end.

(** Equal first URI, equal username and equal password, by [==]. *)
Definition same_credentials (v w : value) : bool :=
  match credentials v, credentials w with
  | Some (u, n, p), Some (u', n', p') => py_eq u u' && py_eq n n' && py_eq p p'
  | _, _ => false
  end.

(** One step of the inner loop of the finder's comprehension. *)
Definition collect_row (st : state) (a : addr) (b : addr)
    (pairs : list (addr * addr)) : result (list (addr * addr)) :=
  match (is_duplicate a b st).2 with
  | Ok c => Ok (if c : bool then pairs ++ [(a, b)] else pairs)
  | Raise e => Raise e
  end.

(** The [id]s of the document are unique, as the data model has them: two
    items of the list that are distinct objects have [id]s that are not
    [==]. *)
Definition unique_ids (st : state) : Prop :=
  forall a b, a ∈ items st -> b ∈ items st -> a <> b ->
    exists ia ib,
      py_getitem (heap st a) "id" = Ok ia /\
      py_getitem (heap st b) "id" = Ok ib /\
      py_eq ia ib = false.

(** A loop over a list that threads an accumulator and stops at the first
    exception. *)
Fixpoint fold_result {X A} (f : X -> A -> result A) (l : list X) (acc : A)
    : result A :=
  match l with
  | [] => Ok acc
  | x :: l' =>
      match f x acc with
      | Ok acc' => fold_result f l' acc'
      | Raise e => Raise e
      end
  end.

(** An entry the URI filter keeps: [uri.get("uri")] is truthy. *)
Definition valid_uri (u : value) : bool :=
  match py_get u "uri" with
  | Ok x => py_truthy x
  | Raise _ => false
  end.

(** The item has a [login] whose [uris] is a non-empty list of entries the
    filter keeps. *)
Definition has_valid_uris (v : value) : bool :=
  match login_field v "uris" with
  | Ok (VList us) => py_truthy (VList us) && forallb valid_uri us
  | _ => false
  end.

(** The test of the URI filter on the contents of an item:
    ["login" in item and "uris" in item["login"] and item["login"]["uris"]]. *)
Definition has_uris_of (v : value) : result bool :=
  match py_contains "login" v with
  | Ok true =>
      match py_getitem v "login" with
      | Ok login =>
          match py_contains "uris" login with
          | Ok true =>
              match py_getitem login "uris" with
              | Ok uris => Ok (py_truthy uris)
              | Raise e => Raise e
              end
          | Ok false => Ok false
          | Raise e => Raise e
          end
      | Raise e => Raise e
      end
  | Ok false => Ok false
  | Raise e => Raise e
  end.

(** An item the scan of the URI filter has been through: it is kept, or
    the test fails on it. *)
Definition settled (v : value) : Prop :=
  has_valid_uris v = true \/ has_uris_of v = Ok false.

(** What the scan can do to the contents of an item: nothing, or replace
    the list under [login.uris] by some of its entries. *)
Definition narrowed (v v' : value) : Prop :=
  v' = v \/
  exists d l us us',
    v = VDict d /\ Dict.get "login" d = Some (VDict l) /\
    Dict.get "uris" l = Some (VList us) /\
    (forall u, u ∈ us' -> u ∈ us) /\
    v' = VDict (Dict.set "login" (VDict (Dict.set "uris" (VList us') l)) d).

(** The data model's type for URI entries: [uri] is a string, null or
    absent. *)
Definition uri_is_string (u : value) : bool :=
  match py_get u "uri" with
  | Ok (VStr _) | Ok VNone => true
  | Ok _ => false
  | Raise _ => true
  end.

Definition typed_uris (v : value) : bool :=
  match login_field v "uris" with
  | Ok (VList us) => forallb uri_is_string us
  | _ => true
  end.

(** The item list is no longer after than before. *)
Definition shrinks (st st' : state) : Prop :=
  length (items st') <= length (items st).

(** A result, or a computation, that is not the iteration bound of the
    model running out. *)
Definition python_result {A} (r : result A) : Prop := r <> Raise OutOfFuel.

Definition within_fuel {A} (c : M A) : Prop :=
  forall st, python_result (c st).2.

(** Every item of the document has its URI entries typed. *)
Definition uris_typed (st : state) : Prop :=
  forall a, a ∈ items st -> typed_uris (heap st a) = true.

(** An item as the data model has it: a Python object that is a dict with
    a [name]; its [login], when present, is a dict; the [uris] of that, when
    present, is null or a list of dicts. *)
Definition is_dict (v : value) : bool :=
  match v with VDict _ => true | _ => false end.

Definition vault_item (v : value) : bool :=
  wf_value v &&
  match v with
  | VDict d =>
      Dict.mem "name" d &&
      match Dict.get "login" d with
      | None => true
      | Some (VDict l) =>
          match Dict.get "uris" l with
          | None | Some VNone => true
          | Some (VList us) => forallb is_dict us
          | Some _ => false
          end
      | Some _ => false
      end
  | _ => false
  end.

(** Every item of the document is one. *)
Definition vault_document (st : state) : Prop :=
  forall a, a ∈ items st -> vault_item (heap st a) = true.

(** The console renders the notice of the URI filter for every item of the
    list. *)
Definition removal_rendered (st : state) : Prop :=
  forall a, a ∈ items st -> renders (RemovingNoUri (name_of st a)) = true.

(** The item list of the second state is what is left of the first after
    taking some elements out: nothing added, nothing reordered. *)
Definition only_removes (st st' : state) : Prop :=
  sublist (items st') (items st).

(** No item object is written, the registry is not touched and nothing is
    asked. *)
Definition same_objects (st st' : state) : Prop :=
  heap st' = heap st /\ merged_items st' = merged_items st /\
  prompts st' = prompts st.

(** The keys of a list in the order of their first occurrence. *)
Fixpoint first_occurrences (l : list key) : list key :=
  match l with
  | [] => []
  | k :: l' =>
      k :: List.filter (fun x => negb (bool_decide (x = k))) (first_occurrences l')
  end.

(** Deduplication by [uri] with the last occurrence winning, as the
    specification words it: one entry for each [uri] of the list, the
    [uri]s in the order in which they first occur, and for each the last
    entry of the list that has it. *)
Definition dedup_last (l : list value) : list value :=
  omap (fun k => last_with k l) (first_occurrences (uri_keys l)).

(** The item at [a] has the field [k] under [login], set to something
    other than [None]. *)
Definition has_login_field (k : string) (st : state) (a : addr) : Prop :=
  exists u, login_field (heap st a) k = Ok u /\ u <> VNone.

(** No item object is written, and the items of the list that have the
    field [k] stay in the list. *)
Definition keeps_having (k : string) (st st' : state) : Prop :=
  heap st' = heap st /\
  forall a, a ∈ items st -> has_login_field k st a -> a ∈ items st'.

(** The list starts with [a], an object with the contents [v]. *)
Definition heads (a : addr) (v : value) (st : state) : Prop :=
  heap st a = v /\ exists rest, items st = a :: rest.

Definition head_stays (a : addr) (v : value) (st st' : state) : Prop :=
  heads a v st -> heads a v st'.

(** * Sample documents *)

Definition uri (s : string) : value := VDict [("uri", VStr s)].

Definition login (username password : value) (uris : list value) : value :=
  VDict [("username", username); ("password", password); ("uris", VList uris)].

Definition item (id name : string) (login : value) : value :=
  VDict [("id", VStr id); ("name", VStr name); ("login", login)].

(** An item of another type: no [login] key. *)
Definition note (id name : string) : value :=
  VDict [("id", VStr id); ("name", VStr name)].

(** The state right after [json.load]: every item is an object of its own,
    the registry is empty, nothing has been printed. *)
Definition document (l : list value) : state :=
  mkState (fun a => default VNone (l !! a)) (seq 0 (length l)) ∅ 0 [].

Definition always (answer : bool) : nat -> bool := fun _ => answer.

(** [{"items": [{"id": "1", "name": "wifi"}]}] *)
Definition only_a_note : state := document [note "1" "wifi"].

(** One login whose [login] dict has a password and no [username] key. *)
Definition no_username_key : state :=
  document [item "1" "mail" (VDict [("password", VStr "p")])].

(** Two adjacent logins with [username: null]. *)
Definition two_userless : state :=
  document [item "1" "mail" (login VNone (VStr "p") [uri "https://x.com"]);
            item "2" "bank" (login VNone (VStr "q") [uri "https://y.com"])].

(** Two logins with the same first URI, username and password; the URI
    entries for ["https://x.com"] differ in their [match] attribute. *)
Definition uri_x (m : Z) : value :=
  VDict [("uri", VStr "https://x.com"); ("match", VInt m)].

Definition two_duplicates : state :=
  document [item "1" "mail" (login (VStr "u") (VStr "p") [uri_x 0]);
            item "2" "mail (old)"
              (login (VStr "u") (VStr "p") [uri_x 1; uri "https://y.com"])].

(** The state of [two_duplicates] after B has been merged into A. *)
Definition after_merge : state :=
  (merge_uris_of_items (always true) 0 1 two_duplicates).1.

(** A login with one good URI entry among three, a note, and a login whose
    only URI entry is empty. *)
Definition mixed : state :=
  document [item "1" "mail"
              (login (VStr "u") (VStr "p")
                     [uri "https://x.com"; uri ""; VDict [("match", VInt 0)]]);
            note "2" "wifi";
            item "3" "bank" (login (VStr "u") (VStr "p") [uri ""])].

(** Two logins with the same credentials; the second has a URI entry whose
    [uri] is a list, which no dict can have as a key. *)
Definition unhashable_uri : state :=
  document [item "1" "mail" (login (VStr "u") (VStr "p") [uri "https://x.com"]);
            item "2" "mail (old)"
              (login (VStr "u") (VStr "p")
                     [uri "https://x.com";
                      VDict [("uri", VList [VStr "https://y.com"])]])].

(** A note followed by a login. *)
Definition note_then_login : state :=
  document [note "1" "wifi";
            item "2" "mail" (login (VStr "u") (VStr "p") [uri "https://x.com"])].

(** Two logins whose URI lists have nothing in common. *)
Definition distinct_uris : state :=
  document [item "1" "mail" (login (VStr "u") (VStr "p") [uri "https://x.com"]);
            item "2" "mail (app)"
              (login (VStr "u") (VStr "p") [uri "https://y.com"])].

(** The document of the data model on which the finder raises after the
    filters: a login with [username: null], a login with no [username] key,
    and two logins with the same credentials; all four have the same first
    URI. *)
Definition skipped_login : state :=
  document [item "1" "old" (login VNone (VStr "p") [uri "https://x.com"]);
            item "2" "mail"
              (VDict [("password", VStr "p");
                      ("uris", VList [uri "https://x.com"])]);
            item "3" "bank" (login (VStr "u") (VStr "p") [uri "https://x.com"]);
            item "4" "bank (app)"
              (login (VStr "u") (VStr "p") [uri "https://x.com"])].

(** Two logins with the same credentials whose names make a closing tag
    only when the last message of the merge puts them side by side:
    [Merged item "foo[/x" into "bar]" successfully.] *)
Definition tagged : state :=
  document [item "1" "bar]" (login (VStr "u") (VStr "p") [uri "https://x.com"]);
            item "2" "foo[/x"
              (login (VStr "u") (VStr "p") [uri "https://y.com"])].

(** A console for the sample runs.  It accepts a message when every name
    and URI put into it is a string without a square bracket: rich finds
    nothing to parse as markup in such a message.  It rejects the others,
    which is more than rich does. *)
Definition plain (v : value) : bool :=
  match v with
  | VStr s => negb (str_contains "[" s)
  | _ => false
  end.

Definition plain_console (e : event) : bool :=
  match e with
  | RemovingNoUsername name | RemovingNoPassword name | RemovingNoUri name =>
      plain name
  | FoundDuplicate name_a name_b | MergedInto name_a name_b =>
      plain name_a && plain name_b
  | HasUris name uris => plain name && forallb plain uris
  | AskMerge _ => true
  end.

(** A console that rejects the last message of the merge of [tagged], as
    rich does, and accepts every other message. *)
Definition tag_console (e : event) : bool :=
  match e with
  | MergedInto (VStr name_b) (VStr name_a) =>
      negb (String.eqb name_b "foo[/x" && String.eqb name_a "bar]")
  | _ => true
  end.

(** * Reasoning about computations *)

Lemma bind_run {A B} (c : M A) (f : A -> M B) (st : state) :
  (c ≫= f) st =
  match c st with
  | (st', Ok x) => f x st'
  | (st', Raise e) => (st', Raise e)
  end.
Proof. reflexivity. Qed.

Lemma fmap_run {A B} (g : A -> B) (c : M A) (st : state) :
  (g <$> c) st =
  match c st with
  | (st', Ok x) => (st', Ok (g x))
  | (st', Raise e) => (st', Raise e)
  end.
Proof.
  unfold fmap, M_fmap. rewrite bind_run. destruct (c st) as [st' [x|e]]; reflexivity.
Qed.

Lemma ret_run {A} (x : A) (st : state) : (mret x : M A) st = (st, Ok x).
Proof. reflexivity. Qed.

Section Keeps.
Context (R : relation state) `{!PreOrder R}.

Lemma keeps_ret {A} (x : A) : keeps R (mret x).
Proof. intros st. reflexivity. Qed.

Lemma keeps_lift {A} (r : result A) : keeps R (lift r).
Proof. intros st. reflexivity. Qed.

Lemma keeps_load a : keeps R (load a).
Proof. intros st. reflexivity. Qed.

Lemma keeps_bind {A B} (c : M A) (f : A -> M B) :
  keeps R c -> (forall x, keeps R (f x)) -> keeps R (c ≫= f).
Proof.
  intros Hc Hf st. rewrite bind_run. specialize (Hc st).
  destruct (c st) as [st' [x|e]]; simpl in *; [|done].
  etrans; [exact Hc | apply Hf].
Qed.

Lemma keeps_fmap {A B} (g : A -> B) (c : M A) : keeps R c -> keeps R (g <$> c).
Proof.
  intros Hc st. rewrite fmap_run. specialize (Hc st).
  destruct (c st) as [st' [x|e]]; done.
Qed.

Lemma keeps_if {A} (b : bool) (c d : M A) :
  keeps R c -> keeps R d -> keeps R (if b then c else d).
Proof. destruct b; done. Qed.

Lemma keeps_for_items {A} (body : addr -> A -> M A) fuel i acc :
  (forall a x, keeps R (body a x)) -> keeps R (for_items body fuel i acc).
Proof.
  intros Hb. revert i acc. induction fuel as [|fuel IH]; intros i acc st; simpl.
  - destruct (items st !! i); reflexivity.
  - destruct (items st !! i) as [a|]; [|reflexivity].
    apply keeps_bind; [apply Hb | intros x; apply IH].
Qed.

Lemma keeps_for_each_item {A} (body : addr -> A -> M A) acc :
  (forall a x, keeps R (body a x)) -> keeps R (for_each_item body acc).
Proof. intros Hb st. unfold for_each_item. by apply keeps_for_items. Qed.

Lemma keeps_for_each {X} (body : X -> M unit) l :
  (forall x, keeps R (body x)) -> keeps R (for_each body l).
Proof.
  intros Hb. induction l as [|x l IH]; simpl.
  - apply keeps_ret.
  - apply keeps_bind; [apply Hb | intros _; apply IH].
Qed.

Lemma keeps_item_get a k : keeps R (item_get a k).
Proof. apply keeps_bind; [apply keeps_load | intros; apply keeps_lift]. Qed.

Lemma keeps_login_get a k : keeps R (login_get a k).
Proof. apply keeps_bind; [apply keeps_item_get | intros; apply keeps_lift]. Qed.

Lemma keeps_item_contains k a : keeps R (item_contains k a).
Proof. apply keeps_bind; [apply keeps_load | intros; apply keeps_lift]. Qed.

Lemma keeps_login_contains k a : keeps R (login_contains k a).
Proof. apply keeps_bind; [apply keeps_item_get | intros; apply keeps_lift]. Qed.

Lemma keeps_is_merged v : keeps R (is_merged v).
Proof. intros st. unfold is_merged. destruct (py_hash v); reflexivity. Qed.

Lemma keeps_first_uri a : keeps R (first_uri a).
Proof.
  apply keeps_bind; [apply keeps_login_get | intros].
  apply keeps_bind; intros; apply keeps_lift.
Qed.

Lemma keeps_same_field field a b :
  (forall x, keeps R (field x)) -> keeps R (same_field field a b).
Proof.
  intros Hf. apply keeps_bind; [apply Hf | intros].
  apply keeps_bind; [apply Hf | intros; apply keeps_ret].
Qed.

Lemma keeps_is_duplicate a b : keeps R (is_duplicate a b).
Proof.
  apply keeps_bind; [intros st; reflexivity | intros st0].
  apply keeps_if; [apply keeps_ret|].
  apply keeps_bind; [apply keeps_same_field, keeps_first_uri | intros u].
  apply keeps_if; [|apply keeps_ret].
  apply keeps_bind;
    [apply keeps_same_field; intros; apply keeps_login_get | intros n].
  apply keeps_if; [|apply keeps_ret].
  apply keeps_same_field; intros; apply keeps_login_get.
Qed.

Lemma keeps_find_items_with_duplicates : keeps R find_items_with_duplicates.
Proof.
  apply keeps_for_each_item; intros a pairs.
  apply keeps_for_each_item; intros b pairs'.
  apply keeps_bind; [apply keeps_is_duplicate | intros; apply keeps_ret].
Qed.

Lemma keeps_listed_uris a : keeps R (listed_uris a).
Proof.
  apply keeps_bind; [apply keeps_login_get | intros].
  apply keeps_bind; intros; apply keeps_lift.
Qed.
End Keeps.

(** ** Frames: what a computation leaves alone *)

#[global] Instance only_log_preorder : PreOrder only_log.
Proof.
  split.
  - intros st. repeat split.
  - intros s1 s2 s3 [(H1 & H2 & H3) H4] [(K1 & K2 & K3) K4].
    repeat split; congruence.
Qed.

#[global] Instance registry_grows_preorder : PreOrder registry_grows.
Proof.
  split.
  - intros st. unfold registry_grows. set_solver.
  - intros s1 s2 s3. unfold registry_grows. set_solver.
Qed.

Lemma only_log_say e : keeps only_log (say e).
Proof. intros st. unfold say. destruct (renders e); repeat split. Qed.

Lemma registry_grows_say e : keeps registry_grows (say e).
Proof.
  intros st. unfold registry_grows, say. destruct (renders e); simpl; set_solver.
Qed.

Lemma registry_grows_ask confirm : keeps registry_grows (ask confirm).
Proof. intros st. unfold registry_grows, ask. simpl. set_solver. Qed.

Lemma registry_grows_store a v : keeps registry_grows (store a v).
Proof. intros st. unfold registry_grows, store. simpl. set_solver. Qed.

Lemma registry_grows_mark_merged v : keeps registry_grows (mark_merged v).
Proof.
  intros st. unfold registry_grows, mark_merged.
  destruct (py_hash v); simpl; set_solver.
Qed.

(** One step of a frame proof for the relation [R]: the rules of [keeps]
    that hold for every preorder, then the hints given in [extra]. *)
Ltac keeps_step R extra :=
  first
    [ apply (keeps_ret R)
    | apply (keeps_lift R)
    | apply (keeps_load R)
    | apply (keeps_item_get R)
    | apply (keeps_login_get R)
    | apply (keeps_item_contains R)
    | apply (keeps_login_contains R)
    | apply (keeps_is_merged R)
    | apply (keeps_listed_uris R)
    | apply (keeps_first_uri R)
    | extra
    | apply (keeps_if R)
    | apply (keeps_fmap R)
    | apply (keeps_bind R); [|intros ?] ].

Lemma registry_grows_set_login_uris a v : keeps registry_grows (set_login_uris a v).
Proof.
  unfold set_login_uris.
  repeat keeps_step registry_grows ltac:(apply registry_grows_store).
Qed.

Lemma registry_grows_merge confirm a b :
  keeps registry_grows (merge_uris_of_items confirm a b).
Proof.
  unfold merge_uris_of_items.
  repeat keeps_step registry_grows
    ltac:(first [ apply registry_grows_say
                | apply registry_grows_ask
                | apply registry_grows_set_login_uris
                | apply registry_grows_mark_merged ]).
Qed.

Lemma registry_grows_merge_all confirm pairs :
  keeps registry_grows (merge_all confirm pairs).
Proof.
  apply (keeps_for_each registry_grows). intros p. apply registry_grows_merge.
Qed.

Lemma untouched_ret st0 {A} (x : A) : untouched st0 (mret x).
Proof. intros st [H _]. exact H. Qed.

Lemma untouched_bind st0 {A B} (c : M A) (f : A -> M B) :
  keeps only_log c -> (forall x, untouched st0 (f x)) -> untouched st0 (c ≫= f).
Proof.
  intros Hc Hf st Hst. rewrite bind_run. specialize (Hc st).
  assert (only_log st0 (c st).1) as H1 by (etrans; eauto).
  destruct (c st) as [st' [x|e]]; simpl in *.
  - by apply Hf.
  - apply H1.
Qed.

Lemma untouched_if st0 {A} (b : bool) (c d : M A) :
  untouched st0 c -> untouched st0 d -> untouched st0 (if b then c else d).
Proof. destruct b; done. Qed.


Lemma only_log_listed_uris a : keeps only_log (listed_uris a).
Proof. apply keeps_listed_uris, _. Qed.

Lemma untouched_declined confirm st0 (yes : M unit) :
  confirm (prompts st0) = false ->
  untouched st0 (merge_answer ← ask confirm;
                 if merge_answer : bool then yes else mret tt).
Proof.
  intros Hno st [(Hh & Hi & Hm) Hp]. rewrite bind_run. unfold ask. simpl.
  rewrite Hp, Hno. simpl. repeat split; assumption.
Qed.

Lemma untouched_merge confirm st0 a b :
  confirm (prompts st0) = false ->
  untouched st0 (merge_uris_of_items confirm a b).
Proof.
  intros Hno. unfold merge_uris_of_items.
  repeat first
    [ apply untouched_ret
    | apply untouched_declined; assumption
    | apply untouched_if
    | apply untouched_bind;
      [ keeps_step only_log ltac:(apply only_log_say) | intros ? ] ].
Qed.

Lemma item_get_run st a k :
  item_get a k st = (st, py_getitem (heap st a) k).
Proof. reflexivity. Qed.

Lemma login_get_run st a k :
  login_get a k st =
  (st, match py_getitem (heap st a) "login" with
       | Ok login => py_getitem login k
       | Raise e => Raise e
       end).
Proof.
  unfold login_get. rewrite bind_run, item_get_run.
  destruct (py_getitem (heap st a) "login"); reflexivity.
Qed.

Lemma item_contains_run st k a :
  item_contains k a st = (st, py_contains k (heap st a)).
Proof. reflexivity. Qed.

Lemma login_contains_run st k a :
  login_contains k a st =
  (st, match py_getitem (heap st a) "login" with
       | Ok login => py_contains k login
       | Raise e => Raise e
       end).
Proof.
  unfold login_contains. rewrite bind_run, item_get_run.
  destruct (py_getitem (heap st a) "login"); reflexivity.
Qed.

Lemma is_merged_run st v k :
  py_hash v = Ok k -> is_merged v st = (st, Ok (bool_decide (k ∈ merged_items st))).
Proof. intros H. unfold is_merged. by rewrite H. Qed.

Lemma item_id_Some st a k :
  item_id st a = Some k ->
  exists v, py_getitem (heap st a) "id" = Ok v /\ py_hash v = Ok k.
Proof.
  unfold item_id. destruct (py_getitem (heap st a) "id") as [v|]; [|done].
  destruct (py_hash v) as [k'|] eqn:E; [|done]. intros [= ->]. eauto.
Qed.

(** * The merge resolver: frames and the registry *)

(** C7: when the confirmation collaborator answers "no" to the prompt of a
    call of [merge_uris_of_items], the call mutates nothing: every item
    object (A and B among them), the item list of the document and the merge
    registry are as before, so B's id has not been added. *)
Theorem declined_merge_mutates_nothing confirm (st : state) (a b : addr) :
  confirm (prompts st) = false ->
  same_data st (merge_uris_of_items confirm a b st).1.
Proof.
  intros Hno. apply (untouched_merge confirm st a b Hno). reflexivity.
Qed.

(** C8: once an id is in the merge registry, it stays there through any
    sequence of later calls of the resolver, and a call whose A or B carries
    that id returns at once: no prompt, no output, no mutation; the state
    after the call is the state before it. *)
Theorem merged_id_is_skipped confirm (st0 st1 : state)
    (calls : list (addr * addr)) (a b : addr) (k : key) :
  k ∈ merged_items st0 ->
  (merge_all confirm calls st0).1 = st1 ->
  item_id st1 a = Some k \/ (is_Some (item_id st1 a) /\ item_id st1 b = Some k) ->
  merge_uris_of_items confirm a b st1 = (st1, Ok tt).
Proof.
  intros Hk Hrun Hid.
  assert (k ∈ merged_items st1) as Hk1.
  { pose proof (registry_grows_merge_all confirm calls st0) as Hg.
    rewrite Hrun in Hg. apply Hg, Hk. }
  unfold merge_uris_of_items.
  destruct Hid as [Ha | [[ka Ha] Hb]].
  - apply item_id_Some in Ha as (v & Hv & Hh).
    rewrite bind_run, item_get_run, Hv.
    rewrite bind_run, (is_merged_run _ _ _ Hh).
    by rewrite bool_decide_eq_true_2.
  - apply item_id_Some in Ha as (v & Hv & Hh).
    apply item_id_Some in Hb as (w & Hw & Hhw).
    rewrite bind_run, item_get_run, Hv.
    rewrite bind_run, (is_merged_run _ _ _ Hh).
    destruct (bool_decide (ka ∈ merged_items st1)); [done|].
    rewrite bind_run, item_get_run, Hw.
    rewrite bind_run, (is_merged_run _ _ _ Hhw).
    by rewrite bool_decide_eq_true_2.
Qed.

(** * The duplicate finder *)

(** C10: [find_items_with_duplicates] is a query: whatever it returns or
    raises, the state after the call (the item list, every item object, the
    registry and the output) is the state before it. *)
Theorem finder_modifies_nothing (st : state) :
  (find_items_with_duplicates st).1 = st.
Proof. symmetry. apply (keeps_find_items_with_duplicates eq). Qed.

(** * The userless and passwordless filters *)

Lemma for_each_item_first {A} (body : addr -> A -> M A) acc st a rest :
  items st = a :: rest ->
  for_each_item body acc st =
  (acc' ← body a acc; for_items body (length rest) 1 acc') st.
Proof. intros H. unfold for_each_item. rewrite H. simpl. by rewrite H. Qed.

Lemma dict_mem_None {K A} `{EqDecision K} (k : K) (d : list (K * A)) :
  Dict.get k d = None -> Dict.mem k d = false.
Proof. unfold Dict.mem. by intros ->. Qed.

Lemma dict_mem_Some {K A} `{EqDecision K} (k : K) (d : list (K * A)) v :
  Dict.get k d = Some v -> Dict.mem k d = true.
Proof. unfold Dict.mem. by intros ->. Qed.

(** C1: the passwordless filter does not leave an item without [login]
    alone.  When the first item of the document is a dict with no [login]
    key, the test [... or "password" not in item["login"]] evaluates
    [item["login"]] and the filter stops with [KeyError: 'login'], nothing
    removed. *)
Theorem passwordless_raises_without_login (st : state) (a : addr)
    (rest : list addr) (d : list (string * value)) :
  items st = a :: rest ->
  heap st a = VDict d ->
  Dict.get "login" d = None ->
  remove_passwordless_item st = (st, Raise (KeyError (VStr "login"))).
Proof.
  intros Hitems Ha Hlogin. unfold remove_passwordless_item.
  rewrite (for_each_item_first _ _ _ _ _ Hitems), bind_run.
  unfold passwordless at 1.
  rewrite !bind_run, item_contains_run, Ha. simpl.
  rewrite (dict_mem_None _ _ Hlogin), bind_run, ret_run, fmap_run, login_contains_run, Ha.
  simpl. by rewrite Hlogin.
Qed.

(** The same filter on an item whose [login] has no [password] key: the
    lookup [item["login"]["password"]] comes before the membership test. *)
Lemma passwordless_raises_without_password (st : state) (a : addr)
    (rest : list addr) (d l : list (string * value)) :
  items st = a :: rest ->
  heap st a = VDict d ->
  Dict.get "login" d = Some (VDict l) ->
  Dict.get "password" l = None ->
  remove_passwordless_item st = (st, Raise (KeyError (VStr "password"))).
Proof.
  intros Hitems Ha Hlogin Hpw. unfold remove_passwordless_item.
  rewrite (for_each_item_first _ _ _ _ _ Hitems), bind_run.
  unfold passwordless at 1.
  rewrite !bind_run, item_contains_run, Ha. simpl.
  rewrite (dict_mem_Some _ _ _ Hlogin). cbn iota.
  rewrite !bind_run, login_get_run, Ha.
  simpl. rewrite Hlogin. simpl. by rewrite Hpw.
Qed.

(** C2: the userless filter does not treat a missing [username] key as
    "no username".  When the first item of the document has a [login] dict
    without that key, [item["login"]["username"] is None] is evaluated
    before ["username" not in item["login"]] and the filter stops with
    [KeyError: 'username'], nothing removed. *)
Theorem userless_raises_without_username (st : state) (a : addr)
    (rest : list addr) (d l : list (string * value)) :
  items st = a :: rest ->
  heap st a = VDict d ->
  Dict.get "login" d = Some (VDict l) ->
  Dict.get "username" l = None ->
  remove_userless_item st = (st, Raise (KeyError (VStr "username"))).
Proof.
  intros Hitems Ha Hlogin Hun. unfold remove_userless_item.
  rewrite (for_each_item_first _ _ _ _ _ Hitems), bind_run.
  unfold userless at 1.
  rewrite !bind_run, item_contains_run, Ha. simpl.
  rewrite (dict_mem_Some _ _ _ Hlogin). cbn iota.
  rewrite !bind_run, login_get_run, Ha.
  simpl. rewrite Hlogin. simpl. by rewrite Hun.
Qed.

(** C5: the filter stage is not idempotent.  On a document of two adjacent
    logins with [username: null], and a console that renders the notices of
    the two removals, the first run removes the first and steps over the
    second, because [remove_userless_item] removes from the list it is
    iterating; the second run then removes the item the first run left. *)
Theorem filter_stage_second_run_removes :
  renders (RemovingNoUsername (VStr "mail")) = true ->
  renders (RemovingNoUsername (VStr "bank")) = true ->
  let st1 := (filter_stage two_userless).1 in
  let st2 := (filter_stage st1).1 in
  (filter_stage two_userless).2 = Ok tt /\ items st1 = [1] /\
  (filter_stage st1).2 = Ok tt /\ items st2 = [].
Proof.
  intros Hmail Hbank.
  assert (remove_userless_item two_userless =
          (mkState (heap two_userless) [1] ∅ 0
                   [RemovingNoUsername (VStr "mail")], Ok tt)) as Hfirst.
  { vm_compute. rewrite Hmail. reflexivity. }
  assert (exists s1, filter_stage two_userless = (s1, Ok tt) /\
                     items s1 = [1] /\
                     remove_userless_item s1 =
                     (mkState (heap s1) [] ∅ 0
                        [RemovingNoUsername (VStr "mail");
                         RemovingNoUsername (VStr "bank")], Ok tt))
    as (s1 & Hrun1 & Hitems1 & Hsecond).
  { eexists. split; [|split].
    - unfold filter_stage. rewrite !bind_run, Hfirst. vm_compute. reflexivity.
    - reflexivity.
    - vm_compute. rewrite Hbank. reflexivity. }
  cbv zeta. rewrite Hrun1. cbn [fst snd]. split_and!; [done | done | |].
  - unfold filter_stage. rewrite !bind_run, Hsecond. by vm_compute.
  - unfold filter_stage. rewrite !bind_run, Hsecond. by vm_compute.
Qed.

(** * Dictionaries and the mapping-based deduplication *)

Section DictFacts.
Context {K A : Type} `{EqDecision K}.
Implicit Types (k : K) (v : A) (d : list (K * A)).

Lemma dict_get_set k k' v d :
  Dict.get k (Dict.set k' v d) = if decide (k = k') then Some v else Dict.get k d.
Proof.
  induction d as [|[k0 v0] d IH]; simpl.
  - reflexivity.
  - destruct (decide (k' = k0)) as [->|Hne]; simpl.
    + destruct (decide (k = k0)); reflexivity.
    + rewrite IH. destruct (decide (k = k0)) as [->|]; [|reflexivity].
      by rewrite decide_False.
Qed.

Lemma dict_keys_set k v d :
  Dict.keys (Dict.set k v d) =
  if decide (k ∈ Dict.keys d) then Dict.keys d else Dict.keys d ++ [k].
Proof.
  unfold Dict.keys. induction d as [|[k0 v0] d IH]; simpl.
  - reflexivity.
  - destruct (decide (k = k0)) as [->|Hne]; simpl.
    + clear IH. case_decide as Hin; [done | set_solver].
    + rewrite IH. repeat case_decide; try done.
      * exfalso. set_solver.
      * exfalso. set_solver.
Qed.

Lemma dict_set_NoDup k v d :
  NoDup (Dict.keys d) -> NoDup (Dict.keys (Dict.set k v d)).
Proof.
  intros Hd. rewrite dict_keys_set. case_decide; [done|].
  apply NoDup_app. split_and!; [done | | apply NoDup_singleton].
  intros x Hx ->%list_elem_of_singleton. done.
Qed.

Lemma dict_get_Some_keys k v d : Dict.get k d = Some v -> k ∈ Dict.keys d.
Proof.
  unfold Dict.keys. induction d as [|[k0 v0] d IH]; simpl; [done|].
  destruct (decide (k = k0)) as [->|]; set_solver.
Qed.

Lemma dict_get_None_keys k d : Dict.get k d = None <-> k ∉ Dict.keys d.
Proof.
  unfold Dict.keys. induction d as [|[k0 v0] d IH]; simpl.
  - split; [intros _; apply not_elem_of_nil | done].
  - destruct (decide (k = k0)) as [->|Hne].
    + split; [done | set_solver].
    + rewrite IH, not_elem_of_cons. naive_solver.
Qed.
End DictFacts.

Lemma uri_key_Some u k :
  uri_key u = Some k ->
  exists v, py_getitem u "uri" = Ok v /\ py_hash v = Ok k.
Proof.
  unfold uri_key. destruct (py_getitem u "uri") as [v|]; [|done].
  destruct (py_hash v) as [k'|] eqn:E; [|done]. intros [= ->]. eauto.
Qed.

Lemma last_with_app k l1 l2 :
  last_with k (l1 ++ l2) =
  match last_with k l2 with
  | Some u => Some u
  | None => last_with k l1
  end.
Proof.
  induction l1 as [|u l1 IH]; simpl.
  - by destruct (last_with k l2).
  - rewrite IH. by destruct (last_with k l2).
Qed.

Lemma last_with_key k l u : last_with k l = Some u -> uri_key u = Some k /\ u ∈ l.
Proof.
  induction l as [|w l IH]; simpl; [done|].
  destruct (last_with k l) as [x|].
  - intros [= ->]. destruct IH as [? ?]; [done|]. set_solver.
  - case_decide; [|done]. intros [= ->]. set_solver.
Qed.

Lemma last_with_None k l : last_with k l = None <-> k ∉ uri_keys l.
Proof.
  unfold uri_keys. induction l as [|w l IH]; simpl.
  - split; [intros _; apply not_elem_of_nil | done].
  - destruct (last_with k l) as [x|] eqn:E.
    + split; [done|]. intros Hn. exfalso.
      assert (k ∉ omap uri_key l) as Hn'
        by (destruct (uri_key w); set_solver).
      apply IH in Hn'. done.
    + destruct IH as [IH _]. specialize (IH eq_refl).
      case_decide as Hw.
      * rewrite Hw. split; [done | set_solver].
      * split; [intros _ | done].
        destruct (uri_key w) as [kw|] eqn:Ew; [|done].
        apply not_elem_of_cons. split; [congruence | done].
Qed.

Lemma keyed_set k u d : uri_key u = Some k -> keyed d -> keyed (Dict.set k u d).
Proof.
  intros Hu. unfold keyed. induction 1 as [|[k0 u0] d H0 Hd IH]; simpl.
  - by repeat constructor.
  - case_decide as Hk.
    + subst k0. by constructor.
    + by constructor.
Qed.

Lemma keyed_values_keys d : keyed d -> uri_keys (Dict.values d) = Dict.keys d.
Proof.
  unfold keyed, uri_keys, Dict.values, Dict.keys.
  induction 1 as [|[k u] d H0 Hd IH]; simpl in *; [done|].
  rewrite H0. f_equal. exact IH.
Qed.

Lemma keyed_first_with k d : keyed d -> first_with k (Dict.values d) = Dict.get k d.
Proof.
  unfold keyed, Dict.values.
  induction 1 as [|[k0 u] d H0 Hd IH]; simpl in *; [done|].
  rewrite H0, IH. destruct (decide (k = k0)) as [->|Hne].
  - by rewrite decide_True.
  - rewrite decide_False; [done | congruence].
Qed.

(** What [by_uri] computes: it cannot fail on entries that have a key, and
    the mapping it returns binds each key to the last entry that has it
    (or, for a key no entry has, to what [d] bound it to). *)
Lemma by_uri_spec l :
  Forall (fun u => is_Some (uri_key u)) l ->
  forall d, keyed d -> NoDup (Dict.keys d) ->
  exists d',
    by_uri l d = Ok d' /\ keyed d' /\ NoDup (Dict.keys d') /\
    forall k, Dict.get k d' =
              match last_with k l with
              | Some u => Some u
              | None => Dict.get k d
              end.
Proof.
  induction 1 as [|u l [ku Hu] Hl IH]; intros d Hd Hnd; simpl.
  - exists d. done.
  - destruct (uri_key_Some _ _ Hu) as (v & Hv & Hh). rewrite Hv, Hh.
    destruct (IH (Dict.set ku u d)) as (d' & Hrun & Hk & Hn & Hget).
    { by apply keyed_set. }
    { by apply dict_set_NoDup. }
    exists d'. split_and!; [done..|].
    intros k. rewrite Hget, dict_get_set, Hu.
    destruct (last_with k l); [done|].
    destruct (decide (k = ku)) as [->|Hne].
    + by rewrite decide_True.
    + rewrite decide_False; [done | congruence].
Qed.

(** The deduplication of a list of entries that all have a key: no key
    twice, and under each key the last entry of the list that has it. *)
Lemma dedup_uris_spec l :
  Forall (fun u => is_Some (uri_key u)) l ->
  exists merged,
    dedup_uris (VList l) = Ok merged /\
    NoDup (uri_keys merged) /\
    Forall (fun u => is_Some (uri_key u)) merged /\
    forall k, first_with k merged = last_with k l.
Proof.
  intros Hl. destruct (by_uri_spec l Hl []) as (d & Hrun & Hk & Hn & Hget).
  { constructor. } { constructor. }
  exists (Dict.values d). unfold dedup_uris. simpl. rewrite Hrun.
  split_and!; [done | by rewrite keyed_values_keys | |].
  - unfold Dict.values. apply Forall_fmap. eapply Forall_impl; [exact Hk|].
    intros [k u] Hu. simpl in *. by rewrite Hu.
  - intros k. rewrite keyed_first_with, Hget by done.
    by destruct (last_with k l).
Qed.

Lemma filter_filter_and {A} (P Q : A -> bool) l :
  List.filter P (List.filter Q l) = List.filter (fun x => Q x && P x) l.
Proof.
  induction l as [|x l IH]; simpl; [done|].
  destruct (Q x); simpl; [|done]. destruct (P x); by rewrite IH.
Qed.

Lemma uri_keys_cons u l k :
  uri_key u = Some k -> uri_keys (u :: l) = k :: uri_keys l.
Proof. intros H. unfold uri_keys. simpl. by rewrite H. Qed.

(** The keys of the mapping [by_uri] builds: those of [d], then the new
    keys of the list in the order of their first occurrence. *)
Lemma by_uri_keys l :
  Forall (fun u => is_Some (uri_key u)) l ->
  forall d, exists d',
    by_uri l d = Ok d' /\
    Dict.keys d' =
      Dict.keys d ++
      List.filter (fun x => negb (bool_decide (x ∈ Dict.keys d)))
                  (first_occurrences (uri_keys l)).
Proof.
  induction 1 as [|u l [k Hu] Hl IH]; intros d.
  - exists d. simpl. by rewrite app_nil_r.
  - rewrite (uri_keys_cons _ _ _ Hu). simpl.
    destruct (uri_key_Some _ _ Hu) as (v & Hv & Hh). rewrite Hv, Hh.
    destruct (IH (Dict.set k u d)) as (d' & Hrun & Hkeys).
    exists d'. split; [done|]. rewrite Hkeys, dict_keys_set.
    rewrite filter_filter_and.
    destruct (decide (k ∈ Dict.keys d)) as [Hin|Hnin].
    + rewrite bool_decide_eq_true_2 by done. simpl. f_equal.
      apply List.filter_ext. intros x.
      destruct (bool_decide (x ∈ Dict.keys d)) eqn:Ex; simpl;
        [by rewrite andb_false_r|].
      apply bool_decide_eq_false_1 in Ex.
      rewrite bool_decide_eq_false_2; [done | congruence].
    + rewrite bool_decide_eq_false_2 by done. simpl.
      rewrite <- app_assoc. simpl. do 2 f_equal.
      apply List.filter_ext. intros x.
      destruct (decide (x = k)) as [->|Hne].
      * rewrite (bool_decide_eq_true_2 (k = k)) by done. simpl.
        rewrite bool_decide_eq_true_2; [done | set_solver].
      * rewrite (bool_decide_eq_false_2 (x = k)) by done. simpl.
        destruct (decide (x ∈ Dict.keys d)) as [Hx|Hx].
        -- rewrite !bool_decide_eq_true_2; [done | done | set_solver].
        -- rewrite !bool_decide_eq_false_2; [done | done | set_solver].
Qed.

Lemma filter_true {A} (l : list A) : List.filter (fun _ => true) l = l.
Proof. induction l as [|x l IH]; simpl; [done | by rewrite IH]. Qed.

Lemma dedup_uris_keys l merged :
  Forall (fun u => is_Some (uri_key u)) l ->
  dedup_uris (VList l) = Ok merged ->
  uri_keys merged = first_occurrences (uri_keys l).
Proof.
  intros Hl. unfold dedup_uris. simpl.
  destruct (by_uri_spec l Hl []) as (d & Hrun & Hk & _ & _);
    [constructor | constructor |].
  destruct (by_uri_keys l Hl []) as (d' & Hrun' & Hkeys).
  rewrite Hrun in Hrun'. injection Hrun' as <-. rewrite Hrun.
  intros [= <-]. rewrite (keyed_values_keys _ Hk), Hkeys. simpl.
  apply filter_true.
Qed.

Lemma omap_ext_in {A B} (f g : A -> option B) (l : list A) :
  (forall x, x ∈ l -> f x = g x) -> omap f l = omap g l.
Proof.
  induction l as [|x l IH]; intros H; [done|].
  assert (omap f l = omap g l) as E by (apply IH; intros y Hy; apply H; by right).
  simpl. rewrite (H x) by left. destruct (g x); [f_equal|]; exact E.
Qed.

(** A list with no key twice is the list of its first entries, key by
    key. *)
Lemma keyed_list_by_first l :
  Forall (fun u => is_Some (uri_key u)) l -> NoDup (uri_keys l) ->
  omap (fun k => first_with k l) (uri_keys l) = l.
Proof.
  induction 1 as [|u l [k Hu] Hl IH]; intros Hnd; [done|].
  rewrite (uri_keys_cons _ _ _ Hu) in *. apply NoDup_cons in Hnd as [Hk Hnd].
  simpl. rewrite decide_True by done. f_equal.
  rewrite <- (IH Hnd) at 2. apply omap_ext_in. intros k' Hk'.
  rewrite decide_False; [done|]. rewrite Hu. intros [= ->]. done.
Qed.

(** The mapping-based deduplication of the code is the deduplication with
    the last occurrence winning. *)
Lemma dedup_uris_last l :
  Forall (fun u => is_Some (uri_key u)) l ->
  dedup_uris (VList l) = Ok (dedup_last l).
Proof.
  intros Hl.
  destruct (dedup_uris_spec l Hl) as (merged & Hrun & Hnd & Fm & Hlast).
  rewrite Hrun. f_equal. unfold dedup_last.
  rewrite <- (dedup_uris_keys l merged Hl Hrun).
  rewrite <- (keyed_list_by_first merged Fm Hnd) at 1.
  apply omap_ext_in. intros k _. apply Hlast.
Qed.

(** * Running the merge resolver *)

Lemma item_get_ok st a d k v :
  heap st a = VDict d -> Dict.get k d = Some v ->
  item_get a k st = (st, Ok v).
Proof. intros Ha Hk. rewrite item_get_run, Ha. simpl. by rewrite Hk. Qed.

Lemma login_get_ok st a d l k v :
  heap st a = VDict d -> Dict.get "login" d = Some (VDict l) ->
  Dict.get k l = Some v ->
  login_get a k st = (st, Ok v).
Proof.
  intros Ha Hl Hk. rewrite login_get_run, Ha. simpl. rewrite Hl. simpl.
  by rewrite Hk.
Qed.

Lemma uri_strings_total l :
  Forall (fun u => is_Some (uri_key u)) l -> exists r, uri_strings l = Ok r.
Proof.
  induction 1 as [|u l [k Hu] Hl [r IH]]; simpl; [by eexists|].
  destruct (uri_key_Some _ _ Hu) as (v & -> & _). rewrite IH. by eexists.
Qed.

Lemma listed_uris_ok st a d l us r :
  heap st a = VDict d -> Dict.get "login" d = Some (VDict l) ->
  Dict.get "uris" l = Some (VList us) ->
  uri_strings us = Ok r ->
  listed_uris a st = (st, Ok r).
Proof.
  intros Ha Hl Hu Hr. unfold listed_uris.
  rewrite bind_run, (login_get_ok st a d l "uris" _ Ha Hl Hu).
  rewrite bind_run. unfold lift. simpl. by rewrite Hr.
Qed.

Lemma set_login_uris_ok st a d l v :
  heap st a = VDict d -> Dict.get "login" d = Some (VDict l) ->
  set_login_uris a v st =
  (with_heap
     (<[a := VDict (Dict.set "login" (VDict (Dict.set "uris" v l)) d)]> (heap st))
     st, Ok tt).
Proof.
  intros Ha Hl. unfold set_login_uris, load, lift, store.
  rewrite !bind_run. simpl. rewrite Ha. simpl. by rewrite Hl.
Qed.

Lemma mark_merged_ok st v k :
  py_hash v = Ok k ->
  mark_merged v st = (with_merged ({[k]} ∪ merged_items st) st, Ok tt).
Proof. intros H. unfold mark_merged. by rewrite H. Qed.

(** Writing [login.uris] keeps what the resolver reads of an item and sets
    its URI list. *)
Lemma login_item_set_uris d l k us us' :
  login_item (VDict d) k us ->
  Dict.get "login" d = Some (VDict l) ->
  Forall (fun u => is_Some (uri_key u)) us' ->
  login_item (VDict (Dict.set "login" (VDict (Dict.set "uris" (VList us') l)) d))
             k us'.
Proof.
  intros (d0 & l0 & id & name & [= <-] & Hid & Hh & Hn & Hl0 & _ & _) Hl Hus'.
  eexists _, _, id, name. split_and!; [reflexivity | ..|exact Hus'].
  - by rewrite dict_get_set.
  - done.
  - by rewrite dict_get_set.
  - by rewrite dict_get_set.
  - by rewrite dict_get_set.
Qed.

Lemma say_run e st :
  renders e = true ->
  say e st =
  (mkState (heap st) (items st) (merged_items st) (prompts st) (log st ++ [e]),
   Ok tt).
Proof. intros H. unfold say. by rewrite H. Qed.

Lemma say_raises e st :
  renders e = false -> say e st = (st, Raise MarkupError).
Proof. intros H. unfold say. by rewrite H. Qed.

(** Running the resolver on two login items, neither merged yet, on a
    console that renders the three messages before the prompt, with a "yes"
    from the collaborator: the item at [item_a] is replaced by [item'], [kb]
    is added to the registry, one prompt is issued and [evs] is printed;
    then comes the last message, and the call returns if the console
    renders it and raises [MarkupError], with all this done, if not. *)
Lemma merge_confirmed_run confirm st a b ka kb ua ub :
  login_item (heap st a) ka ua ->
  login_item (heap st b) kb ub ->
  ka ∉ merged_items st -> kb ∉ merged_items st ->
  rendered (merge_notices st a b ua ub) ->
  confirm (prompts st) = true ->
  exists merged item' evs,
    merge_uris_of_items confirm a b st =
      (if renders (merge_report st a b) then
         (mkState (<[a := item']> (heap st)) (items st)
                  ({[kb]} ∪ merged_items st) (S (prompts st))
                  (log st ++ evs ++ [merge_report st a b]),
          Ok tt)
       else
         (mkState (<[a := item']> (heap st)) (items st)
                  ({[kb]} ∪ merged_items st) (S (prompts st)) (log st ++ evs),
          Raise MarkupError)) /\
    dedup_uris (VList (ua ++ ub)) = Ok merged /\
    login_item item' ka merged.
Proof.
  intros Ha Hb Hna Hnb Hsay Hyes.
  assert (Ha' := Ha).
  destruct Ha as (da & la & ida & na & Ea & Hida & Hka & Hnma & Hla & Hua & Fa).
  destruct Hb as (db & lb & idb & nb & Eb & Hidb & Hkb & Hnmb & Hlb & Hub & Fb).
  destruct (uri_strings_total ua Fa) as [ra Hra].
  destruct (uri_strings_total ub Fb) as [rb Hrb].
  destruct (dedup_uris_spec (ua ++ ub)) as (merged & Hdedup & Hnd & Fm & Hlast).
  { by apply Forall_app. }
  assert (name_of st a = na) as Ena
    by (unfold name_of; rewrite Ea; simpl; by rewrite Hnma).
  assert (name_of st b = nb) as Enb
    by (unfold name_of; rewrite Eb; simpl; by rewrite Hnmb).
  unfold merge_report. unfold rendered, merge_notices, shown_uris in Hsay.
  rewrite Ena, Enb. rewrite Ena, Enb, Hra, Hrb in Hsay.
  apply Forall_cons in Hsay as [Say1 Hsay].
  apply Forall_cons in Hsay as [Say2 Hsay].
  apply Forall_cons in Hsay as [Say3 _].
  exists merged. eexists.
  exists [FoundDuplicate na nb; HasUris na ra; HasUris nb rb; AskMerge true].
  split; [|split; [exact Hdedup|]].
  - unfold merge_uris_of_items.
    rewrite bind_run, (item_get_ok _ _ _ _ _ Ea Hida).
    rewrite bind_run, (is_merged_run _ _ _ Hka), bool_decide_eq_false_2 by done.
    rewrite bind_run, (item_get_ok _ _ _ _ _ Eb Hidb).
    rewrite bind_run, (is_merged_run _ _ _ Hkb), bool_decide_eq_false_2 by done.
    rewrite bind_run, (item_get_ok _ _ _ _ _ Ea Hnma).
    rewrite bind_run, (item_get_ok _ _ _ _ _ Eb Hnmb).
    rewrite bind_run, (say_run _ _ Say1).
    rewrite bind_run. erewrite listed_uris_ok by (simpl; eassumption).
    rewrite bind_run. erewrite listed_uris_ok by (simpl; eassumption).
    rewrite bind_run. erewrite item_get_ok by (simpl; eassumption).
    rewrite bind_run, (say_run _ _ Say2).
    rewrite bind_run. erewrite item_get_ok by (simpl; eassumption).
    rewrite bind_run, (say_run _ _ Say3).
    rewrite bind_run. unfold ask. simpl. rewrite Hyes.
    rewrite bind_run. erewrite login_get_ok by (simpl; eassumption).
    rewrite bind_run. erewrite login_get_ok by (simpl; eassumption).
    rewrite bind_run. unfold lift at 1. simpl py_add. cbv beta iota.
    rewrite bind_run. unfold lift at 1. rewrite Hdedup.
    rewrite bind_run. erewrite set_login_uris_ok by (simpl; eassumption).
    assert (forall k v, k <> "login" -> Dict.get k db = Some v ->
              py_getitem
                (<[a := VDict (Dict.set "login"
                                 (VDict (Dict.set "uris" (VList merged) la)) da)]>
                   (heap st) b) k = Ok v) as Hkeep.
    { intros k v Hk Hv. destruct (decide (a = b)) as [->|Hab].
      - rewrite fn_lookup_insert. simpl. rewrite dict_get_set, decide_False by done.
        assert (da = db) as -> by congruence. by rewrite Hv.
      - rewrite fn_lookup_insert_ne by done. rewrite Eb. simpl. by rewrite Hv. }
    rewrite bind_run, item_get_run. simpl heap. rewrite (Hkeep "id" idb) by done.
    rewrite bind_run, (mark_merged_ok _ _ _ Hkb).
    rewrite bind_run, item_get_run. simpl heap. rewrite (Hkeep "name" nb) by done.
    rewrite bind_run, item_get_run. simpl heap.
    rewrite fn_lookup_insert. simpl py_getitem.
    rewrite dict_get_set, decide_False, Hnma by done.
    unfold say. destruct (renders (MergedInto nb na)); simpl;
      rewrite <- ?app_assoc; simpl; reflexivity.
  - rewrite Ea in Ha'. by apply (login_item_set_uris da la ka ua merged).
Qed.

Lemma login_item_uris st a k us :
  login_item (heap st a) k us -> item_uris st a = Some us.
Proof.
  intros (d & l & id & name & E & _ & _ & _ & Hl & Hu & _).
  unfold item_uris. rewrite E. simpl. rewrite Hl. simpl. by rewrite Hu.
Qed.

Lemma first_with_None k l : first_with k l = None <-> k ∉ uri_keys l.
Proof.
  unfold uri_keys. induction l as [|w l IH]; simpl.
  - split; [intros _; apply not_elem_of_nil | done].
  - case_decide as Hw.
    + rewrite Hw. split; [done | set_solver].
    + rewrite IH. destruct (uri_key w) as [kw|] eqn:Ew; [|done].
      rewrite not_elem_of_cons. split; [|tauto].
      intros Hn. split; [congruence | done].
Qed.

Lemma first_with_key k l u :
  first_with k l = Some u -> uri_key u = Some k /\ u ∈ l.
Proof.
  induction l as [|w l IH]; simpl; [done|].
  case_decide.
  - intros [= ->]. set_solver.
  - intros H1. destruct (IH H1). set_solver.
Qed.

Lemma first_with_NoDup k l u :
  NoDup (uri_keys l) -> u ∈ l -> uri_key u = Some k -> first_with k l = Some u.
Proof.
  unfold uri_keys. induction l as [|w l IH]; simpl; intros Hnd Hin Hk.
  - by apply elem_of_nil in Hin.
  - case_decide as Hw.
    + rewrite Hw in Hnd. apply NoDup_cons in Hnd as [Hnin _].
      apply elem_of_cons in Hin as [->|Hin]; [done|].
      destruct Hnin. apply list_elem_of_omap. eauto.
    + apply elem_of_cons in Hin as [->|Hin]; [done|].
      apply IH; [|done..]. destruct (uri_key w); [|done].
      by apply NoDup_cons in Hnd as [_ ?].
Qed.

(** * The merge *)

(** What a confirmed merge does, shared by the properties below. *)
Lemma merge_confirmed_last_wins confirm (st : state) (a b : addr) (ka kb : key)
    (ua ub : list value) :
  login_item (heap st a) ka ua ->
  login_item (heap st b) kb ub ->
  ka ∉ merged_items st -> kb ∉ merged_items st ->
  rendered (merge_messages st a b ua ub) ->
  confirm (prompts st) = true ->
  exists st' merged,
    merge_uris_of_items confirm a b st = (st', Ok tt) /\
    item_uris st' a = Some merged /\
    NoDup (uri_keys merged) /\
    Forall (fun u => is_Some (uri_key u)) merged /\
    (forall k, first_with k merged = last_with k (ua ++ ub)) /\
    kb ∈ merged_items st' /\
    items st' = items st /\
    merged = dedup_last (ua ++ ub).
Proof.
  intros Ha Hb Hna Hnb [Hsay Hlastsay]%Forall_app Hyes.
  apply Forall_cons in Hlastsay as [Hreport _].
  destruct (merge_confirmed_run confirm st a b ka kb ua ub
              Ha Hb Hna Hnb Hsay Hyes)
    as (merged & item' & evs & Hrun & Hdedup & Hitem).
  rewrite Hreport in Hrun.
  assert (Forall (fun u => is_Some (uri_key u)) (ua ++ ub)) as Hkeys.
  { destruct Ha as (? & ? & ? & ? & _ & _ & _ & _ & _ & _ & Fa).
    destruct Hb as (? & ? & ? & ? & _ & _ & _ & _ & _ & _ & Fb).
    by apply Forall_app. }
  destruct (dedup_uris_spec (ua ++ ub) Hkeys) as (merged' & Hd' & Hnd & Fm & Hlast).
  assert (merged' = merged) as -> by congruence.
  eexists _, merged. split; [exact Hrun|]. simpl. split_and!.
  - apply (login_item_uris _ a ka). simpl. by rewrite fn_lookup_insert.
  - exact Hnd.
  - exact Fm.
  - exact Hlast.
  - set_solver.
  - reflexivity.
  - rewrite (dedup_uris_last _ Hkeys) in Hdedup. congruence.
Qed.

(** C3: a confirmed merge of the login items A and B, neither merged yet,
    on a console that renders the four messages of the call, returns and
    leaves in A's [uris] the concatenation of A's entries followed by B's,
    deduplicated by [uri] with the last occurrence winning: the list
    [dedup_last (ua ++ ub)], which has each [uri] once, at the place where it
    first occurs, and under it the last entry of the concatenation that has
    it, so B's entry when B has one.  B's id is then in the registry, and
    the item list of the document is what it was: B is still in it. *)
Theorem confirmed_merge confirm (st : state) (a b : addr) (ka kb : key)
    (ua ub : list value) :
  login_item (heap st a) ka ua ->
  login_item (heap st b) kb ub ->
  ka ∉ merged_items st -> kb ∉ merged_items st ->
  rendered (merge_messages st a b ua ub) ->
  confirm (prompts st) = true ->
  exists st' merged,
    merge_uris_of_items confirm a b st = (st', Ok tt) /\
    item_uris st' a = Some merged /\
    merged = dedup_last (ua ++ ub) /\
    NoDup (uri_keys merged) /\
    Forall (fun u => is_Some (uri_key u)) merged /\
    (forall k, first_with k merged = last_with k (ua ++ ub)) /\
    (forall k u, last_with k ub = Some u -> first_with k merged = Some u) /\
    kb ∈ merged_items st' /\
    items st' = items st.
Proof.
  intros Ha Hb Hna Hnb Hsay Hyes.
  destruct (merge_confirmed_last_wins confirm st a b ka kb ua ub
              Ha Hb Hna Hnb Hsay Hyes)
    as (st' & merged & Hrun & Huris & Hnd & Fm & Hlast & Hreg & Hitems & Hm).
  exists st', merged. split_and!; try done.
  intros k u Hu. by rewrite Hlast, last_with_app, Hu.
Qed.

(** C6, as the code has it: after a confirmed merge, on a console that
    renders the four messages of the call, A's [uris] holds the union of A's
    and B's entries by [uri], with no [uri] twice: its keys are those of A's
    list and of B's, its entries come from the two lists, and where both
    lists have an entry for a [uri] it is B's copy (the last occurrence)
    that stays. *)
Theorem merged_uris_union_keeps_last confirm (st : state) (a b : addr)
    (ka kb : key) (ua ub : list value) :
  login_item (heap st a) ka ua ->
  login_item (heap st b) kb ub ->
  ka ∉ merged_items st -> kb ∉ merged_items st ->
  rendered (merge_messages st a b ua ub) ->
  confirm (prompts st) = true ->
  exists st' merged,
    merge_uris_of_items confirm a b st = (st', Ok tt) /\
    item_uris st' a = Some merged /\
    NoDup (uri_keys merged) /\
    (forall k, k ∈ uri_keys merged <-> k ∈ uri_keys ua \/ k ∈ uri_keys ub) /\
    (forall u, u ∈ merged -> u ∈ ua \/ u ∈ ub) /\
    (forall k, k ∈ uri_keys ua -> k ∈ uri_keys ub ->
               is_Some (last_with k ub) /\
               first_with k merged = last_with k ub).
Proof.
  intros Ha Hb Hna Hnb Hsay Hyes.
  destruct (merge_confirmed_last_wins confirm st a b ka kb ua ub
              Ha Hb Hna Hnb Hsay Hyes)
    as (st' & merged & Hrun & Huris & Hnd & Fm & Hlast & _ & _ & _).
  exists st', merged. split_and!; try done.
  - intros k.
    rewrite <- elem_of_app. unfold uri_keys at 2 3. rewrite <- omap_app.
    fold (uri_keys (ua ++ ub)).
    destruct (decide (k ∈ uri_keys merged)) as [Hin|Hnin].
    + split; [intros _|done].
      destruct (decide (k ∈ uri_keys (ua ++ ub))) as [|Hn]; [done|].
      apply last_with_None in Hn. rewrite <- Hlast in Hn.
      by apply first_with_None in Hn.
    + split; [done|]. intros Hin. exfalso.
      apply first_with_None in Hnin. rewrite Hlast in Hnin.
      by apply last_with_None in Hnin.
  - intros u Hu. apply elem_of_app.
    destruct (uri_key u) as [k|] eqn:Hk.
    + pose proof (first_with_NoDup k merged u Hnd Hu Hk) as Hf.
      rewrite Hlast in Hf. by apply last_with_key in Hf as [_ ?].
    + rewrite Forall_forall in Fm. destruct (Fm u Hu) as [? ?]. congruence.
  - intros k _ Hb'.
    destruct (last_with k ub) as [u|] eqn:Hu.
    + split; [by eexists|]. by rewrite Hlast, last_with_app, Hu.
    + by apply last_with_None in Hu.
Qed.

(** * Equality of Python objects *)

Lemma value_ind' (P : value -> Prop) :
  P VNone -> (forall b, P (VBool b)) -> (forall n, P (VInt n)) ->
  (forall s, P (VStr s)) ->
  (forall l, Forall P l -> P (VList l)) ->
  (forall d, Forall (fun kv => P kv.2) d -> P (VDict d)) ->
  forall v, P v.
Proof.
  intros HN HB HI HS HL HD. fix IH 1. intros [|b|n|s|l|d].
  - exact HN.
  - apply HB.
  - apply HI.
  - apply HS.
  - apply HL. induction l as [|x l IHl]; constructor; [apply IH | exact IHl].
  - apply HD. induction d as [|[k x] d IHd]; constructor; [apply IH | exact IHd].
Qed.

Lemma py_eq_list xs ys : py_eq (VList xs) (VList ys) = all2 py_eq xs ys.
Proof.
  revert ys. induction xs as [|x xs IH]; intros [|y ys]; try reflexivity.
  simpl in *. by rewrite <- IH.
Qed.

Lemma py_eq_dict d e :
  py_eq (VDict d) (VDict e) =
  Nat.eqb (length d) (length e) &&
  forallb (fun kv : string * value =>
             match Dict.get kv.1 e with
             | Some w => py_eq kv.2 w
             | None => false
             end) d.
Proof.
  simpl. f_equal. induction d as [|[k v] d IH]; [reflexivity|].
  simpl. by rewrite <- IH.
Qed.

Lemma dict_get_elem {K A} `{EqDecision K} (k : K) (v : A) d :
  Dict.get k d = Some v -> (k, v) ∈ d.
Proof.
  induction d as [|[k0 v0] d IH]; simpl; [done|].
  case_decide as Hk.
  - intros [= ->]. subst. apply list_elem_of_here.
  - intros. apply list_elem_of_further. auto.
Qed.

Lemma dict_get_NoDup {K A} `{EqDecision K} (k : K) (v : A) d :
  NoDup (Dict.keys d) -> (k, v) ∈ d -> Dict.get k d = Some v.
Proof.
  unfold Dict.keys. induction d as [|[k0 v0] d IH]; simpl; intros Hnd Hin.
  - by apply elem_of_nil in Hin.
  - apply NoDup_cons in Hnd as [Hk0 Hnd].
    apply elem_of_cons in Hin as [[= -> ->]|Hin].
    + by rewrite decide_True.
    + rewrite decide_False; [by apply IH|].
      intros ->. apply Hk0. apply list_elem_of_fmap. by exists (k0, v).
Qed.

Lemma all2_sym_on (xs ys : list value) :
  Forall (fun x => forall y, wf_value x = true -> py_eq x y = true -> py_eq y x = true) xs ->
  forallb wf_value xs = true ->
  all2 py_eq xs ys = true -> all2 py_eq ys xs = true.
Proof.
  intros HF. revert ys. induction HF as [|x xs Hx _ IH]; intros [|y ys]; simpl; try done.
  intros [Hw Hws]%andb_prop [Hxy Hrest]%andb_prop.
  apply andb_true_intro. split; [by apply Hx | by apply IH].
Qed.

Lemma dict_eq_keys (d e : list (string * value)) :
  NoDup (Dict.keys d) -> length d = length e ->
  (forall k, k ∈ Dict.keys d -> k ∈ Dict.keys e) ->
  NoDup (Dict.keys e) /\ (forall k, k ∈ Dict.keys e -> k ∈ Dict.keys d).
Proof.
  intros Hnd Hlen Hsub.
  assert (Dict.keys d ≡ₚ Dict.keys e) as Hperm.
  { apply submseteq_length_Permutation; [by apply NoDup_submseteq|].
    unfold Dict.keys. rewrite !length_map. lia. }
  split.
  - by rewrite <- Hperm.
  - intros k. by rewrite Hperm.
Qed.

(** [==] is symmetric on Python objects. *)
Lemma py_eq_sym a b : wf_value a = true -> py_eq a b = true -> py_eq b a = true.
Proof.
  revert b. induction a as [|x|n|s|xs IH|d IH] using value_ind';
    intros [|y|m|t|ys|e] Hwf; try done.
  - simpl. by destruct x, y.
  - simpl. by rewrite Z.eqb_sym.
  - simpl. by rewrite Z.eqb_sym.
  - simpl. by rewrite Z.eqb_sym.
  - simpl. by rewrite String.eqb_sym.
  - rewrite !py_eq_list. by apply all2_sym_on.
  - rewrite !py_eq_dict.
    simpl in Hwf. apply andb_prop in Hwf as [Hnd Hwf].
    apply bool_decide_eq_true_1 in Hnd.
    intros [Hlen Hsub]%andb_prop. apply Nat.eqb_eq in Hlen.
    rewrite forallb_forall in Hsub, Hwf.
    rewrite Forall_forall in IH.
    assert (forall k, k ∈ Dict.keys d -> k ∈ Dict.keys e) as Hkeys.
    { intros k [[k' v] [-> Hin]]%list_elem_of_fmap.
      apply list_elem_of_In, Hsub in Hin. simpl in *.
      destruct (Dict.get k' e) eqn:E; [|done].
      by eapply dict_get_Some_keys. }
    destruct (dict_eq_keys d e Hnd Hlen Hkeys) as [Hnde Hkeys'].
    apply andb_true_intro. split; [by apply Nat.eqb_eq|].
    apply forallb_forall. intros [k w] Hin%list_elem_of_In. simpl.
    assert (k ∈ Dict.keys d) as Hk.
    { apply Hkeys'. apply list_elem_of_fmap. by exists (k, w). }
    destruct (Dict.get k d) as [v|] eqn:Ev;
      [|by apply dict_get_None_keys in Ev].
    pose proof (dict_get_elem _ _ _ Ev) as Hv.
    pose proof (Hsub _ (proj1 (list_elem_of_In _ _) Hv)) as Hvw. simpl in Hvw.
    rewrite (dict_get_NoDup k w e Hnde Hin) in Hvw.
    apply (IH _ Hv); [|done].
    apply (Hwf _ (proj1 (list_elem_of_In _ _) Hv)).
Qed.

Lemma all2_trans_on (xs ys zs : list value) :
  Forall (fun x => forall y z, py_eq x y = true -> py_eq y z = true ->
                               py_eq x z = true) xs ->
  all2 py_eq xs ys = true -> all2 py_eq ys zs = true -> all2 py_eq xs zs = true.
Proof.
  intros HF. revert ys zs.
  induction HF as [|x xs Hx _ IH]; intros [|y ys] [|z zs]; simpl; try done.
  intros [Hxy Hxs]%andb_prop [Hyz Hys]%andb_prop.
  apply andb_true_intro. split; [by apply (Hx y) | by apply (IH ys)].
Qed.

(** [==] is transitive. *)
Lemma py_eq_trans a b c :
  py_eq a b = true -> py_eq b c = true -> py_eq a c = true.
Proof.
  revert b c. induction a as [|x|n|s|xs IH|d IH] using value_ind';
    intros [|y|m|t|ys|e] [|z|k|u|zs|f]; try done.
  all: try (simpl;
            repeat match goal with
                   | b : bool |- _ => destruct b
                   end; simpl;
            rewrite ?Z.eqb_eq, ?String.eqb_eq; congruence).
  - simpl. intros H1%Z.eqb_eq H2%Z.eqb_eq. destruct x, z; simpl in *; lia.
  - simpl. intros H1%Z.eqb_eq H2%Z.eqb_eq. apply Z.eqb_eq. lia.
  - simpl. intros H1%Z.eqb_eq H2%Z.eqb_eq. apply Z.eqb_eq. lia.
  - rewrite !py_eq_list. by apply all2_trans_on.
  - rewrite !py_eq_dict.
    intros [Hl1 H1]%andb_prop [Hl2 H2]%andb_prop.
    apply Nat.eqb_eq in Hl1, Hl2.
    apply andb_true_intro. split; [apply Nat.eqb_eq; congruence|].
    rewrite forallb_forall in H1, H2 |- *. rewrite Forall_forall in IH.
    intros [k v] Hin. simpl. specialize (H1 _ Hin). simpl in H1.
    destruct (Dict.get k e) as [w|] eqn:Ew; [|done].
    pose proof (H2 _ (proj1 (list_elem_of_In _ _) (dict_get_elem _ _ _ Ew)))
      as Hw. simpl in Hw.
    destruct (Dict.get k f) as [u|]; [|done].
    by apply (IH _ (proj2 (list_elem_of_In _ _) Hin) w u).
Qed.

Lemma wf_getitem v k x :
  wf_value v = true -> py_getitem v k = Ok x -> wf_value x = true.
Proof.
  destruct v as [| | | | |d]; try done. simpl.
  intros [_ Hwf]%andb_prop. rewrite forallb_forall in Hwf.
  destruct (Dict.get k d) as [y|] eqn:E; [|done]. intros [= <-].
  apply dict_get_elem, list_elem_of_In in E. apply (Hwf _ E).
Qed.

Lemma wf_first v x : wf_value v = true -> py_first v = Ok x -> wf_value x = true.
Proof.
  destruct v as [| | |[|c s]|[|y l]|d]; try done; simpl.
  - by intros _ [= <-].
  - intros [Hy _]%andb_prop [= <-]. exact Hy.
Qed.

Lemma login_field_wf v k x :
  wf_value v = true -> login_field v k = Ok x -> wf_value x = true.
Proof.
  intros Hwf. unfold login_field.
  destruct (py_getitem v "login") as [l|] eqn:El; [|done].
  apply wf_getitem. by apply (wf_getitem _ _ _ Hwf El).
Qed.

Lemma first_uri_of_wf v x :
  wf_value v = true -> first_uri_of v = Ok x -> wf_value x = true.
Proof.
  intros Hwf. unfold first_uri_of.
  destruct (login_field v "uris") as [us|] eqn:Eus; [|done].
  destruct (py_first us) as [f|] eqn:Ef; [|done].
  apply wf_getitem. apply (wf_first _ _ (login_field_wf _ _ _ Hwf Eus) Ef).
Qed.

Lemma credentials_wf v u n p :
  wf_value v = true -> credentials v = Some (u, n, p) ->
  wf_value u = true /\ wf_value n = true /\ wf_value p = true.
Proof.
  intros Hwf. unfold credentials.
  destruct (first_uri_of v) as [u'|] eqn:Eu; [|done].
  destruct (login_field v "username") as [n'|] eqn:En; [|done].
  destruct (login_field v "password") as [p'|] eqn:Ep; [|done].
  intros [= <- <- <-]. split_and!.
  - by apply (first_uri_of_wf v).
  - by apply (login_field_wf v "username").
  - by apply (login_field_wf v "password").
Qed.

Lemma same_credentials_sym v w :
  wf_value v = true ->
  same_credentials v w = true -> same_credentials w v = true.
Proof.
  intros Hwf. unfold same_credentials.
  destruct (credentials v) as [[[u n] p]|] eqn:Ev; [|done].
  destruct (credentials w) as [[[u' n'] p']|] eqn:Ew; [|done].
  destruct (credentials_wf _ _ _ _ Hwf Ev) as (Hu & Hn & Hp).
  intros [[H1 H2]%andb_prop H3]%andb_prop.
  rewrite (py_eq_sym _ _ Hu H1), (py_eq_sym _ _ Hn H2), (py_eq_sym _ _ Hp H3).
  reflexivity.
Qed.

Lemma obj_eq_sym st a b :
  wf_value (heap st a) = true -> obj_eq st a b = true -> obj_eq st b a = true.
Proof.
  unfold obj_eq. intros Hwf [Hab|Heq]%orb_prop.
  - apply bool_decide_eq_true_1 in Hab as ->.
    by rewrite bool_decide_eq_true_2.
  - by rewrite (py_eq_sym _ _ Hwf Heq), orb_true_r.
Qed.

(** * Loops that do not touch the state *)

Lemma for_items_quiet {A} (body : addr -> A -> M A) (f : addr -> A -> result A)
    st fuel i acc :
  (forall a x, body a x st = (st, f a x)) ->
  length (items st) <= fuel + i ->
  for_items body fuel i acc st = (st, fold_result f (drop i (items st)) acc).
Proof.
  intros Hbody. revert i acc.
  induction fuel as [|fuel IH]; intros i acc Hlen; simpl.
  - rewrite lookup_ge_None_2 by lia. by rewrite drop_ge by lia.
  - destruct (items st !! i) as [a|] eqn:Ei.
    + rewrite (drop_S _ _ _ Ei). simpl.
      rewrite bind_run, Hbody. destruct (f a acc) as [acc'|e]; [|done].
      apply IH. lia.
    + apply lookup_ge_None in Ei. by rewrite drop_ge by lia.
Qed.

Lemma for_each_item_quiet {A} (body : addr -> A -> M A)
    (f : addr -> A -> result A) st acc :
  (forall a x, body a x st = (st, f a x)) ->
  for_each_item body acc st = (st, fold_result f (items st) acc).
Proof.
  intros Hbody. unfold for_each_item.
  rewrite (for_items_quiet body f) by (done || lia). by rewrite drop_0.
Qed.

(** * Running the duplicate finder *)

Lemma first_uri_run st a : first_uri a st = (st, first_uri_of (heap st a)).
Proof.
  unfold first_uri, first_uri_of. rewrite bind_run, login_get_run.
  fold (login_field (heap st a) "uris").
  destruct (login_field (heap st a) "uris") as [us|]; [|done].
  rewrite bind_run. unfold lift.
  destruct (py_first us); reflexivity.
Qed.

Lemma same_field_run (field : addr -> M value) (f : value -> result value)
    st a b :
  (forall x, field x st = (st, f (heap st x))) ->
  same_field field a b st =
  (st, match f (heap st a), f (heap st b) with
       | Ok x, Ok y => Ok (py_eq x y)
       | Raise e, _ => Raise e
       | _, Raise e => Raise e
       end).
Proof.
  intros Hf. unfold same_field. rewrite bind_run, Hf.
  destruct (f (heap st a)) as [x|]; [|done].
  rewrite bind_run, Hf. destruct (f (heap st b)); reflexivity.
Qed.

Lemma is_duplicate_quiet st a b : is_duplicate a b st = (st, (is_duplicate a b st).2).
Proof.
  pose proof (keeps_is_duplicate eq a b st) as H.
  destruct (is_duplicate a b st) as [st' r]. simpl in *. by subst.
Qed.

Ltac fields_done :=
  simpl;
  repeat match goal with
         | |- context [match login_field ?v ?k with _ => _ end] =>
             destruct (login_field v k)
         end;
  simpl;
  repeat match goal with
         | H : py_eq _ _ = _ |- _ => rewrite H; clear H
         end;
  simpl; rewrite ?andb_false_r;
  first [ naive_solver
        | split; [intros [= ->] | intros [_ ->]]; done ].

(** The finder's test holds of two references exactly when they are not
    [==] and all three fields are there and [==]. *)
Lemma is_duplicate_true st a b :
  (is_duplicate a b st).2 = Ok true <->
  obj_eq st a b = false /\ same_credentials (heap st a) (heap st b) = true.
Proof.
  unfold is_duplicate. rewrite bind_run. cbv beta iota.
  unfold same_credentials, credentials.
  destruct (obj_eq st a b); [simpl; naive_solver|].
  rewrite bind_run, (same_field_run first_uri first_uri_of)
    by apply first_uri_run.
  destruct (first_uri_of (heap st a)) as [u|]; [|simpl; naive_solver].
  destruct (first_uri_of (heap st b)) as [u'|]; [|fields_done].
  destruct (py_eq u u') eqn:Eu; [|fields_done].
  rewrite bind_run,
    (same_field_run (fun x => login_get x "username")
       (fun v => login_field v "username")) by (intros; apply login_get_run).
  destruct (login_field (heap st a) "username") as [n|]; [|fields_done].
  destruct (login_field (heap st b) "username") as [n'|]; [|fields_done].
  destruct (py_eq n n') eqn:En; [|fields_done].
  rewrite (same_field_run (fun x => login_get x "password")
             (fun v => login_field v "password")) by (intros; apply login_get_run).
  fields_done.
Qed.

Lemma finder_run st :
  find_items_with_duplicates st =
  (st, fold_result
         (fun a pairs => fold_result (collect_row st a) (items st) pairs)
         (items st) []).
Proof.
  unfold find_items_with_duplicates.
  apply for_each_item_quiet. intros a pairs.
  apply for_each_item_quiet. intros b pairs'.
  rewrite bind_run, is_duplicate_quiet. unfold collect_row.
  destruct (is_duplicate a b st).2; reflexivity.
Qed.

Lemma collect_row_elem st a l :
  forall acc out,
    fold_result (collect_row st a) l acc = Ok out ->
    forall x, x ∈ out <->
              x ∈ acc \/ exists b, b ∈ l /\ x = (a, b) /\
                                   (is_duplicate a b st).2 = Ok true.
Proof.
  induction l as [|b l IH]; simpl; intros acc out Hout x.
  - injection Hout as <-. split; [auto|]. intros [?|(b & Hb & _)]; [done|].
    by apply elem_of_nil in Hb.
  - unfold collect_row at 1 in Hout.
    destruct (is_duplicate a b st).2 as [c|] eqn:Ec; [|done].
    rewrite (IH _ _ Hout x). destruct c.
    + rewrite elem_of_app, list_elem_of_singleton. split.
      * intros [[?| ->]|(b' & Hb' & -> & Hd)]; [auto| |].
        -- right. exists b. split_and!; [left|done..].
        -- right. exists b'. split_and!; [by right|done..].
      * intros [?|(b' & [-> |Hb']%elem_of_cons & -> & Hd)]; [auto|auto|].
        right. by exists b'.
    + split.
      * intros [?|(b' & Hb' & -> & Hd)]; [auto|].
        right. exists b'. split_and!; [by right|done..].
      * intros [?|(b' & [-> |Hb']%elem_of_cons & -> & Hd)]; [auto|congruence|].
        right. by exists b'.
Qed.

Lemma collect_elem st l1 l2 :
  forall acc out,
    fold_result (fun a pairs => fold_result (collect_row st a) l2 pairs) l1 acc
      = Ok out ->
    forall x, x ∈ out <->
              x ∈ acc \/ exists a b, a ∈ l1 /\ b ∈ l2 /\ x = (a, b) /\
                                     (is_duplicate a b st).2 = Ok true.
Proof.
  induction l1 as [|a l1 IH]; simpl; intros acc out Hout x.
  - injection Hout as <-. split; [auto|]. intros [?|(a & b & Ha & _)]; [done|].
    by apply elem_of_nil in Ha.
  - destruct (fold_result (collect_row st a) l2 acc) as [mid|] eqn:Emid; [|done].
    rewrite (IH _ _ Hout x), (collect_row_elem _ _ _ _ _ Emid x). split.
    + intros [[?|(b & Hb & -> & Hd)]|(a' & b & Ha' & Hb & -> & Hd)]; [auto| |].
      * right. exists a, b. split_and!; [left|done..].
      * right. exists a', b. split_and!; [by right|done..].
    + intros [?|(a' & b & [-> |Ha']%elem_of_cons & Hb & -> & Hd)]; [auto| |].
      * left. right. by exists b.
      * right. by exists a', b.
Qed.

(** What the finder returns, whenever it returns: items that are not [==]
    and have the same credentials are reported in both orders, items that
    are [==] are not reported. *)
Lemma finder_pairs_unequal (st : state) (pairs : list (addr * addr)) :
  find_items_with_duplicates st = (st, Ok pairs) ->
  (forall a, a ∈ items st -> wf_value (heap st a) = true) ->
  forall a b, a ∈ items st -> b ∈ items st ->
    (obj_eq st a b = false ->
     same_credentials (heap st a) (heap st b) = true ->
     (a, b) ∈ pairs /\ (b, a) ∈ pairs) /\
    (obj_eq st a b = true -> (a, b) ∉ pairs).
Proof.
  intros Hrun Hwf a b Ha Hb.
  rewrite finder_run in Hrun. injection Hrun as Hrun.
  pose proof (collect_elem st _ _ _ _ Hrun) as Hin.
  split.
  - intros Hne Hsame. split; apply Hin; right.
    + exists a, b. split_and!; try done. by apply is_duplicate_true.
    + exists b, a. split_and!; try done. apply is_duplicate_true. split.
      * destruct (obj_eq st b a) eqn:E; [|done].
        apply obj_eq_sym in E; [congruence | by apply Hwf].
      * apply same_credentials_sym; [by apply Hwf | done].
  - intros Heq [Hnil|(a' & b' & _ & _ & [= <- <-] & Hd)]%Hin.
    + by apply elem_of_nil in Hnil.
    + apply is_duplicate_true in Hd as [Hne _]. congruence.
Qed.

(** * The URI filter *)

Lemma py_truthy_eq x y : py_eq x y = true -> py_truthy x = py_truthy y.
Proof.
  destruct x as [|b|n|s|xs|d], y as [|c|m|t|ys|e]; try done.
  - simpl. by destruct b, c.
  - simpl. intros H%Z.eqb_eq. subst m. by destruct b.
  - simpl. intros H%Z.eqb_eq. subst n. by destruct c.
  - simpl. by intros ->%Z.eqb_eq.
  - simpl. by intros ->%String.eqb_eq.
  - rewrite py_eq_list. destruct xs, ys; try done.
  - rewrite py_eq_dict. intros [Hlen _]%andb_prop.
    apply Nat.eqb_eq in Hlen. simpl. by rewrite Hlen.
Qed.

Lemma py_eq_dict_get d e k v :
  py_eq (VDict d) (VDict e) = true -> Dict.get k d = Some v ->
  exists w, Dict.get k e = Some w /\ py_eq v w = true.
Proof.
  rewrite py_eq_dict. intros [_ Hsub]%andb_prop Hk.
  rewrite forallb_forall in Hsub.
  apply dict_get_elem, list_elem_of_In, Hsub in Hk. simpl in Hk.
  destruct (Dict.get k e) as [w|]; [by exists w | done].
Qed.

Lemma py_eq_getitem x y k v :
  py_eq x y = true -> py_getitem x k = Ok v ->
  exists w, py_getitem y k = Ok w /\ py_eq v w = true.
Proof.
  destruct x as [| | | | |d]; try done.
  destruct y as [| | | | |e]; try done. simpl. intros Heq.
  destruct (Dict.get k d) as [v'|] eqn:Ev; [|done]. intros [= <-].
  destruct (py_eq_dict_get _ _ _ _ Heq Ev) as (w & -> & Hw). by exists w.
Qed.

Lemma valid_uri_eq u u' : py_eq u u' = true -> valid_uri u = true -> valid_uri u' = true.
Proof.
  unfold valid_uri.
  destruct u as [| | | | |d]; try done.
  destruct u' as [| | | | |e]; try done. simpl. intros Heq.
  destruct (Dict.get "uri" d) as [x|] eqn:Ex; [|done]. simpl.
  destruct (py_eq_dict_get _ _ _ _ Heq Ex) as (w & -> & Hw). simpl.
  by rewrite (py_truthy_eq _ _ Hw).
Qed.

Lemma all2_valid_uri us us' :
  all2 py_eq us us' = true -> forallb valid_uri us = true ->
  forallb valid_uri us' = true.
Proof.
  revert us'. induction us as [|u us IH]; intros [|u' us']; simpl; try done.
  intros [Hu Hus]%andb_prop [Hv Hvs]%andb_prop.
  by rewrite (valid_uri_eq _ _ Hu Hv), (IH _ Hus Hvs).
Qed.

Lemma all2_length {A B} (f : A -> B -> bool) xs ys :
  all2 f xs ys = true -> length xs = length ys.
Proof.
  revert ys. induction xs as [|x xs IH]; intros [|y ys]; simpl; try done.
  intros [_ H]%andb_prop. by rewrite (IH _ H).
Qed.

(** Items that are [==] are kept or dropped together. *)
Lemma has_valid_uris_eq x y :
  py_eq x y = true -> has_valid_uris x = true -> has_valid_uris y = true.
Proof.
  intros Heq. unfold has_valid_uris, login_field.
  destruct (py_getitem x "login") as [l|] eqn:El; [|done].
  destruct (py_eq_getitem _ _ _ _ Heq El) as (l' & -> & Hl).
  destruct (py_getitem l "uris") as [us|] eqn:Eus; [|done].
  destruct (py_eq_getitem _ _ _ _ Hl Eus) as (us' & -> & Hus).
  destruct us as [| | | |us|]; try done.
  destruct us' as [| | | |us'|]; try done.
  rewrite py_eq_list in Hus.
  intros [Hne Hall]%andb_prop. apply andb_true_intro. split.
  - simpl in *. by rewrite <- (all2_length _ _ _ Hus).
  - by apply (all2_valid_uri us).
Qed.

Lemma keep_valid_uris_spec l r :
  keep_valid_uris l = Ok r ->
  forallb valid_uri r = true /\ (forall u, u ∈ r -> u ∈ l).
Proof.
  revert r. induction l as [|u l IH]; simpl; intros r.
  - intros [= <-]. split; [done|]. by intros u Hu.
  - destruct (py_get u "uri") as [x|] eqn:Ex; [|done].
    destruct (keep_valid_uris l) as [r'|]; [|done].
    destruct (IH r' eq_refl) as [Hall Hsub].
    intros [= <-]. destruct (py_truthy x) eqn:Et.
    + split.
      * simpl. unfold valid_uri at 1. by rewrite Ex, Et.
      * intros w [->|Hw]%elem_of_cons; [left | right; auto].
    + split; [done|]. intros w Hw. right. auto.
Qed.

Lemma keep_valid_uris_id l : forallb valid_uri l = true -> keep_valid_uris l = Ok l.
Proof.
  induction l as [|u l IH]; simpl; [done|].
  intros [Hu Hl]%andb_prop. unfold valid_uri in Hu.
  destruct (py_get u "uri") as [x|]; [|done]. by rewrite (IH Hl), Hu.
Qed.

Lemma keep_valid_uris_not_list src elems r :
  py_truthy src = true -> py_iter src = Ok elems ->
  keep_valid_uris elems = Ok r -> src = VList elems.
Proof.
  destruct src as [| | |s|l|d]; try done; simpl.
  - destruct s as [|c s]; [done|]. intros _ [= <-]. done.
  - by intros _ [= <-].
  - destruct d as [|[k v] d]; [done|]. intros _ [= <-]. done.
Qed.

Lemma has_uris_run st a : has_uris a st = (st, has_uris_of (heap st a)).
Proof.
  unfold has_uris, has_uris_of.
  rewrite bind_run, item_contains_run.
  destruct (py_contains "login" (heap st a)) as [[|]|]; try reflexivity.
  rewrite bind_run, login_contains_run.
  destruct (py_getitem (heap st a) "login") as [l|] eqn:El; [|done].
  destruct (py_contains "uris" l) as [[|]|]; try reflexivity.
  rewrite fmap_run, login_get_run, El.
  destruct (py_getitem l "uris"); reflexivity.
Qed.

Lemma has_uris_true v :
  has_uris_of v = Ok true ->
  exists d l src,
    v = VDict d /\ Dict.get "login" d = Some (VDict l) /\
    Dict.get "uris" l = Some src /\ py_truthy src = true.
Proof.
  unfold has_uris_of.
  destruct (py_contains "login" v) as [[|]|]; try done.
  destruct v as [| | | | |d]; try done. simpl.
  destruct (Dict.get "login" d) as [lv|] eqn:El; [|done].
  destruct (py_contains "uris" lv) as [[|]|]; try done.
  destruct lv as [| | | | |l]; try done. simpl.
  destruct (Dict.get "uris" l) as [src|] eqn:Es; [|done].
  intros [= Ht]. by exists d, l, src.
Qed.

Lemma has_uris_false_invalid v : has_uris_of v = Ok false -> has_valid_uris v = false.
Proof.
  unfold has_uris_of, has_valid_uris, login_field.
  destruct v as [| | | | |d]; try done. simpl.
  unfold Dict.mem.
  destruct (Dict.get "login" d) as [lv|]; [|done].
  destruct lv as [| | | | |l]; try done. simpl. unfold Dict.mem.
  destruct (Dict.get "uris" l) as [src|]; [|done].
  intros [= Ht]. destruct src; try done. simpl in *. by rewrite Ht.
Qed.

Lemma login_field_set_uris d l x :
  login_field (VDict (Dict.set "login" (VDict (Dict.set "uris" x l)) d)) "uris"
  = Ok x.
Proof.
  unfold login_field. simpl. rewrite dict_get_set. simpl.
  by rewrite dict_get_set.
Qed.

Lemma has_uris_of_set_uris d l x :
  has_uris_of (VDict (Dict.set "login" (VDict (Dict.set "uris" x l)) d))
  = Ok (py_truthy x).
Proof.
  unfold has_uris_of. simpl. unfold Dict.mem. rewrite dict_get_set. simpl.
  unfold Dict.mem. by rewrite dict_get_set.
Qed.

(** One step of the scan, when it does not raise. *)
Lemma uriless_scan_ok a acc st st' acc' :
  uriless_scan a acc st = (st', Ok acc') ->
  items st' = items st /\
  (forall b, b <> a -> heap st' b = heap st b) /\
  acc' = (if has_valid_uris (heap st' a) then acc else acc ++ [a]) /\
  settled (heap st' a) /\
  (settled (heap st a) ->
   has_valid_uris (heap st' a) = has_valid_uris (heap st a)) /\
  narrowed (heap st a) (heap st' a).
Proof.
  unfold uriless_scan. rewrite bind_run, has_uris_run.
  destruct (has_uris_of (heap st a)) as [[|]|] eqn:Eh; [| |done].
  - destruct (has_uris_true _ Eh) as (d & l & src & Ev & Hl & Hsrc & Ht).
    rewrite bind_run, (login_get_ok _ _ _ _ _ _ Ev Hl Hsrc).
    rewrite bind_run. unfold lift at 1.
    destruct (py_iter src) as [elems|] eqn:Ei; [|done].
    rewrite bind_run. unfold lift at 1.
    destruct (keep_valid_uris elems) as [uris|] eqn:Ek; [|done].
    rewrite bind_run, (set_login_uris_ok _ _ _ _ _ Ev Hl), ret_run.
    intros [= <- <-]. simpl.
    pose proof (keep_valid_uris_not_list _ _ _ Ht Ei Ek) as ->.
    destruct (keep_valid_uris_spec _ _ Ek) as [Hall Hsub].
    rewrite fn_lookup_insert.
    assert (has_valid_uris
              (VDict (Dict.set "login" (VDict (Dict.set "uris" (VList uris) l)) d))
            = py_truthy (VList uris)) as Hvalid.
    { unfold has_valid_uris. rewrite login_field_set_uris, Hall.
      apply andb_true_r. }
    split_and!.
    + reflexivity.
    + intros b Hb. by rewrite fn_lookup_insert_ne.
    + by rewrite Hvalid.
    + unfold settled. rewrite Hvalid, has_uris_of_set_uris.
      destruct (py_truthy (VList uris)); auto.
    + intros [Hv|Hf]; [|congruence]. rewrite Hvalid, Hv.
      rewrite Ev in Hv. unfold has_valid_uris, login_field in Hv.
      simpl in Hv. rewrite Hl in Hv. simpl in Hv. rewrite Hsrc in Hv.
      apply andb_prop in Hv as [Hne Hv].
      rewrite (keep_valid_uris_id _ Hv) in Ek. injection Ek as <-. exact Hne.
    + right. exists d, l, elems, uris. by rewrite Ev.
  - rewrite ret_run. intros [= <- <-].
    rewrite (has_uris_false_invalid _ Eh). split_and!; try done.
    + by right.
    + by left.
Qed.

Lemma typed_uris_narrowed v v' :
  narrowed v v' -> typed_uris v = true -> typed_uris v' = true.
Proof.
  intros [->|(d & l & us & us' & -> & Hl & Hus & Hsub & ->)]; [done|].
  unfold typed_uris. rewrite login_field_set_uris.
  unfold login_field. simpl. rewrite Hl. simpl. rewrite Hus.
  rewrite !forallb_forall. intros Hty u Hu%list_elem_of_In.
  apply Hty, list_elem_of_In, Hsub, Hu.
Qed.

(** A property of item contents that narrowing keeps holds of every item
    after the scan when it held of every item before. *)
Lemma uriless_scan_loop_keeps (P : value -> Prop) fuel :
  (forall v v', narrowed v v' -> P v -> P v') ->
  forall i acc st st' rem,
    for_items uriless_scan fuel i acc st = (st', Ok rem) ->
    (forall b, b ∈ items st -> P (heap st b)) ->
    forall b, b ∈ items st' -> P (heap st' b).
Proof.
  intros HP. induction fuel as [|fuel IH]; intros i acc st st' rem; simpl.
  - destruct (items st !! i) as [a|] eqn:Ei; [done|]. by intros [= <- <-].
  - destruct (items st !! i) as [a|] eqn:Ei; [|by intros [= <- <-]].
    rewrite bind_run.
    destruct (uriless_scan a acc st) as [st1 [acc1|e]] eqn:Es; [|done].
    apply uriless_scan_ok in Es as (Hitems & Hother & _ & _ & _ & Hnarrow).
    intros Hrun Hall. apply (IH _ _ _ _ _ Hrun).
    rewrite Hitems. intros b Hb. destruct (decide (b = a)) as [->|Hne].
    + by apply (HP _ _ Hnarrow), Hall.
    + rewrite Hother by done. by apply Hall.
Qed.

(** The scan visits every item once, leaves the item list as it is, and
    collects exactly the items that are not kept. *)
Lemma uriless_scan_loop fuel :
  forall i acc st st' rem,
    for_items uriless_scan fuel i acc st = (st', Ok rem) ->
    acc = List.filter (fun a => negb (has_valid_uris (heap st a)))
                      (take i (items st)) ->
    (forall b, b ∈ take i (items st) -> settled (heap st b)) ->
    items st' = items st /\
    rem = List.filter (fun a => negb (has_valid_uris (heap st' a))) (items st').
Proof.
  induction fuel as [|fuel IH]; intros i acc st st' rem; simpl.
  - destruct (items st !! i) as [a|] eqn:Ei; [done|].
    intros [= <- <-] Hacc _. apply lookup_ge_None in Ei.
    by rewrite take_ge in Hacc by lia.
  - destruct (items st !! i) as [a|] eqn:Ei.
    2:{ intros [= <- <-] Hacc _. apply lookup_ge_None in Ei.
        by rewrite take_ge in Hacc by lia. }
    rewrite bind_run.
    destruct (uriless_scan a acc st) as [st1 [acc1|e]] eqn:Es; [|done].
    apply uriless_scan_ok in Es
      as (Hitems & Hother & Hacc1 & Hset & Hstable & _).
    intros Hrun Hacc Hvisited.
    destruct (IH (S i) acc1 st1 st' rem Hrun) as (Hi & Hrem).
    + rewrite Hitems, (take_S_r _ _ _ Ei), List.filter_app. simpl.
      rewrite Hacc1, Hacc.
      rewrite (List.filter_ext_in
                 (fun b => negb (has_valid_uris (heap st1 b)))
                 (fun b => negb (has_valid_uris (heap st b)))).
      * destruct (has_valid_uris (heap st1 a)); simpl;
          [by rewrite app_nil_r | done].
      * intros b Hb%list_elem_of_In. destruct (decide (b = a)) as [->|Hne].
        -- by rewrite Hstable by auto.
        -- by rewrite Hother.
    + rewrite Hitems, (take_S_r _ _ _ Ei).
      intros b [Hb| ->%list_elem_of_singleton]%elem_of_app; [|done].
      destruct (decide (b = a)) as [->|Hne]; [done|].
      rewrite Hother by done. auto.
    + split; [congruence | done].
Qed.

Lemma remove_first_filter (same P : addr -> bool) l l' :
  remove_first same l = Some l' ->
  (forall x, same x = true -> P x = true) ->
  length (List.filter P l) = S (length (List.filter P l')) /\
  (forall x, x ∈ l' -> x ∈ l).
Proof.
  intros Hrm HP. revert l' Hrm. induction l as [|x l IH]; intros l'; simpl; [done|].
  destruct (same x) eqn:Ex.
  - intros [= <-]. rewrite (HP _ Ex). split; [done|]. intros y Hy. by right.
  - destruct (remove_first same l) as [l0|]; [|done]. simpl. intros [= <-].
    destruct (IH l0 eq_refl) as [Hlen Hsub]. split.
    + simpl. destruct (P x); simpl; by rewrite Hlen.
    + intros y [->|Hy]%elem_of_cons; [left | right; auto].
Qed.

(** The removals: each one takes an item that is not kept out of the
    list, so when they are all done only kept items are left. *)
Lemma uriless_drop_loop rem :
  forall st st',
    for_each uriless_drop rem st = (st', Ok tt) ->
    length (List.filter (fun a => negb (has_valid_uris (heap st a))) (items st))
      = length rem ->
    Forall (fun a => has_valid_uris (heap st a) = false) rem ->
    heap st' = heap st /\
    (forall x, x ∈ items st' -> x ∈ items st) /\
    List.filter (fun a => negb (has_valid_uris (heap st' a))) (items st') = [].
Proof.
  induction rem as [|a rem IH]; intros st st'; simpl.
  - intros [= <-] Hlen _. split_and!; [done | done |].
    by apply length_zero_iff_nil.
  - rewrite bind_run. unfold uriless_drop at 1.
    rewrite bind_run, item_get_run.
    destruct (py_getitem (heap st a) "name") as [name|]; [|done].
    rewrite bind_run. unfold say.
    destruct (renders (RemovingNoUri name)) eqn:Hsay; [|done].
    unfold items_remove. simpl.
    destruct (remove_first _ (items st)) as [l'|] eqn:Erm; [|done].
    intros Hrun Hlen Hinv.
    apply Forall_cons in Hinv as [Ha Hrem].
    destruct (remove_first_filter _
                (fun x => negb (has_valid_uris (heap st x))) _ _ Erm)
      as [Hlen' Hsub].
    { intros x [Hx|Hx]%orb_prop.
      - apply bool_decide_eq_true_1 in Hx as ->. by rewrite Ha.
      - simpl in Hx. destruct (has_valid_uris (heap st x)) eqn:Ev; [|done].
        by rewrite (has_valid_uris_eq _ _ Hx Ev) in Ha. }
    destruct (IH _ _ Hrun) as (Hheap & Hsub' & Hnone).
    + simpl. lia.
    + exact Hrem.
    + simpl in *. split_and!; [done | auto | done].
Qed.

Lemma valid_shape v :
  has_valid_uris v = true ->
  exists d l us,
    v = VDict d /\ Dict.get "login" d = Some (VDict l) /\
    Dict.get "uris" l = Some (VList us) /\ us <> [] /\
    forall u, u ∈ us ->
      exists ud x,
        u = VDict ud /\ Dict.get "uri" ud = Some x /\ py_truthy x = true /\
        (typed_uris v = true -> exists s, x = VStr s /\ s <> "").
Proof.
  unfold has_valid_uris, typed_uris, login_field.
  destruct v as [| | | | |d]; try done. simpl.
  destruct (Dict.get "login" d) as [[| | | | |l]|] eqn:El; try done. simpl.
  destruct (Dict.get "uris" l) as [[| | | |us|]|] eqn:Eus; try done.
  intros [Hne Hall]%andb_prop. exists d, l, us. split_and!; try done.
  - intros ->. done.
  - rewrite forallb_forall in Hall.
    intros u Hu%list_elem_of_In. specialize (Hall u Hu).
    unfold valid_uri in Hall.
    destruct u as [| | | | |ud]; try done. simpl in *.
    destruct (Dict.get "uri" ud) as [x|] eqn:Eu; [|done].
    exists ud, x. split_and!; try done.
    intros Hty. rewrite forallb_forall in Hty. specialize (Hty _ Hu).
    unfold uri_is_string in Hty. simpl in Hty. rewrite Eu in Hty. simpl in *.
    destruct x as [| | |s| |]; try done. exists s. split; [done|].
    intros ->. done.
Qed.

(** What the URI filter leaves, whenever it returns. *)
Lemma uriless_survivors_valid (st st' : state) :
  remove_uriless_item st = (st', Ok tt) ->
  forall a, a ∈ items st' ->
    exists d l us,
      heap st' a = VDict d /\ Dict.get "login" d = Some (VDict l) /\
      Dict.get "uris" l = Some (VList us) /\ us <> [] /\
      forall u, u ∈ us ->
        exists ud x,
          u = VDict ud /\ Dict.get "uri" ud = Some x /\ py_truthy x = true /\
          (uris_typed st -> exists s, x = VStr s /\ s <> "").
Proof.
  unfold remove_uriless_item. rewrite bind_run. unfold for_each_item at 1.
  destruct (for_items uriless_scan (length (items st)) 0 [] st)
    as [st1 [rem|e]] eqn:Escan; [|done].
  intros Hdrop a Ha.
  destruct (uriless_scan_loop _ _ _ _ _ _ Escan) as (Hitems & Hrem).
  { by rewrite take_0. }
  { rewrite take_0. intros b Hb. by apply elem_of_nil in Hb. }
  destruct (uriless_drop_loop rem st1 st' Hdrop) as (Hheap & Hsub & Hnone).
  { by rewrite Hrem. }
  { rewrite Hrem. apply Forall_forall. intros b Hb%list_elem_of_In.
    apply List.filter_In in Hb as [_ Hb]. by apply negb_true_iff. }
  assert (has_valid_uris (heap st' a) = true) as Hvalid.
  { destruct (has_valid_uris (heap st' a)) eqn:Ev; [done|].
    assert (In a (List.filter
                    (fun a => negb (has_valid_uris (heap st' a))) (items st')))
      as Hin.
    { apply List.filter_In. split; [by apply list_elem_of_In | by rewrite Ev]. }
    by rewrite Hnone in Hin. }
  destruct (valid_shape _ Hvalid) as (d & l & us & Hd & Hl & Hus & Hne & Hall).
  exists d, l, us. split_and!; try done.
  intros u Hu. destruct (Hall u Hu) as (ud & x & -> & Hx & Ht & Hstr).
  exists ud, x. split_and!; try done.
  intros Hty. apply Hstr. rewrite Hheap.
  apply (uriless_scan_loop_keeps (fun v => typed_uris v = true) _
           typed_uris_narrowed _ _ _ _ _ Escan Hty).
  apply Hsub, Ha.
Qed.

(** * The iteration bound is never reached *)

#[global] Instance shrinks_preorder : PreOrder shrinks.
Proof.
  split.
  - intros st. unfold shrinks. lia.
  - intros s1 s2 s3. unfold shrinks. lia.
Qed.

Lemma remove_first_length same l l' :
  remove_first same l = Some l' -> length l = S (length l').
Proof.
  revert l'. induction l as [|x l IH]; intros l'; simpl; [done|].
  destruct (same x); [by intros [= <-]|].
  destruct (remove_first same l) as [l0|]; [|done]. simpl. intros [= <-].
  simpl. by rewrite (IH l0).
Qed.

Lemma shrinks_items_remove a : keeps shrinks (items_remove a).
Proof.
  intros st. unfold shrinks, items_remove.
  destruct (remove_first _ (items st)) as [l'|] eqn:E; simpl; [|lia].
  apply remove_first_length in E. lia.
Qed.

Lemma shrinks_say e : keeps shrinks (say e).
Proof. intros st. unfold shrinks, say. destruct (renders e); simpl; lia. Qed.

Lemma shrinks_store a v : keeps shrinks (store a v).
Proof. intros st. unfold shrinks. simpl. lia. Qed.

Section WithinFuel.
Context {A B : Type}.

Lemma within_fuel_ret (x : A) : within_fuel (mret x).
Proof. intros st. done. Qed.

Lemma within_fuel_lift (r : result A) : python_result r -> within_fuel (lift r).
Proof. intros Hr st. exact Hr. Qed.

Lemma within_fuel_bind (c : M A) (f : A -> M B) :
  within_fuel c -> (forall x, within_fuel (f x)) -> within_fuel (c ≫= f).
Proof.
  intros Hc Hf st. rewrite bind_run. specialize (Hc st).
  destruct (c st) as [st' [x|e]]; [apply Hf|].
  unfold python_result in *. simpl in *. congruence.
Qed.

Lemma within_fuel_fmap (g : A -> B) (c : M A) :
  within_fuel c -> within_fuel (g <$> c).
Proof.
  intros Hc st. rewrite fmap_run. specialize (Hc st).
  destruct (c st) as [st' [x|e]]; [done|].
  unfold python_result in *. simpl in *. congruence.
Qed.

Lemma within_fuel_if (b : bool) (c d : M A) :
  within_fuel c -> within_fuel d -> within_fuel (if b then c else d).
Proof. by destruct b. Qed.

(** A loop over the item list whose body cannot lengthen the list ends
    within [length items] steps. *)
Lemma for_items_fuel (body : addr -> A -> M A) fuel i acc st :
  (forall a x, keeps shrinks (body a x)) ->
  (forall a x, within_fuel (body a x)) ->
  length (items st) <= fuel + i ->
  python_result (for_items body fuel i acc st).2.
Proof.
  intros Hs Hb. revert i acc st.
  induction fuel as [|fuel IH]; intros i acc st Hlen; simpl.
  - by rewrite lookup_ge_None_2 by lia.
  - destruct (items st !! i) as [a|]; [|done].
    rewrite bind_run. pose proof (Hs a acc st) as Hsh. pose proof (Hb a acc st) as Hok.
    destruct (body a acc st) as [st' [x|e]]; simpl in *; [|exact Hok].
    apply IH. unfold shrinks in Hsh. lia.
Qed.

Lemma within_fuel_for_each_item (body : addr -> A -> M A) acc :
  (forall a x, keeps shrinks (body a x)) ->
  (forall a x, within_fuel (body a x)) ->
  within_fuel (for_each_item body acc).
Proof. intros Hs Hb st. apply for_items_fuel; [done | done | lia]. Qed.
End WithinFuel.

Lemma within_fuel_for_each {X} (body : X -> M unit) l :
  (forall x, within_fuel (body x)) -> within_fuel (for_each body l).
Proof.
  intros Hb. induction l as [|x l IH]; simpl.
  - apply within_fuel_ret.
  - apply within_fuel_bind; [apply Hb | intros _; apply IH].
Qed.

Ltac python_result_cases :=
  unfold python_result; simpl; repeat case_match; congruence.

Lemma py_contains_python k v : python_result (py_contains k v).
Proof. destruct v; python_result_cases. Qed.

Lemma py_getitem_python v k : python_result (py_getitem v k).
Proof. destruct v; python_result_cases. Qed.

Lemma py_first_python v : python_result (py_first v).
Proof. destruct v; python_result_cases. Qed.

Lemma py_iter_python v : python_result (py_iter v).
Proof. destruct v; python_result_cases. Qed.

Lemma py_setitem_python d k v : python_result (py_setitem d k v).
Proof. destruct d; python_result_cases. Qed.

Lemma py_get_python v k : python_result (py_get v k).
Proof. destruct v; python_result_cases. Qed.

Lemma keep_valid_uris_python l : python_result (keep_valid_uris l).
Proof.
  induction l as [|u l IH]; simpl; [done|].
  pose proof (py_get_python u "uri") as Hu.
  destruct (py_get u "uri");
    [|unfold python_result in *; congruence].
  destruct (keep_valid_uris l); [done | exact IH].
Qed.

Lemma within_fuel_load a : within_fuel (load a).
Proof. intros st. done. Qed.

Lemma within_fuel_say e : within_fuel (say e).
Proof. intros st. unfold say. by destruct (renders e). Qed.

Lemma within_fuel_store a v : within_fuel (store a v).
Proof. intros st. done. Qed.

Lemma within_fuel_items_remove a : within_fuel (items_remove a).
Proof.
  intros st. unfold items_remove.
  destruct (remove_first _ (items st)); done.
Qed.

(** One step of a proof that a computation stays within the bound. *)
Ltac within_fuel_step :=
  first
    [ apply within_fuel_ret
    | apply within_fuel_load
    | apply within_fuel_say
    | apply within_fuel_store
    | apply within_fuel_items_remove
    | apply within_fuel_lift;
      first [ apply py_contains_python | apply py_getitem_python
            | apply py_first_python | apply py_iter_python
            | apply py_setitem_python | apply keep_valid_uris_python ]
    | apply within_fuel_if
    | apply within_fuel_fmap
    | apply within_fuel_bind; [|intros ?] ].

Lemma within_fuel_item_get a k : within_fuel (item_get a k).
Proof. unfold item_get. repeat within_fuel_step. Qed.

Lemma within_fuel_login_get a k : within_fuel (login_get a k).
Proof.
  unfold login_get.
  apply within_fuel_bind; [apply within_fuel_item_get | intros ?].
  within_fuel_step.
Qed.

Lemma within_fuel_item_contains k a : within_fuel (item_contains k a).
Proof. unfold item_contains. repeat within_fuel_step. Qed.

Lemma within_fuel_login_contains k a : within_fuel (login_contains k a).
Proof.
  unfold login_contains.
  apply within_fuel_bind; [apply within_fuel_item_get | intros ?].
  within_fuel_step.
Qed.

Ltac within_fuel_auto :=
  repeat first
    [ apply within_fuel_item_get
    | apply within_fuel_login_get
    | apply within_fuel_item_contains
    | apply within_fuel_login_contains
    | within_fuel_step ].

Ltac shrinks_auto :=
  repeat keeps_step shrinks
    ltac:(first [ apply shrinks_say | apply shrinks_store
                | apply shrinks_items_remove ]).

(** The [for] loops of the three filters and of the finder end within their
    iteration bound: a result [Raise OutOfFuel] never comes out of them. *)
Lemma remove_userless_item_within_fuel : within_fuel remove_userless_item.
Proof.
  apply within_fuel_for_each_item; intros a [].
  - unfold userless. shrinks_auto.
  - unfold userless. within_fuel_auto.
Qed.

Lemma remove_passwordless_item_within_fuel : within_fuel remove_passwordless_item.
Proof.
  apply within_fuel_for_each_item; intros a [].
  - unfold passwordless. shrinks_auto.
  - unfold passwordless. within_fuel_auto.
Qed.

Lemma remove_uriless_item_within_fuel : within_fuel remove_uriless_item.
Proof.
  unfold remove_uriless_item. apply within_fuel_bind.
  - apply within_fuel_for_each_item; intros a acc.
    + unfold uriless_scan, has_uris, set_login_uris. shrinks_auto.
    + unfold uriless_scan, has_uris, set_login_uris. within_fuel_auto.
  - intros rem. apply within_fuel_for_each. intros a.
    unfold uriless_drop. within_fuel_auto.
Qed.

Lemma within_fuel_is_duplicate a b : within_fuel (is_duplicate a b).
Proof.
  unfold is_duplicate, same_field, first_uri.
  apply within_fuel_bind; [intros st; done | intros st].
  within_fuel_auto.
Qed.

Lemma find_items_with_duplicates_within_fuel :
  within_fuel find_items_with_duplicates.
Proof.
  apply within_fuel_for_each_item; intros a pairs.
  - apply (keeps_for_each_item shrinks). intros b pairs'.
    apply (keeps_bind shrinks); [apply (keeps_is_duplicate shrinks)|].
    intros c. apply (keeps_ret shrinks).
  - apply within_fuel_for_each_item; intros b pairs'.
    + apply (keeps_bind shrinks); [apply (keeps_is_duplicate shrinks)|].
      intros c. apply (keeps_ret shrinks).
    + apply within_fuel_bind; [apply within_fuel_is_duplicate | intros c].
      apply within_fuel_ret.
Qed.

Lemma filter_stage_within_fuel : within_fuel filter_stage.
Proof.
  unfold filter_stage.
  apply within_fuel_bind; [apply remove_userless_item_within_fuel | intros _].
  apply within_fuel_bind; [apply remove_passwordless_item_within_fuel | intros _].
  apply remove_uriless_item_within_fuel.
Qed.

(** * The URI filter returns on documents of the data model *)

Lemma dict_set_forallb {K A} `{EqDecision K} (f : A -> bool) (k : K) v d :
  forallb (fun kv : K * A => f kv.2) d = true -> f v = true ->
  forallb (fun kv : K * A => f kv.2) (Dict.set k v d) = true.
Proof.
  intros Hd Hv. induction d as [|[k0 v0] d IH]; simpl in *.
  - by rewrite Hv.
  - apply andb_prop in Hd as [H0 Hd]. case_decide; simpl.
    + by rewrite Hv, Hd.
    + by rewrite H0, IH.
Qed.

Lemma wf_dict_set k v d :
  wf_value (VDict d) = true -> wf_value v = true ->
  wf_value (VDict (Dict.set k v d)) = true.
Proof.
  simpl. intros [Hnd Hd]%andb_prop Hv. apply andb_true_intro. split.
  - apply bool_decide_eq_true_2, dict_set_NoDup.
    by apply bool_decide_eq_true_1 in Hnd.
  - by apply (dict_set_forallb wf_value).
Qed.

Lemma forallb_sub {A} (f : A -> bool) (l l' : list A) :
  (forall x, x ∈ l' -> x ∈ l) -> forallb f l = true -> forallb f l' = true.
Proof.
  rewrite !forallb_forall. intros Hsub Hl x Hx%list_elem_of_In.
  apply Hl, list_elem_of_In, Hsub, Hx.
Qed.

Lemma vault_item_narrowed v v' :
  narrowed v v' -> vault_item v = true -> vault_item v' = true.
Proof.
  intros [->|(d & l & us & us' & -> & Hl & Hus & Hsub & ->)]; [done|].
  unfold vault_item. intros [Hwf Hshape]%andb_prop.
  rewrite Hl, Hus in Hshape. apply andb_prop in Hshape as [Hname Hdicts].
  pose proof (wf_getitem (VDict d) "login" (VDict l) Hwf) as Hwl.
  simpl in Hwl. rewrite Hl in Hwl. specialize (Hwl eq_refl).
  pose proof (wf_getitem (VDict l) "uris" (VList us) Hwl) as Hwu.
  simpl in Hwu. rewrite Hus in Hwu. specialize (Hwu eq_refl).
  apply andb_true_intro. split.
  - apply wf_dict_set; [done|]. apply wf_dict_set; [done|].
    simpl. by apply (forallb_sub _ us).
  - unfold Dict.mem in *. rewrite !dict_get_set. simpl.
    rewrite dict_get_set. simpl. rewrite Hname. simpl.
    by apply (forallb_sub _ us).
Qed.

Lemma keep_valid_uris_dicts l :
  forallb is_dict l = true -> exists r, keep_valid_uris l = Ok r.
Proof.
  induction l as [|u l IH]; simpl; [by eexists|].
  intros [Hu Hl]%andb_prop. destruct (IH Hl) as [r ->].
  destruct u; try done. simpl. by eexists.
Qed.

Lemma uriless_scan_returns a acc st :
  vault_item (heap st a) = true ->
  exists st' acc', uriless_scan a acc st = (st', Ok acc').
Proof.
  unfold vault_item. intros [_ Hshape]%andb_prop.
  destruct (heap st a) as [| | | | |d] eqn:Ev; try done.
  apply andb_prop in Hshape as [_ Hlogin].
  unfold uriless_scan. rewrite bind_run, has_uris_run, Ev.
  unfold has_uris_of. simpl. unfold Dict.mem.
  destruct (Dict.get "login" d) as [lv|] eqn:El.
  2:{ rewrite ret_run. by eexists _, _. }
  destruct lv as [| | | | |l]; try done. simpl. unfold Dict.mem.
  destruct (Dict.get "uris" l) as [src|] eqn:Es.
  2:{ rewrite ret_run. by eexists _, _. }
  destruct (py_truthy src) eqn:Et.
  2:{ rewrite ret_run. by eexists _, _. }
  destruct src as [| | | |us|]; try done.
  rewrite bind_run, (login_get_ok _ _ _ _ _ _ Ev El Es).
  rewrite bind_run. unfold lift at 1. simpl py_iter. cbv beta iota.
  destruct (keep_valid_uris_dicts us Hlogin) as [r Hr].
  rewrite bind_run. unfold lift at 1. rewrite Hr.
  rewrite bind_run, (set_login_uris_ok _ _ _ _ _ Ev El), ret_run.
  by eexists _, _.
Qed.

Lemma uriless_scan_loop_returns fuel :
  forall i acc st,
    vault_document st ->
    length (items st) <= fuel + i ->
    exists st' rem, for_items uriless_scan fuel i acc st = (st', Ok rem).
Proof.
  induction fuel as [|fuel IH]; intros i acc st Hdoc Hlen; simpl.
  - rewrite lookup_ge_None_2 by lia. by eexists _, _.
  - destruct (items st !! i) as [a|] eqn:Ei; [|by eexists _, _].
    assert (a ∈ items st) as Ha by (by eapply list_elem_of_lookup_2).
    destruct (uriless_scan_returns a acc st (Hdoc a Ha)) as (st1 & acc1 & Es).
    rewrite bind_run, Es.
    pose proof (uriless_scan_ok _ _ _ _ _ Es)
      as (Hitems & Hother & _ & _ & _ & Hnarrow).
    apply IH.
    + intros b Hb. rewrite Hitems in Hb.
      destruct (decide (b = a)) as [->|Hne].
      * by apply (vault_item_narrowed _ _ Hnarrow), Hdoc.
      * rewrite Hother by done. by apply Hdoc.
    + rewrite Hitems. lia.
Qed.

(** [==] on references is an equivalence on Python objects. *)
Lemma obj_eq_refl st a : obj_eq st a a = true.
Proof. unfold obj_eq. by rewrite bool_decide_eq_true_2. Qed.

Lemma obj_eq_trans st a b c :
  obj_eq st a b = true -> obj_eq st b c = true -> obj_eq st a c = true.
Proof.
  unfold obj_eq. intros [Hab|Hab]%orb_prop [Hbc|Hbc]%orb_prop.
  - apply bool_decide_eq_true_1 in Hab as ->.
    apply bool_decide_eq_true_1 in Hbc as ->.
    by rewrite bool_decide_eq_true_2.
  - apply bool_decide_eq_true_1 in Hab as ->. by rewrite Hbc, orb_true_r.
  - apply bool_decide_eq_true_1 in Hbc as <-. by rewrite Hab, orb_true_r.
  - by rewrite (py_eq_trans _ _ _ Hab Hbc), orb_true_r.
Qed.

Lemma remove_first_Some (same : addr -> bool) l :
  (exists x, x ∈ l /\ same x = true) -> exists l', remove_first same l = Some l'.
Proof.
  induction l as [|x l IH]; simpl.
  - intros (x & Hx & _). by apply elem_of_nil in Hx.
  - destruct (same x) eqn:Ex; [by eexists|].
    intros (y & [->|Hy]%elem_of_cons & Hs); [congruence|].
    destruct IH as [l' ->]; [by exists y|]. by eexists.
Qed.

(** Removing the first match takes one element out; for any count, the
    count goes down by one exactly when the element is counted. *)
Lemma remove_first_count (same : addr -> bool) l l' :
  remove_first same l = Some l' ->
  exists x, same x = true /\ x ∈ l /\
    (forall y, y ∈ l' -> y ∈ l) /\
    forall P : addr -> bool,
      length (List.filter P l) =
      length (List.filter P l') + (if P x then 1 else 0).
Proof.
  revert l'. induction l as [|x l IH]; intros l'; simpl; [done|].
  destruct (same x) eqn:Ex.
  - intros [= <-]. exists x. split_and!; [done | left | by right |].
    intros P. destruct (P x); simpl; lia.
  - destruct (remove_first same l) as [l0|]; [|done]. simpl. intros [= <-].
    destruct (IH l0 eq_refl) as (x0 & Hs & Hin & Hsub & Hcount).
    exists x0. split_and!; [done | by right | |].
    + intros y [->|Hy]%elem_of_cons; [left | right; auto].
    + intros P. simpl. specialize (Hcount P).
      destruct (P x); simpl; lia.
Qed.

Lemma filter_pos_elem (P : addr -> bool) l :
  0 < length (List.filter P l) -> exists x, x ∈ l /\ P x = true.
Proof.
  induction l as [|x l IH]; simpl; [lia|].
  destruct (P x) eqn:Ex.
  - intros _. exists x. split; [left | done].
  - intros H. destruct (IH H) as (y & Hy & Hp). exists y. split; [by right | done].
Qed.

Lemma filter_filter_length (P Q : addr -> bool) l :
  length (List.filter P (List.filter Q l)) <= length (List.filter P l).
Proof.
  induction l as [|x l IH]; simpl; [lia|].
  destruct (Q x), (P x) eqn:Ep; simpl; rewrite ?Ep; simpl; lia.
Qed.

(** One step of the scan, whatever its outcome: it leaves the item list
    alone, writes to no item but the one it looks at, and that one it can
    only narrow. *)
Lemma uriless_scan_any a acc st st' r :
  uriless_scan a acc st = (st', r) ->
  items st' = items st /\
  (forall b, b <> a -> heap st' b = heap st b) /\
  narrowed (heap st a) (heap st' a).
Proof.
  unfold uriless_scan. rewrite bind_run, has_uris_run.
  destruct (has_uris_of (heap st a)) as [[|]|] eqn:Eh;
    [|intros [= <- <-]; split_and!; [done | done | by left]..].
  destruct (has_uris_true _ Eh) as (d & l & src & Ev & Hl & Hsrc & Ht).
  rewrite bind_run, (login_get_ok _ _ _ _ _ _ Ev Hl Hsrc).
  rewrite bind_run. unfold lift at 1.
  destruct (py_iter src) as [elems|] eqn:Ei;
    [|intros [= <- <-]; split_and!; [done | done | by left]].
  rewrite bind_run. unfold lift at 1.
  destruct (keep_valid_uris elems) as [uris|] eqn:Ek;
    [|intros [= <- <-]; split_and!; [done | done | by left]].
  rewrite bind_run, (set_login_uris_ok _ _ _ _ _ Ev Hl), ret_run.
  intros [= <- <-]. simpl.
  pose proof (keep_valid_uris_not_list _ _ _ Ht Ei Ek) as ->.
  destruct (keep_valid_uris_spec _ _ Ek) as [_ Hsub].
  split_and!.
  - done.
  - intros b Hb. by rewrite fn_lookup_insert_ne.
  - rewrite fn_lookup_insert. right. exists d, l, elems, uris. by rewrite Ev.
Qed.

(** A property of the items that narrowing keeps holds after the scan,
    whatever its outcome, when it held before. *)
Lemma uriless_scan_loop_any (P : addr -> value -> Prop) fuel :
  (forall b v v', narrowed v v' -> P b v -> P b v') ->
  forall i acc st,
    (forall b, P b (heap st b)) ->
    forall b, P b (heap (for_items uriless_scan fuel i acc st).1 b).
Proof.
  intros HP. induction fuel as [|fuel IH]; intros i acc st Hall b; simpl.
  - by destruct (items st !! i).
  - destruct (items st !! i) as [a|]; [|done].
    rewrite bind_run.
    destruct (uriless_scan a acc st) as [st1 r1] eqn:Es.
    pose proof (uriless_scan_any _ _ _ _ _ Es) as (_ & Hother & Hnarrow).
    destruct r1 as [acc1|e]; simpl in *.
    + apply IH. intros c. destruct (decide (c = a)) as [->|Hne].
      * by apply (HP _ _ _ Hnarrow).
      * by rewrite Hother.
    + destruct (decide (b = a)) as [->|Hne].
      * by apply (HP _ _ _ Hnarrow).
      * by rewrite Hother.
Qed.

Lemma narrowed_getitem v v' k :
  narrowed v v' -> k <> "login" -> py_getitem v' k = py_getitem v k.
Proof.
  intros [->|(d & l & us & us' & -> & Hl & Hus & Hsub & ->)] Hk; [done|].
  simpl. by rewrite dict_get_set, decide_False.
Qed.

(** The removals never fail with [ValueError]: as long as each item still
    to remove has at least as many [==] partners in the list as among the
    items still to remove, [list.remove] finds one.  So they return, when
    the console renders their notices. *)
Lemma uriless_drop_loop_returns rem :
  forall st,
    (forall a, a ∈ items st -> vault_item (heap st a) = true) ->
    (forall a, a ∈ rem -> vault_item (heap st a) = true) ->
    (forall a, a ∈ rem -> renders (RemovingNoUri (name_of st a)) = true) ->
    (forall a, a ∈ rem ->
       length (List.filter (fun x => obj_eq st x a) rem) <=
       length (List.filter (fun x => obj_eq st x a) (items st))) ->
    exists st', for_each uriless_drop rem st = (st', Ok tt).
Proof.
  induction rem as [|a rem IH]; intros st Hdoc Hrem Hsay Hcount; simpl.
  - by eexists.
  - rewrite bind_run. unfold uriless_drop at 1.
    rewrite bind_run, item_get_run.
    assert (vault_item (heap st a) = true) as Ha by (apply Hrem; left).
    pose proof (Hsay a (list_elem_of_here _ _)) as Hsaya.
    unfold name_of in Hsaya.
    unfold vault_item in Ha. apply andb_prop in Ha as [Hwfa Ha].
    destruct (heap st a) as [| | | | |d] eqn:Ev; try done.
    apply andb_prop in Ha as [Hname _]. simpl in *. unfold Dict.mem in Hname.
    destruct (Dict.get "name" d) as [name|]; [|done].
    rewrite bind_run, (say_run _ _ Hsaya).
    unfold items_remove. simpl.
    set (st0 := mkState (heap st) (items st) (merged_items st) (prompts st)
                        (log st ++ [RemovingNoUri name])).
    assert (forall x y, obj_eq st0 x y = obj_eq st x y) as Hobj by done.
    destruct (remove_first_Some (fun x => obj_eq st0 x a) (items st))
      as [l' Hl'].
    { apply filter_pos_elem. specialize (Hcount a (list_elem_of_here _ _)).
      simpl in Hcount. rewrite obj_eq_refl in Hcount. simpl in Hcount.
      assert (forall l, List.filter (fun x => obj_eq st0 x a) l
                        = List.filter (fun x => obj_eq st x a) l) as ->
        by done.
      lia. }
    rewrite Hl'.
    destruct (remove_first_count _ _ _ Hl') as (x0 & Hx0 & Hin0 & Hsub & Hcnt).
    rewrite Hobj in Hx0.
    apply IH; simpl.
    + intros b Hb. apply Hdoc, Hsub, Hb.
    + intros b Hb. apply Hrem. by right.
    + intros b Hb. apply (Hsay b). by right.
    + intros b Hb.
      specialize (Hcount b (list_elem_of_further _ _ _ Hb)). simpl in Hcount.
      specialize (Hcnt (fun x => obj_eq st x b)). simpl in Hcnt.
      change (length (List.filter (fun x => obj_eq st x b) rem) <=
              length (List.filter (fun x => obj_eq st x b) l')).
      destruct (obj_eq st x0 b) eqn:Exb.
      * assert (obj_eq st a b = true) as Hab.
        { apply (obj_eq_trans _ _ x0); [|done].
          apply obj_eq_sym; [|done].
          specialize (Hdoc x0 Hin0). unfold vault_item in Hdoc.
          by apply andb_prop in Hdoc as [? _]. }
        rewrite Hab in Hcount. simpl in Hcount. lia.
      * destruct (obj_eq st a b); simpl in Hcount; lia.
Qed.

Lemma remove_uriless_item_returns st :
  vault_document st -> removal_rendered st ->
  exists st', remove_uriless_item st = (st', Ok tt).
Proof.
  intros Hdoc Hsay. unfold remove_uriless_item. rewrite bind_run.
  unfold for_each_item at 1.
  destruct (uriless_scan_loop_returns (length (items st)) 0 [] st Hdoc)
    as (st1 & rem & Escan); [lia|].
  rewrite Escan.
  destruct (uriless_scan_loop _ _ _ _ _ _ Escan) as (Hitems & Hrem).
  { by rewrite take_0. }
  { rewrite take_0. intros b Hb. by apply elem_of_nil in Hb. }
  assert (vault_document st1) as Hdoc1.
  { intros b Hb.
    by apply (uriless_scan_loop_keeps (fun v => vault_item v = true) _
                vault_item_narrowed _ _ _ _ _ Escan Hdoc). }
  apply uriless_drop_loop_returns.
  - exact Hdoc1.
  - intros a Ha. apply Hdoc1. rewrite Hrem in Ha.
    apply list_elem_of_In, List.filter_In in Ha as [Ha _].
    by apply list_elem_of_In.
  - intros a Ha. rewrite Hrem in Ha.
    apply list_elem_of_In, List.filter_In in Ha as [Ha _].
    apply list_elem_of_In in Ha. rewrite Hitems in Ha.
    pose proof (uriless_scan_loop_any
                  (fun b v => py_getitem v "name" = py_getitem (heap st b) "name")
                  (length (items st))) as Hname.
    specialize (Hname
                  (fun b v v' Hn Hv =>
                     eq_trans (narrowed_getitem v v' "name" Hn ltac:(done)) Hv)
                  0 [] st (fun b => eq_refl) a).
    rewrite Escan in Hname. simpl in Hname.
    unfold name_of. rewrite Hname. by apply Hsay.
  - intros a _. rewrite Hrem. apply filter_filter_length.
Qed.

(** * The finder returns on documents of logins *)

Lemma is_duplicate_returns st a b :
  is_Some (credentials (heap st a)) -> is_Some (credentials (heap st b)) ->
  exists c, (is_duplicate a b st).2 = Ok c.
Proof.
  unfold credentials. intros [ca Ha] [cb Hb].
  destruct (first_uri_of (heap st a)) as [u|] eqn:Eu; [|done].
  destruct (login_field (heap st a) "username") as [n|] eqn:En; [|done].
  destruct (login_field (heap st a) "password") as [p|] eqn:Ep; [|done].
  destruct (first_uri_of (heap st b)) as [u'|] eqn:Eu'; [|done].
  destruct (login_field (heap st b) "username") as [n'|] eqn:En'; [|done].
  destruct (login_field (heap st b) "password") as [p'|] eqn:Ep'; [|done].
  unfold is_duplicate. rewrite bind_run. cbv beta iota.
  destruct (obj_eq st a b); [by eexists|].
  rewrite bind_run, (same_field_run first_uri first_uri_of)
    by apply first_uri_run.
  rewrite Eu, Eu'. destruct (py_eq u u'); [|by eexists].
  rewrite bind_run,
    (same_field_run (fun x => login_get x "username")
       (fun v => login_field v "username")) by (intros; apply login_get_run).
  rewrite En, En'. destruct (py_eq n n'); [|by eexists].
  rewrite (same_field_run (fun x => login_get x "password")
             (fun v => login_field v "password"))
    by (intros; apply login_get_run).
  rewrite Ep, Ep'. by eexists.
Qed.

Lemma fold_result_returns {X A} (f : X -> A -> result A) l :
  (forall x acc, x ∈ l -> exists acc', f x acc = Ok acc') ->
  forall acc, exists out, fold_result f l acc = Ok out.
Proof.
  induction l as [|x l IH]; intros Hf acc; simpl; [by eexists|].
  destruct (Hf x acc) as [acc' ->]; [left|].
  apply IH. intros y acc0 Hy. apply Hf. by right.
Qed.

Lemma finder_returns st :
  (forall a, a ∈ items st -> is_Some (credentials (heap st a))) ->
  exists pairs, find_items_with_duplicates st = (st, Ok pairs).
Proof.
  intros Hcred. rewrite finder_run.
  destruct (fold_result_returns
              (fun a pairs => fold_result (collect_row st a) (items st) pairs)
              (items st)) with (acc := @nil (addr * addr)) as [out Hout].
  - intros a acc Ha. apply fold_result_returns. intros b acc' Hb.
    unfold collect_row.
    destruct (is_duplicate_returns st a b) as [c ->]; [auto | auto |].
    by eexists.
  - exists out. by rewrite Hout.
Qed.

(** * The filtered document *)

(** C9: on a document of the data model, and a console that renders the
    notice of the filter for each of its items, the URI filter returns; and
    on any document and any console, when it returns, every item still in
    the list has a [login] dict whose [uris] is a non-empty list, and every
    entry of it is a dict with a truthy value under [uri]: on a document
    typed as the data model says ([uri] a string, null or absent), a
    non-empty string. *)
Theorem uriless_survivors_have_valid_uris (st : state) :
  (vault_document st -> removal_rendered st ->
   exists st', remove_uriless_item st = (st', Ok tt)) /\
  (forall st', remove_uriless_item st = (st', Ok tt) ->
   forall a, a ∈ items st' ->
     exists d l us,
       heap st' a = VDict d /\ Dict.get "login" d = Some (VDict l) /\
       Dict.get "uris" l = Some (VList us) /\ us <> [] /\
       forall u, u ∈ us ->
         exists ud x,
           u = VDict ud /\ Dict.get "uri" ud = Some x /\ py_truthy x = true /\
           (uris_typed st -> exists s, x = VStr s /\ s <> "")).
Proof.
  split.
  - apply remove_uriless_item_returns.
  - intros st'. apply uriless_survivors_valid.
Qed.

(** X20: the finder compares items with [!=], that is by contents.  On a
    document of Python objects whose items all have a first URI, a username
    and a password, the finder returns; any two items of the list that are
    not [==] and have [==] first URI, username and password are reported in
    both orders; and a pair of items that are [==], the same object or two
    objects with equal contents, is never reported. *)
Theorem finder_reports_unequal_duplicates (st : state) :
  (forall a, a ∈ items st -> wf_value (heap st a) = true) ->
  (forall a, a ∈ items st -> is_Some (credentials (heap st a))) ->
  exists pairs,
    find_items_with_duplicates st = (st, Ok pairs) /\
    forall a b, a ∈ items st -> b ∈ items st ->
      (obj_eq st a b = false ->
       same_credentials (heap st a) (heap st b) = true ->
       (a, b) ∈ pairs /\ (b, a) ∈ pairs) /\
      (obj_eq st a b = true -> (a, b) ∉ pairs).
Proof.
  intros Hwf Hcred. destruct (finder_returns st Hcred) as [pairs Hrun].
  exists pairs. split; [exact Hrun|].
  by apply finder_pairs_unequal.
Qed.

Lemma unique_ids_unequal st a b :
  unique_ids st -> a ∈ items st -> b ∈ items st -> a <> b ->
  obj_eq st a b = false.
Proof.
  intros Hids Ha Hb Hab. unfold obj_eq. apply orb_false_intro.
  - by apply bool_decide_eq_false.
  - destruct (Hids a b Ha Hb Hab) as (ia & ib & Hia & Hib & Hne).
    destruct (py_eq (heap st a) (heap st b)) eqn:Heq; [|done].
    destruct (py_eq_getitem _ _ _ _ Heq Hia) as (w & Hw & Hiw).
    congruence.
Qed.

(** X21: on a document of the data model the finder tells objects apart.
    When the [id]s are unique and every item has a first URI, a username and
    a password, the finder returns; two items of the list that are distinct
    objects and have [==] first URI, username and password are reported in
    both orders; and every reported pair is made of two distinct objects
    with [==] first URI, username and password. *)
Theorem finder_reports_distinct_objects (st : state) :
  unique_ids st ->
  (forall a, a ∈ items st -> wf_value (heap st a) = true) ->
  (forall a, a ∈ items st -> is_Some (credentials (heap st a))) ->
  exists pairs,
    find_items_with_duplicates st = (st, Ok pairs) /\
    forall a b, a ∈ items st -> b ∈ items st ->
      (a <> b -> same_credentials (heap st a) (heap st b) = true ->
       (a, b) ∈ pairs /\ (b, a) ∈ pairs) /\
      ((a, b) ∈ pairs ->
       a <> b /\ same_credentials (heap st a) (heap st b) = true).
Proof.
  intros Hids Hwf Hcred. destruct (finder_returns st Hcred) as [pairs Hrun].
  exists pairs. split; [exact Hrun|]. intros a b Ha Hb. split.
  - intros Hab Hsame.
    apply (finder_pairs_unequal st pairs Hrun Hwf a b Ha Hb); [|done].
    by apply unique_ids_unequal.
  - intros Hin. rewrite finder_run in Hrun. injection Hrun as Hrun.
    apply (collect_elem st _ _ _ _ Hrun) in Hin
      as [Hnil|(a' & b' & _ & _ & [= <- <-] & Hd)].
    { by apply elem_of_nil in Hnil. }
    apply is_duplicate_true in Hd as [Hne Hsame]. split; [|done].
    intros ->. by rewrite obj_eq_refl in Hne.
Qed.

(** C4: the finder does not report the duplicates of every filtered
    document.  On [skipped_login], a document of the data model, with a
    console that renders the notice of the one removal, the filters return
    and leave three items: the login with no [username] key, which the
    userless filter stepped over after its removal, and the two logins with
    the same credentials, distinct objects with distinct [id]s.  On that
    document the finder raises [KeyError: 'username'] and reports no
    pair. *)
Theorem finder_raises_after_filter_stage :
  renders (RemovingNoUsername (VStr "old")) = true ->
  let st1 := (filter_stage skipped_login).1 in
  (filter_stage skipped_login).2 = Ok tt /\
  items st1 = [1; 2; 3] /\
  item_id st1 2 = Some (KStr "3") /\ item_id st1 3 = Some (KStr "4") /\
  same_credentials (heap st1 2) (heap st1 3) = true /\
  (find_items_with_duplicates st1).2 = Raise (KeyError (VStr "username")).
Proof.
  intros Hold.
  assert (remove_userless_item skipped_login =
          (mkState (heap skipped_login) [1; 2; 3] ∅ 0
                   [RemovingNoUsername (VStr "old")], Ok tt)) as Hfirst.
  { vm_compute. rewrite Hold. reflexivity. }
  cbv zeta. unfold filter_stage. rewrite !bind_run, Hfirst.
  vm_compute. repeat split.
Qed.

(** * What the filters leave alone *)

#[global] Instance only_removes_preorder : PreOrder only_removes.
Proof.
  split.
  - intros st. unfold only_removes. reflexivity.
  - intros s1 s2 s3. unfold only_removes. intros H1 H2. by etrans.
Qed.

#[global] Instance same_objects_preorder : PreOrder same_objects.
Proof.
  split.
  - intros st. by repeat split.
  - intros s1 s2 s3 (H1 & H2 & H3) (K1 & K2 & K3). repeat split; congruence.
Qed.

Lemma remove_first_sublist same l l' :
  remove_first same l = Some l' -> sublist l' l.
Proof.
  revert l'. induction l as [|x l IH]; intros l'; simpl; [done|].
  destruct (same x).
  - intros [= <-]. by apply sublist_cons.
  - destruct (remove_first same l) as [l0|]; [|done]. simpl. intros [= <-].
    apply sublist_skip. by apply IH.
Qed.

Lemma only_removes_items_remove a : keeps only_removes (items_remove a).
Proof.
  intros st. unfold only_removes, items_remove.
  destruct (remove_first _ (items st)) as [l'|] eqn:E; simpl; [|done].
  by apply remove_first_sublist in E.
Qed.

Lemma only_removes_say e : keeps only_removes (say e).
Proof. intros st. unfold only_removes, say. by destruct (renders e). Qed.

Lemma only_removes_store a v : keeps only_removes (store a v).
Proof. intros st. unfold only_removes. done. Qed.

Lemma same_objects_items_remove a : keeps same_objects (items_remove a).
Proof.
  intros st. unfold items_remove.
  destruct (remove_first _ (items st)); by repeat split.
Qed.

Lemma same_objects_say e : keeps same_objects (say e).
Proof. intros st. unfold say. by destruct (renders e). Qed.

Ltac only_removes_auto :=
  repeat keeps_step only_removes
    ltac:(first [ apply only_removes_say | apply only_removes_store
                | apply only_removes_items_remove ]).

Lemma only_removes_userless : keeps only_removes remove_userless_item.
Proof.
  apply (keeps_for_each_item only_removes). intros a [].
  unfold userless. only_removes_auto.
Qed.

Lemma only_removes_passwordless : keeps only_removes remove_passwordless_item.
Proof.
  apply (keeps_for_each_item only_removes). intros a [].
  unfold passwordless. only_removes_auto.
Qed.

Lemma only_removes_uriless : keeps only_removes remove_uriless_item.
Proof.
  unfold remove_uriless_item. apply (keeps_bind only_removes).
  - apply (keeps_for_each_item only_removes). intros a acc.
    unfold uriless_scan, has_uris, set_login_uris. only_removes_auto.
  - intros rem. apply (keeps_for_each only_removes). intros a.
    unfold uriless_drop. only_removes_auto.
Qed.

(** X1: the filters only remove.  After each of the three filters, and
    after the three in a row, whether the run returned or raised, the item
    list is a sublist of the list before: no item added, none moved. *)
Theorem filters_only_remove (st : state) :
  sublist (items (remove_userless_item st).1) (items st) /\
  sublist (items (remove_passwordless_item st).1) (items st) /\
  sublist (items (remove_uriless_item st).1) (items st) /\
  sublist (items (filter_stage st).1) (items st).
Proof.
  split_and!.
  - apply only_removes_userless.
  - apply only_removes_passwordless.
  - apply only_removes_uriless.
  - unfold filter_stage.
    apply (keeps_bind only_removes); [apply only_removes_userless | intros _].
    apply (keeps_bind only_removes); [apply only_removes_passwordless | intros _].
    apply only_removes_uriless.
Qed.

(** X2: the userless and the passwordless filter write no item: after a
    run of either, returned or raised, every item object is what it was, and
    so are the merge registry and the count of prompts. *)
Theorem username_password_filters_write_nothing (st : state) :
  same_objects st (remove_userless_item st).1 /\
  same_objects st (remove_passwordless_item st).1.
Proof.
  split.
  - apply (keeps_for_each_item same_objects). intros a [].
    unfold userless.
    repeat keeps_step same_objects
      ltac:(first [apply same_objects_say | apply same_objects_items_remove]).
  - apply (keeps_for_each_item same_objects). intros a [].
    unfold passwordless.
    repeat keeps_step same_objects
      ltac:(first [apply same_objects_say | apply same_objects_items_remove]).
Qed.

(** * Every outcome of the merge resolver *)

Lemma listed_uris_run st a :
  listed_uris a st =
  (st, match login_field (heap st a) "uris" with
       | Ok uris =>
           match py_iter uris with
           | Ok elems => uri_strings elems
           | Raise e => Raise e
           end
       | Raise e => Raise e
       end).
Proof.
  unfold listed_uris. rewrite bind_run, login_get_run.
  fold (login_field (heap st a) "uris").
  destruct (login_field (heap st a) "uris") as [us|]; [|done].
  rewrite bind_run. unfold lift. by destruct (py_iter us).
Qed.

Lemma login_field_Ok v k x :
  login_field v k = Ok x ->
  exists d l, v = VDict d /\ Dict.get "login" d = Some (VDict l) /\
              Dict.get k l = Some x.
Proof.
  unfold login_field. destruct v as [| | | | |d]; try done. simpl.
  destruct (Dict.get "login" d) as [[| | | | |l]|] eqn:El; try done. simpl.
  destruct (Dict.get k l) as [y|] eqn:Ek; [|done]. intros [= <-].
  by exists d, l.
Qed.

Lemma py_getitem_Ok v k x :
  py_getitem v k = Ok x -> exists d, v = VDict d /\ Dict.get k d = Some x.
Proof.
  destruct v as [| | | | |d]; try done. simpl.
  destruct (Dict.get k d) as [y|] eqn:Ek; [|done]. intros [= <-]. by exists d.
Qed.

Ltac nothing_written :=
  intros [= <- <-]; left; repeat split; simpl; lia.

(** A call of the resolver ends in one of two ways.  Either nothing was
    written: the store, the item list and the registry are as before and at
    most one prompt was issued (the call was skipped, declined, or raised
    before the merge).  Or the merge was done after a "yes": the item at
    [item_a] has the deduplicated list under [login.uris] and the registry
    has B's id more; the call then returned, or its last message raised
    [MarkupError]. *)
Lemma merge_outcome confirm a b st st' r :
  merge_uris_of_items confirm a b st = (st', r) ->
  (same_data st st' /\ prompts st' <= S (prompts st)) \/
  ((r = Ok tt \/ r = Raise MarkupError) /\ confirm (prompts st) = true /\
   exists d l la lb sum merged ka kb,
     heap st a = VDict d /\ Dict.get "login" d = Some (VDict l) /\
     Dict.get "uris" l = Some la /\
     login_field (heap st b) "uris" = Ok lb /\
     py_add la lb = Ok sum /\ dedup_uris sum = Ok merged /\
     item_id st a = Some ka /\ item_id st b = Some kb /\
     (ka ∉ merged_items st) /\ (kb ∉ merged_items st) /\
     heap st' =
       <[a := VDict (Dict.set "login"
                       (VDict (Dict.set "uris" (VList merged) l)) d)]> (heap st) /\
     items st' = items st /\
     merged_items st' = {[kb]} ∪ merged_items st /\
     prompts st' = S (prompts st)).
Proof.
  unfold merge_uris_of_items.
  rewrite bind_run, item_get_run.
  destruct (py_getitem (heap st a) "id") as [ida|] eqn:Eida; [|nothing_written].
  rewrite bind_run. unfold is_merged at 1.
  destruct (py_hash ida) as [ka|] eqn:Eka; [|nothing_written].
  destruct (bool_decide (ka ∈ merged_items st)) eqn:Hka; [nothing_written|].
  apply bool_decide_eq_false_1 in Hka.
  rewrite bind_run, item_get_run.
  destruct (py_getitem (heap st b) "id") as [idb|] eqn:Eidb; [|nothing_written].
  rewrite bind_run. unfold is_merged at 1.
  destruct (py_hash idb) as [kb|] eqn:Ekb; [|nothing_written].
  destruct (bool_decide (kb ∈ merged_items st)) eqn:Hkb; [nothing_written|].
  apply bool_decide_eq_false_1 in Hkb.
  rewrite bind_run, item_get_run.
  destruct (py_getitem (heap st a) "name") as [na|] eqn:Ena; [|nothing_written].
  rewrite bind_run, item_get_run.
  destruct (py_getitem (heap st b) "name") as [nb|] eqn:Enb; [|nothing_written].
  destruct (renders (FoundDuplicate na nb)) eqn:Say1;
    [|rewrite bind_run, (say_raises _ _ Say1); nothing_written].
  rewrite bind_run, (say_run _ _ Say1).
  rewrite bind_run, listed_uris_run. simpl heap.
  destruct (login_field (heap st a) "uris") as [la|] eqn:Ela; [|nothing_written].
  destruct (py_iter la) as [ela|] eqn:Eia; [|nothing_written].
  destruct (uri_strings ela) as [sa|] eqn:Esa; [|nothing_written].
  rewrite bind_run, listed_uris_run. simpl heap.
  destruct (login_field (heap st b) "uris") as [lb|] eqn:Elb; [|nothing_written].
  destruct (py_iter lb) as [elb|] eqn:Eib; [|nothing_written].
  destruct (uri_strings elb) as [sb|] eqn:Esb; [|nothing_written].
  rewrite bind_run, item_get_run. simpl heap. rewrite Ena.
  destruct (renders (HasUris na sa)) eqn:Say2;
    [|rewrite bind_run, (say_raises _ _ Say2); nothing_written].
  rewrite bind_run, (say_run _ _ Say2).
  rewrite bind_run, item_get_run. simpl heap. rewrite Enb.
  destruct (renders (HasUris nb sb)) eqn:Say3;
    [|rewrite bind_run, (say_raises _ _ Say3); nothing_written].
  rewrite bind_run, (say_run _ _ Say3).
  rewrite bind_run. unfold ask at 1. simpl.
  destruct (confirm (prompts st)) eqn:Hyes; [|nothing_written].
  rewrite bind_run, login_get_run. simpl heap.
  fold (login_field (heap st a) "uris"). rewrite Ela.
  rewrite bind_run, login_get_run. simpl heap.
  fold (login_field (heap st b) "uris"). rewrite Elb.
  rewrite bind_run. unfold lift at 1.
  destruct (py_add la lb) as [sum|] eqn:Esum; [|nothing_written].
  rewrite bind_run. unfold lift at 1.
  destruct (dedup_uris sum) as [merged|] eqn:Ededup; [|nothing_written].
  destruct (login_field_Ok _ _ _ Ela) as (d & l & Ea & Hl & Hla).
  destruct (py_getitem_Ok _ _ _ Eidb) as (db & Eb & Hidb).
  rewrite bind_run. erewrite set_login_uris_ok by (simpl; eassumption).
  assert (forall k v, k <> "login" -> Dict.get k db = Some v ->
            py_getitem
              (<[a := VDict (Dict.set "login"
                               (VDict (Dict.set "uris" (VList merged) l)) d)]>
                 (heap st) b) k = Ok v) as Hkeep.
  { intros k v Hk Hv. destruct (decide (a = b)) as [->|Hab].
    - rewrite fn_lookup_insert. simpl. rewrite dict_get_set, decide_False by done.
      assert (d = db) as -> by congruence. by rewrite Hv.
    - rewrite fn_lookup_insert_ne by done. rewrite Eb. simpl. by rewrite Hv. }
  rewrite bind_run, item_get_run. simpl heap. rewrite (Hkeep "id" idb) by done.
  rewrite bind_run, (mark_merged_ok _ _ _ Ekb).
  rewrite Eb in Enb. simpl in Enb.
  destruct (Dict.get "name" db) as [nb'|] eqn:Hnb; [|done].
  injection Enb as ->.
  rewrite bind_run, item_get_run. simpl heap. rewrite (Hkeep "name" nb) by done.
  rewrite bind_run, item_get_run. simpl heap.
  rewrite fn_lookup_insert. simpl py_getitem.
  rewrite Ea in Ena. simpl in Ena.
  destruct (Dict.get "name" d) as [na'|] eqn:Hna; [|done].
  injection Ena as ->.
  rewrite dict_get_set, decide_False, Hna by done.
  unfold say. destruct (renders (MergedInto nb na)); simpl;
    intros [= <- <-]; right; (split; [auto|]); (split; [done|]);
    exists d, l, la, lb, sum, merged, ka, kb; simpl;
    (split_and!; try done; unfold item_id; by rewrite ?Eida, ?Eka, ?Eidb, ?Ekb).
Qed.

(** X3: a call of the merge resolver writes to item A and to nothing else
    of the document.  Whatever the answer and whether the call returns or
    raises, the item list is the same list (B is still in it), every item
    object other than A is untouched, and at most one prompt was issued. *)
Theorem merge_writes_only_item_a confirm (a b : addr) (st : state) :
  let st' := (merge_uris_of_items confirm a b st).1 in
  items st' = items st /\
  (forall c, c <> a -> heap st' c = heap st c) /\
  prompts st' <= S (prompts st).
Proof.
  destruct (merge_uris_of_items confirm a b st) as [st' r] eqn:Hrun. simpl.
  destruct (merge_outcome _ _ _ _ _ _ Hrun)
    as [[(Hh & Hi & _) Hp]
       |(_ & _ & d & l & la & lb & sum & merged & ka & kb & _ & _ & _ & _ & _
         & _ & _ & _ & _ & _ & Hh & Hi & _ & Hp)].
  - split_and!; [done | by intros c _; rewrite Hh | done].
  - split_and!; [done | | lia].
    intros c Hc. rewrite Hh. by rewrite fn_lookup_insert_ne.
Qed.

(** X4: the merge resolver fails cleanly, the console apart.  When a call
    raises an exception of the code itself (a missing key, an unhashable
    [uri]), also after a "yes", nothing has been written: every item object,
    the item list and the registry are as before the call.  Only the
    [MarkupError] of a message is left out: the last message is printed
    after the merge. *)
Theorem merge_raise_writes_nothing confirm (a b : addr) (st : state) (e : exn) :
  (merge_uris_of_items confirm a b st).2 = Raise e ->
  e <> MarkupError ->
  same_data st (merge_uris_of_items confirm a b st).1.
Proof.
  destruct (merge_uris_of_items confirm a b st) as [st' r] eqn:Hrun. simpl.
  intros -> He.
  destruct (merge_outcome _ _ _ _ _ _ Hrun) as [[Hsame _]|([Hok|Hok] & _)];
    [done | done | congruence].
Qed.

(** X5: what a call of the merge resolver can do to the registry: it keeps
    every id that was in it, and the only id it can add is the id of B. *)
Theorem merge_registers_only_b confirm (a b : addr) (st : state) (k : key) :
  let st' := (merge_uris_of_items confirm a b st).1 in
  (k ∈ merged_items st -> k ∈ merged_items st') /\
  (k ∈ merged_items st' -> k ∈ merged_items st \/ item_id st b = Some k).
Proof.
  destruct (merge_uris_of_items confirm a b st) as [st' r] eqn:Hrun. simpl.
  destruct (merge_outcome _ _ _ _ _ _ Hrun)
    as [[(_ & _ & Hm) _]
       |(_ & _ & d & l & la & lb & sum & merged & ka & kb & _ & _ & _ & _ & _
         & _ & _ & Hkb & _ & _ & _ & _ & Hm & _)]; rewrite Hm.
  - tauto.
  - split; [set_solver|].
    intros [->%elem_of_singleton|Hk]%elem_of_union; auto.
Qed.

(** * More on the duplicate finder *)

(** X6: the finder reports nothing but duplicates.  When it returns, every
    pair of the result is made of two items of the list that are not [==]
    and have [==] first URI, username and password; in particular no item is
    paired with itself. *)
Theorem finder_pairs_are_duplicates (st : state) (pairs : list (addr * addr))
    (a b : addr) :
  find_items_with_duplicates st = (st, Ok pairs) ->
  (a, b) ∈ pairs ->
  a ∈ items st /\ b ∈ items st /\ a <> b /\
  obj_eq st a b = false /\
  same_credentials (heap st a) (heap st b) = true.
Proof.
  intros Hrun Hin. rewrite finder_run in Hrun. injection Hrun as Hrun.
  apply (collect_elem st _ _ _ _ Hrun) in Hin
    as [Hnil|(a' & b' & Ha & Hb & [= <- <-] & Hd)].
  { by apply elem_of_nil in Hnil. }
  apply is_duplicate_true in Hd as [Hne Hsame].
  split_and!; try done.
  intros ->. by rewrite obj_eq_refl in Hne.
Qed.

Lemma fold_result_fixed {X A} (f : X -> A -> result A) l acc :
  (forall x, x ∈ l -> f x acc = Ok acc) -> fold_result f l acc = Ok acc.
Proof.
  induction l as [|x l IH]; intros Hf; simpl; [done|].
  rewrite (Hf x) by left. apply IH. intros y Hy. apply Hf. by right.
Qed.

(** X7: on a document whose items are all [==] to one another (an empty
    list, a single item, copies of one item), the finder returns the empty
    list, and it does so without reading any field: the items need not even
    have a [login]. *)
Theorem finder_of_equal_items (st : state) :
  (forall a b, a ∈ items st -> b ∈ items st -> obj_eq st a b = true) ->
  find_items_with_duplicates st = (st, Ok []).
Proof.
  intros Heq. rewrite finder_run. f_equal.
  apply fold_result_fixed. intros a Ha.
  apply fold_result_fixed. intros b Hb.
  unfold collect_row, is_duplicate. rewrite bind_run. cbv beta iota.
  by rewrite (Heq a b Ha Hb).
Qed.

Lemma fold_result_head_raise {X A} (f : X -> A -> result A) x l acc e :
  f x acc = Raise e -> fold_result f (x :: l) acc = Raise e.
Proof. intros H. simpl. by rewrite H. Qed.

Lemma collect_row_raises st a l acc b :
  b ∈ l -> obj_eq st a b = false ->
  (forall x, obj_eq st a x = false ->
             (is_duplicate a x st).2 = Raise (KeyError (VStr "login"))) ->
  fold_result (collect_row st a) l acc = Raise (KeyError (VStr "login")).
Proof.
  intros Hb Hne Hraise. induction l as [|x l IH]; simpl.
  - by apply elem_of_nil in Hb.
  - unfold collect_row at 1.
    destruct (obj_eq st a x) eqn:Ex.
    + assert ((is_duplicate a x st).2 = Ok false) as ->.
      { unfold is_duplicate. rewrite bind_run. cbv beta iota. by rewrite Ex. }
      apply IH. apply elem_of_cons in Hb as [->|Hb]; [congruence | done].
    + by rewrite (Hraise x Ex).
Qed.

(** X8: the finder does not guard the fields it reads.  When the first
    item of the list is a dict with no [login] and some item of the list is
    not [==] to it, the finder raises [KeyError: 'login'] and returns no
    pair at all. *)
Theorem finder_raises_without_login (st : state) (a b : addr)
    (rest : list addr) (d : list (string * value)) :
  items st = a :: rest ->
  heap st a = VDict d ->
  Dict.get "login" d = None ->
  b ∈ rest ->
  obj_eq st a b = false ->
  find_items_with_duplicates st = (st, Raise (KeyError (VStr "login"))).
Proof.
  intros Hitems Ha Hlogin Hb Hne. rewrite finder_run, Hitems. f_equal.
  apply fold_result_head_raise.
  apply (collect_row_raises st a (a :: rest) [] b); [by right | done |].
  - intros x Hx. unfold is_duplicate. rewrite bind_run. cbv beta iota.
    rewrite Hx.
    rewrite bind_run, (same_field_run first_uri first_uri_of)
      by apply first_uri_run.
    unfold first_uri_of, login_field. rewrite Ha. simpl. by rewrite Hlogin.
Qed.

(** * More on the URI filter *)

Lemma same_objects_uriless_drop_loop rem :
  keeps same_objects (for_each uriless_drop rem).
Proof.
  apply (keeps_for_each same_objects). intros a. unfold uriless_drop.
  repeat keeps_step same_objects
    ltac:(first [apply same_objects_say | apply same_objects_items_remove]).
Qed.

Lemma heap_uriless_drop_loop rem st :
  heap (for_each uriless_drop rem st).1 = heap st.
Proof. apply (same_objects_uriless_drop_loop rem st). Qed.

Lemma uriless_keeps (P : addr -> value -> Prop) st :
  (forall b v v', narrowed v v' -> P b v -> P b v') ->
  (forall b, P b (heap st b)) ->
  forall b, P b (heap (remove_uriless_item st).1 b).
Proof.
  intros HP Hall b. unfold remove_uriless_item. rewrite bind_run.
  unfold for_each_item at 1.
  pose proof (uriless_scan_loop_any P (length (items st)) HP 0 [] st Hall b)
    as Hscan.
  destruct (for_items uriless_scan (length (items st)) 0 [] st)
    as [st1 [rem|e]]; simpl in *; [|done].
  by rewrite heap_uriless_drop_loop.
Qed.

Lemma narrowed_login_field v v' k :
  narrowed v v' -> k <> "uris" -> login_field v' k = login_field v k.
Proof.
  intros [->|(d & l & us & us' & -> & Hl & Hus & Hsub & ->)] Hk; [done|].
  unfold login_field. simpl. rewrite dict_get_set, Hl. simpl.
  by rewrite dict_get_set, decide_False.
Qed.

Lemma narrowed_uris v v' us' :
  narrowed v v' -> login_field v' "uris" = Ok (VList us') ->
  exists us, login_field v "uris" = Ok (VList us) /\
             forall u, u ∈ us' -> u ∈ us.
Proof.
  intros [->|(d & l & us & us1 & -> & Hl & Hus & Hsub & ->)].
  - intros H. by exists us'.
  - rewrite login_field_set_uris. intros [= <-]. exists us. split; [|done].
    unfold login_field. simpl. rewrite Hl. simpl. by rewrite Hus.
Qed.

(** X9: the URI filter changes nothing of an item but the list under
    [login.uris], and that list it can only shorten.  After a run, returned
    or raised, every item object has every field other than [login] as
    before, every field of [login] other than [uris] as before, and each
    entry now under [login.uris] was under it before. *)
Theorem uriless_keeps_other_fields (st : state) (a : addr) :
  let st' := (remove_uriless_item st).1 in
  (forall k, k <> "login" ->
     py_getitem (heap st' a) k = py_getitem (heap st a) k) /\
  (forall k, k <> "uris" ->
     login_field (heap st' a) k = login_field (heap st a) k) /\
  (forall us', login_field (heap st' a) "uris" = Ok (VList us') ->
     exists us, login_field (heap st a) "uris" = Ok (VList us) /\
                forall u, u ∈ us' -> u ∈ us).
Proof.
  simpl. split_and!.
  - intros k Hk.
    apply (uriless_keeps
             (fun b v => py_getitem v k = py_getitem (heap st b) k)); [|done].
    intros b v v' Hn Hv. by rewrite (narrowed_getitem _ _ _ Hn Hk).
  - intros k Hk.
    apply (uriless_keeps
             (fun b v => login_field v k = login_field (heap st b) k)); [|done].
    intros b v v' Hn Hv. by rewrite (narrowed_login_field _ _ _ Hn Hk).
  - apply (uriless_keeps
             (fun b v => forall us', login_field v "uris" = Ok (VList us') ->
                exists us, login_field (heap st b) "uris" = Ok (VList us) /\
                           forall u, u ∈ us' -> u ∈ us)).
    + intros b v v' Hn Hv us' Hus'.
      destruct (narrowed_uris _ _ _ Hn Hus') as (us1 & Hus1 & Hsub1).
      destruct (Hv _ Hus1) as (us & Hus & Hsub).
      exists us. split; [done | auto].
    + intros b us' Hus'. by exists us'.
Qed.





Lemma uriless_survivors_kept (st st' : state) :
  remove_uriless_item st = (st', Ok tt) ->
  forall a, a ∈ items st' -> has_valid_uris (heap st' a) = true.
Proof.
  unfold remove_uriless_item. rewrite bind_run. unfold for_each_item at 1.
  destruct (for_items uriless_scan (length (items st)) 0 [] st)
    as [st1 [rem|e]] eqn:Escan; [|done].
  intros Hdrop a Ha.
  destruct (uriless_scan_loop _ _ _ _ _ _ Escan) as (Hitems & Hrem).
  { by rewrite take_0. }
  { rewrite take_0. intros b Hb. by apply elem_of_nil in Hb. }
  destruct (uriless_drop_loop rem st1 st' Hdrop) as (Hheap & Hsub & Hnone).
  { by rewrite Hrem. }
  { rewrite Hrem. apply Forall_forall. intros b Hb%list_elem_of_In.
    apply List.filter_In in Hb as [_ Hb]. by apply negb_true_iff. }
  destruct (has_valid_uris (heap st' a)) eqn:Ev; [done|].
  assert (In a (List.filter
                  (fun a => negb (has_valid_uris (heap st' a))) (items st')))
    as Hin.
  { apply List.filter_In. split; [by apply list_elem_of_In | by rewrite Ev]. }
  by rewrite Hnone in Hin.
Qed.

Lemma dict_set_same {K A} `{EqDecision K} (k : K) (v : A) d :
  Dict.get k d = Some v -> Dict.set k v d = d.
Proof.
  induction d as [|[k0 v0] d IH]; simpl; [done|].
  case_decide as Hk.
  - by intros [= ->].
  - intros H1. by rewrite IH.
Qed.

(** The scan leaves an item that it keeps exactly as it is. *)
Lemma uriless_scan_kept a acc st :
  has_valid_uris (heap st a) = true ->
  exists st',
    uriless_scan a acc st = (st', Ok acc) /\
    items st' = items st /\ log st' = log st /\
    forall b, heap st' b = heap st b.
Proof.
  intros Hv. unfold has_valid_uris in Hv.
  destruct (login_field (heap st a) "uris") as [[| | | |us|]|] eqn:Eus;
    try done.
  apply andb_prop in Hv as [Hne Hall].
  destruct (login_field_Ok _ _ _ Eus) as (d & l & Ev & Hl & Hus).
  unfold uriless_scan. rewrite bind_run, has_uris_run, Ev.
  unfold has_uris_of. simpl. unfold Dict.mem. rewrite Hl. simpl.
  unfold Dict.mem. rewrite Hus. rewrite Hne. simpl in Hne.
  rewrite bind_run, (login_get_ok _ _ _ _ _ _ Ev Hl Hus).
  rewrite bind_run. unfold lift at 1. simpl py_iter. cbv beta iota.
  rewrite bind_run. unfold lift at 1. rewrite (keep_valid_uris_id _ Hall).
  rewrite bind_run, (set_login_uris_ok _ _ _ _ _ Ev Hl), ret_run.
  simpl. rewrite Hne. eexists. split; [reflexivity|]. simpl.
  split_and!; [done | done |].
  intros b. destruct (decide (b = a)) as [->|Hb].
  - rewrite fn_lookup_insert, Ev.
    by rewrite (dict_set_same "uris" _ _ Hus), (dict_set_same "login" _ _ Hl).
  - by rewrite fn_lookup_insert_ne.
Qed.

Lemma uriless_scan_loop_kept fuel :
  forall i acc st,
    (forall a, a ∈ items st -> has_valid_uris (heap st a) = true) ->
    length (items st) <= fuel + i ->
    exists st',
      for_items uriless_scan fuel i acc st = (st', Ok acc) /\
      items st' = items st /\ log st' = log st /\
      forall b, heap st' b = heap st b.
Proof.
  induction fuel as [|fuel IH]; intros i acc st Hall Hlen; simpl.
  - rewrite lookup_ge_None_2 by lia. by exists st.
  - destruct (items st !! i) as [a|] eqn:Ei; [|by exists st].
    assert (a ∈ items st) as Ha by (by eapply list_elem_of_lookup_2).
    destruct (uriless_scan_kept a acc st (Hall a Ha))
      as (st1 & Hrun & Hi1 & Hl1 & Hh1).
    rewrite bind_run, Hrun.
    destruct (IH (S i) acc st1) as (st' & Hrun' & Hi' & Hl' & Hh').
    + intros b Hb. rewrite Hh1. apply Hall. by rewrite <- Hi1.
    + rewrite Hi1. lia.
    + exists st'. split_and!; [done | congruence | congruence |].
      intros b. by rewrite Hh', Hh1.
Qed.

(** X11: the URI filter is idempotent.  Run on the document a first run
    returned, it returns again, removes nothing, prints nothing and leaves
    every item object with the contents it had. *)
Theorem uriless_twice (st st1 : state) :
  remove_uriless_item st = (st1, Ok tt) ->
  exists st2,
    remove_uriless_item st1 = (st2, Ok tt) /\
    items st2 = items st1 /\ log st2 = log st1 /\
    forall a, heap st2 a = heap st1 a.
Proof.
  intros Hrun. pose proof (uriless_survivors_kept _ _ Hrun) as Hkept.
  destruct (uriless_scan_loop_kept (length (items st1)) 0 [] st1 Hkept)
    as (st2 & Hscan & Hi & Hl & Hh); [lia|].
  exists st2. unfold remove_uriless_item. rewrite bind_run.
  unfold for_each_item at 1. rewrite Hscan. simpl. by rewrite ret_run.
Qed.

(** * The order of the merged list *)

Lemma login_items_keyed st a b ka kb ua ub :
  login_item (heap st a) ka ua -> login_item (heap st b) kb ub ->
  Forall (fun u => is_Some (uri_key u)) (ua ++ ub).
Proof.
  intros (? & ? & ? & ? & _ & _ & _ & _ & _ & _ & Fa)
         (? & ? & ? & ? & _ & _ & _ & _ & _ & _ & Fb).
  by apply Forall_app.
Qed.

(** X12: a confirmed merge keeps A's order.  On a console that renders the
    four messages of the call, the [uri]s of the merged list are those of
    A's list followed by B's, each at the place of its first occurrence: A's
    URIs stay where they were (their entries possibly replaced by B's, see
    C3) and the URIs only B has follow in B's order. *)
Theorem merged_uris_in_first_occurrence_order confirm (st : state)
    (a b : addr) (ka kb : key) (ua ub : list value) :
  login_item (heap st a) ka ua ->
  login_item (heap st b) kb ub ->
  ka ∉ merged_items st -> kb ∉ merged_items st ->
  rendered (merge_messages st a b ua ub) ->
  confirm (prompts st) = true ->
  exists st' merged,
    merge_uris_of_items confirm a b st = (st', Ok tt) /\
    item_uris st' a = Some merged /\
    uri_keys merged = first_occurrences (uri_keys ua ++ uri_keys ub).
Proof.
  intros Ha Hb Hna Hnb Hsay Hyes.
  destruct (merge_confirmed_last_wins confirm st a b ka kb ua ub
              Ha Hb Hna Hnb Hsay Hyes)
    as (st' & merged & Hrun & Huris & _ & _ & _ & _ & _ & Hm).
  exists st', merged. split_and!; [done | done |].
  pose proof (login_items_keyed st a b ka kb ua ub Ha Hb) as Hkeys.
  unfold uri_keys at 2 3. rewrite <- omap_app.
  apply dedup_uris_keys; [done|]. rewrite Hm. by apply dedup_uris_last.
Qed.

Lemma dict_set_fresh {K A} `{EqDecision K} (k : K) (v : A) d :
  k ∉ Dict.keys d -> Dict.set k v d = d ++ [(k, v)].
Proof.
  unfold Dict.keys. induction d as [|[k0 v0] d IH]; simpl; [done|].
  intros [Hne Hk]%not_elem_of_cons. rewrite decide_False by done.
  by rewrite IH.
Qed.

Lemma by_uri_distinct l :
  Forall (fun u => is_Some (uri_key u)) l ->
  NoDup (uri_keys l) ->
  forall d, (forall k, k ∈ uri_keys l -> k ∉ Dict.keys d) ->
  exists d', by_uri l d = Ok d' /\ Dict.values d' = Dict.values d ++ l.
Proof.
  induction 1 as [|u l [k Hu] Hl IH]; intros Hnd d Hfresh.
  - exists d. simpl. by rewrite app_nil_r.
  - rewrite (uri_keys_cons _ _ _ Hu) in Hnd, Hfresh. simpl.
    destruct (uri_key_Some _ _ Hu) as (v & Hv & Hh). rewrite Hv, Hh.
    apply NoDup_cons in Hnd as [Hk Hnd].
    rewrite dict_set_fresh by (apply Hfresh; left).
    destruct (IH Hnd (d ++ [(k, u)])) as (d' & Hrun & Hvals).
    + intros k' Hk'. unfold Dict.keys. rewrite map_app. simpl.
      intros [Hin| ->%list_elem_of_singleton]%elem_of_app; [|done].
      by apply (Hfresh k'); [right|].
    + exists d'. split; [done|]. rewrite Hvals. unfold Dict.values.
      rewrite map_app. simpl. by rewrite <- app_assoc.
Qed.

(** X13: when A's and B's lists have no [uri] in common and none twice, a
    confirmed merge, on a console that renders the four messages of the
    call, is a plain concatenation: A's [uris] becomes A's entries followed
    by B's, every entry as it was. *)
Theorem merge_of_distinct_uris_appends confirm (st : state)
    (a b : addr) (ka kb : key) (ua ub : list value) :
  login_item (heap st a) ka ua ->
  login_item (heap st b) kb ub ->
  ka ∉ merged_items st -> kb ∉ merged_items st ->
  rendered (merge_messages st a b ua ub) ->
  confirm (prompts st) = true ->
  NoDup (uri_keys (ua ++ ub)) ->
  exists st',
    merge_uris_of_items confirm a b st = (st', Ok tt) /\
    item_uris st' a = Some (ua ++ ub).
Proof.
  intros Ha Hb Hna Hnb Hsay Hyes Hnd.
  destruct (merge_confirmed_last_wins confirm st a b ka kb ua ub
              Ha Hb Hna Hnb Hsay Hyes)
    as (st' & merged & Hrun & Huris & _ & _ & _ & _ & _ & Hm).
  exists st'. split; [done|]. rewrite Huris. f_equal.
  pose proof (login_items_keyed st a b ka kb ua ub Ha Hb) as Hkeys.
  pose proof (dedup_uris_last _ Hkeys) as Hdedup.
  destruct (by_uri_distinct (ua ++ ub) Hkeys Hnd (@nil (key * value)))
    as (d' & Hd' & Hvals).
  { intros k _. apply not_elem_of_nil. }
  unfold dedup_uris in Hdedup. simpl in Hdedup, Hvals. rewrite Hd' in Hdedup.
  rewrite Hm. congruence.
Qed.

(** X22: the merge is done before its last message.  When the console
    renders the three messages before the prompt and not the last one, a
    confirmed merge of two login items raises [MarkupError] with the merge
    in place: A's [uris] is the deduplicated list and B's id is in the
    registry. *)
Theorem merge_done_before_last_message confirm (st : state) (a b : addr)
    (ka kb : key) (ua ub : list value) :
  login_item (heap st a) ka ua ->
  login_item (heap st b) kb ub ->
  ka ∉ merged_items st -> kb ∉ merged_items st ->
  rendered (merge_notices st a b ua ub) ->
  renders (merge_report st a b) = false ->
  confirm (prompts st) = true ->
  exists st',
    merge_uris_of_items confirm a b st = (st', Raise MarkupError) /\
    item_uris st' a = Some (dedup_last (ua ++ ub)) /\
    kb ∈ merged_items st' /\
    prompts st' = S (prompts st).
Proof.
  intros Ha Hb Hna Hnb Hsay Hlast Hyes.
  destruct (merge_confirmed_run confirm st a b ka kb ua ub
              Ha Hb Hna Hnb Hsay Hyes)
    as (merged & item' & evs & Hrun & Hdedup & Hitem).
  rewrite Hlast in Hrun.
  pose proof (login_items_keyed st a b ka kb ua ub Ha Hb) as Hkeys.
  rewrite (dedup_uris_last _ Hkeys) in Hdedup. injection Hdedup as <-.
  eexists. split; [exact Hrun|]. simpl. split_and!.
  - apply (login_item_uris _ a ka). simpl. by rewrite fn_lookup_insert.
  - set_solver.
  - reflexivity.
Qed.

(** * The driver *)

Lemma merge_keeps_items confirm a b st :
  items (merge_uris_of_items confirm a b st).1 = items st.
Proof.
  destruct (merge_uris_of_items confirm a b st) as [st' r] eqn:Hrun. simpl.
  destruct (merge_outcome _ _ _ _ _ _ Hrun)
    as [[(_ & Hi & _) _]
       |(_ & _ & d & l & la & lb & sum & merged & ka & kb & _ & _ & _ & _ & _
         & _ & _ & _ & _ & _ & _ & Hi & _)]; done.
Qed.

Lemma merge_all_keeps_items confirm pairs st :
  items (merge_all confirm pairs st).1 = items st.
Proof.
  revert st. induction pairs as [|[a b] pairs IH]; intros st; [done|].
  unfold merge_all. simpl. rewrite bind_run.
  pose proof (merge_keeps_items confirm a b st) as Hm.
  destruct (merge_uris_of_items confirm a b st) as [st1 [[]|e]]; simpl in *.
  - rewrite <- Hm. apply IH.
  - done.
Qed.

Lemma item_count_sublist st st' :
  sublist (items st') (items st) -> (item_count st' <= item_count st)%Z.
Proof. intros H%sublist_length. unfold item_count. lia. Qed.

(** X14: the counts the driver prints add up.  When the driver returns, it
    has printed its five lines; the three "removed" counts are not negative,
    together with the count of the last line they make the count of the
    first, and the count of the last line is the length of the final item
    list, which is a sublist of the list that was loaded: the merges remove
    no item. *)
Theorem main_counts_add_up confirm (data data' : state)
    (out : list (nat * line)) :
  main confirm data = (data', out, Ok tt) ->
  exists p0 p1 p2 p3 p4 r1 r2 r3,
    out = [(p0, FoundItems (item_count data));
           (p1, RemovedWithoutUsername r1);
           (p2, RemovedWithoutPassword r2);
           (p3, RemovedWithoutUri r3);
           (p4, EndingWith (item_count data') (item_count data))] /\
    (0 <= r1)%Z /\ (0 <= r2)%Z /\ (0 <= r3)%Z /\
    (item_count data = r1 + r2 + r3 + item_count data')%Z /\
    sublist (items data') (items data).
Proof.
  unfold main.
  pose proof (only_removes_userless data) as H1.
  destruct (remove_userless_item data) as [st1 [[]|e]]; [|done].
  pose proof (only_removes_passwordless st1) as H2.
  destruct (remove_passwordless_item st1) as [st2 [[]|e]]; [|done].
  pose proof (only_removes_uriless st2) as H3.
  destruct (remove_uriless_item st2) as [st3 [[]|e]]; [|done].
  pose proof (keeps_find_items_with_duplicates eq st3) as H4.
  destruct (find_items_with_duplicates st3) as [st4 [pairs|e]]; [|done].
  pose proof (merge_all_keeps_items confirm pairs st4) as H5.
  destruct (merge_all confirm pairs st4) as [st5 [[]|e]]; [|done].
  simpl in *. subst st4. intros [= <- <-].
  unfold only_removes in *.
  assert (item_count st5 = item_count st3) as Hc
    by (unfold item_count; by rewrite H5).
  eexists _, _, _, _, _, _, _, _. split; [reflexivity|].
  apply item_count_sublist in H1 as L1.
  apply item_count_sublist in H2 as L2.
  apply item_count_sublist in H3 as L3.
  split_and!; try lia.
  rewrite H5. by do 2 (etrans; [eassumption|]).
Qed.

(** * Items the first two filters never remove *)

#[global] Instance keeps_having_preorder k : PreOrder (keeps_having k).
Proof.
  split.
  - intros st. by split.
  - intros s1 s2 s3 [H1 K1] [H2 K2]. split; [congruence|].
    intros a Ha [u Hu]. apply K2; [apply K1; [done | by exists u]|].
    exists u. unfold has_login_field in *. by rewrite H1.
Qed.

#[global] Instance head_stays_preorder a v : PreOrder (head_stays a v).
Proof.
  split.
  - intros st H. exact H.
  - intros s1 s2 s3 H1 H2 H. by apply H2, H1.
Qed.

Lemma py_is_none_true u : py_is_none u = true -> u = VNone.
Proof. by destruct u. Qed.

Lemma py_eq_none u : py_eq u VNone = true -> u = VNone.
Proof. by destruct u. Qed.

Lemma py_getitem_dict v k x :
  py_getitem v k = Ok x -> exists d, v = VDict d /\ Dict.get k d = Some x.
Proof.
  destruct v as [| | | | |d]; try done. simpl.
  destruct (Dict.get k d) as [y|] eqn:E; [|done]. intros [= <-]. by exists d.
Qed.

Lemma py_getitem_contains v k x :
  py_getitem v k = Ok x -> py_contains k v = Ok true.
Proof.
  intros (d & -> & Hk)%py_getitem_dict. simpl. by rewrite (dict_mem_Some _ _ _ Hk).
Qed.

(** The test of the userless filter holds only of an item whose
    [login.username] is [None], and it does not change the state. *)
Lemma userless_state t st : (userless t st).1 = st.
Proof.
  symmetry. revert st. change (keeps eq (userless t)).
  unfold userless. repeat keeps_step (@eq state) fail.
Qed.

Lemma userless_true t st st' :
  userless t st = (st', Ok true) ->
  login_field (heap st t) "username" = Ok VNone.
Proof.
  unfold userless. rewrite bind_run, item_contains_run.
  destruct (py_contains "login" (heap st t)) as [[]|]; simpl; [|done..].
  rewrite bind_run, login_get_run. unfold login_field.
  destruct (py_getitem (heap st t) "login") as [lg|] eqn:El; simpl; [|done].
  destruct (py_getitem lg "username") as [u|] eqn:Eu; simpl; [|done].
  destruct (py_is_none u) eqn:En.
  - intros _. by apply py_is_none_true in En as ->.
  - rewrite fmap_run, login_contains_run, El. simpl.
    by rewrite (py_getitem_contains _ _ _ Eu).
Qed.

Lemma passwordless_state t st : (passwordless t st).1 = st.
Proof.
  symmetry. revert st. change (keeps eq (passwordless t)).
  unfold passwordless. repeat keeps_step (@eq state) fail.
Qed.

Lemma passwordless_true t st st' :
  passwordless t st = (st', Ok true) ->
  login_field (heap st t) "password" = Ok VNone.
Proof.
  unfold passwordless. rewrite !bind_run, item_contains_run.
  unfold login_field.
  destruct (py_contains "login" (heap st t)) as [[]|] eqn:Ec; simpl; [| |done].
  - rewrite !bind_run, login_get_run.
    destruct (py_getitem (heap st t) "login") as [lg|] eqn:El; simpl; [|done].
    destruct (py_getitem lg "password") as [u|] eqn:Eu; simpl; [|done].
    destruct (py_is_none u) eqn:En.
    + intros _. by apply py_is_none_true in En as ->.
    + rewrite fmap_run, login_contains_run, El. simpl.
      by rewrite (py_getitem_contains _ _ _ Eu).
  - rewrite bind_run, ret_run. cbn iota. rewrite fmap_run, login_contains_run.
    destruct (py_getitem (heap st t) "login") as [lg|] eqn:El; simpl; [|done].
    apply py_getitem_contains in El. congruence.
Qed.

Lemma py_eq_login_field x t k u :
  py_eq x t = true -> login_field x k = Ok u ->
  exists w, login_field t k = Ok w /\ py_eq u w = true.
Proof.
  unfold login_field. intros Heq.
  destruct (py_getitem x "login") as [lx|] eqn:Ex; [|done]. intros Hu.
  destruct (py_eq_getitem _ _ _ _ Heq Ex) as (lt & -> & Hl).
  apply (py_eq_getitem _ _ _ _ Hl Hu).
Qed.

Lemma remove_first_keeps same l l' (a : addr) :
  remove_first same l = Some l' -> a ∈ l -> same a = false -> a ∈ l'.
Proof.
  revert l'. induction l as [|x l IH]; intros l'; simpl; [done|].
  destruct (same x) eqn:Ex.
  - intros [= <-] [->|Ha]%elem_of_cons Hs; [congruence | done].
  - destruct (remove_first same l) as [l0|]; [|done]. simpl. intros [= <-].
    intros [->|Ha]%elem_of_cons Hs; [left | right; by apply IH].
Qed.

(** Removing an item whose field is [None] leaves the items with the field
    in the list: none of them is [==] to it. *)
Lemma keeps_having_items_remove k t st :
  login_field (heap st t) k = Ok VNone ->
  keeps_having k st (items_remove t st).1.
Proof.
  intros Ht. unfold items_remove.
  destruct (remove_first _ (items st)) as [l'|] eqn:Erm; simpl; [|reflexivity].
  split; [done|]. simpl. intros a Ha (u & Hu & Hnone).
  apply (remove_first_keeps _ _ _ _ Erm Ha).
  unfold obj_eq. apply orb_false_intro.
  - apply bool_decide_eq_false. intros ->. congruence.
  - destruct (py_eq (heap st a) (heap st t)) eqn:Heq; [|done].
    destruct (py_eq_login_field _ _ _ _ Heq Hu) as (w & Hw & Huw).
    rewrite Ht in Hw. injection Hw as <-. by apply py_eq_none in Huw.
Qed.

Lemma keeps_having_say k e : keeps (keeps_having k) (say e).
Proof. intros st. unfold say. by destruct (renders e). Qed.

Lemma keeps_having_userless : keeps (keeps_having "username") remove_userless_item.
Proof.
  apply (keeps_for_each_item (keeps_having "username")). intros t [] st.
  rewrite bind_run. pose proof (userless_state t st) as Hst.
  destruct (userless t st) as [s1 [[]|e]] eqn:Hu; simpl in Hst; subst s1;
    [|reflexivity..].
  apply userless_true in Hu.
  rewrite bind_run, item_get_run.
  destruct (py_getitem (heap st t) "name") as [name|]; [|reflexivity].
  rewrite bind_run.
  pose proof (keeps_having_say "username" (RemovingNoUsername name) st) as Hsay.
  unfold say in *. destruct (renders (RemovingNoUsername name)); [|reflexivity].
  etrans; [exact Hsay|]. by apply keeps_having_items_remove.
Qed.

Lemma keeps_having_passwordless :
  keeps (keeps_having "password") remove_passwordless_item.
Proof.
  apply (keeps_for_each_item (keeps_having "password")). intros t [] st.
  rewrite bind_run. pose proof (passwordless_state t st) as Hst.
  destruct (passwordless t st) as [s1 [[]|e]] eqn:Hu; simpl in Hst; subst s1;
    [|reflexivity..].
  apply passwordless_true in Hu.
  rewrite bind_run, item_get_run.
  destruct (py_getitem (heap st t) "name") as [name|]; [|reflexivity].
  rewrite bind_run.
  pose proof (keeps_having_say "password" (RemovingNoPassword name) st) as Hsay.
  unfold say in *. destruct (renders (RemovingNoPassword name)); [|reflexivity].
  etrans; [exact Hsay|]. by apply keeps_having_items_remove.
Qed.

(** X15: the userless filter never removes an item that has a username.
    An item of the list whose [login.username] is there and not [None] is
    still in the list when the filter stops, whether it returns or
    raises. *)
Theorem userless_filter_keeps_named (st : state) (a : addr) (u : value) :
  a ∈ items st ->
  login_field (heap st a) "username" = Ok u ->
  u <> VNone ->
  a ∈ items (remove_userless_item st).1.
Proof.
  intros Ha Hu Hnone.
  destruct (keeps_having_userless st) as [_ Hkeep]. apply Hkeep; [done|].
  by exists u.
Qed.

(** X16: the passwordless filter never removes an item that has a
    password.  An item of the list whose [login.password] is there and not
    [None] is still in the list when the filter stops, whether it returns
    or raises. *)
Theorem passwordless_filter_keeps_secured (st : state) (a : addr) (p : value) :
  a ∈ items st ->
  login_field (heap st a) "password" = Ok p ->
  p <> VNone ->
  a ∈ items (remove_passwordless_item st).1.
Proof.
  intros Ha Hp Hnone.
  destruct (keeps_having_passwordless st) as [_ Hkeep]. apply Hkeep; [done|].
  by exists p.
Qed.



(** * A leading item that is not a login *)

Lemma py_eq_without_login d e x :
  NoDup (Dict.keys d) -> Dict.get "login" d = None ->
  Dict.get "login" e = Some x -> py_eq (VDict d) (VDict e) = false.
Proof.
  intros Hnd Hd He. destruct (py_eq (VDict d) (VDict e)) eqn:Heq; [|done].
  exfalso. rewrite py_eq_dict in Heq. apply andb_prop in Heq as [Hlen Hsub].
  apply Nat.eqb_eq in Hlen. rewrite forallb_forall in Hsub.
  destruct (dict_eq_keys d e Hnd Hlen) as [_ Hback].
  { intros k Hk. unfold Dict.keys in Hk.
    apply list_elem_of_fmap in Hk as ([k' v] & -> & Hkv).
    apply list_elem_of_In, Hsub in Hkv. simpl in *.
    destruct (Dict.get k' e) as [w|] eqn:Ew; [|done].
    by apply dict_get_Some_keys in Ew. }
  apply dict_get_Some_keys, Hback in He. by apply dict_get_None_keys in Hd.
Qed.

Section LeadingNote.

Variable a : addr.
Variable d : list (string * value).
Hypothesis d_keys : NoDup (Dict.keys d).
Hypothesis d_login : Dict.get "login" d = None.

Lemma head_stays_items_remove k t st :
  login_field (heap st t) k = Ok VNone ->
  head_stays a (VDict d) st (items_remove t st).1.
Proof.
  intros Ht [Ha [rest Hi]]. unfold items_remove. rewrite Hi. simpl.
  assert (obj_eq st a t = false) as ->.
  { unfold obj_eq. apply orb_false_intro.
    - apply bool_decide_eq_false. intros <-. revert Ht.
      unfold login_field. rewrite Ha. simpl. by rewrite d_login.
    - revert Ht. unfold login_field.
      destruct (py_getitem (heap st t) "login") as [lg|] eqn:El; [|done].
      intros _. apply py_getitem_dict in El as (e & -> & He). rewrite Ha.
      by apply (py_eq_without_login d e lg). }
  destruct (remove_first _ rest) as [l'|]; simpl; split; eauto.
Qed.

Lemma head_stays_say e : keeps (head_stays a (VDict d)) (say e).
Proof.
  intros st [Ha [rest Hi]]. unfold say.
  destruct (renders e); (split; [done | by exists rest]).
Qed.

Lemma head_stays_userless : keeps (head_stays a (VDict d)) remove_userless_item.
Proof.
  apply (keeps_for_each_item (head_stays a (VDict d))). intros t [] st.
  rewrite bind_run. pose proof (userless_state t st) as Hst.
  destruct (userless t st) as [s1 [[]|e]] eqn:Hu; simpl in Hst; subst s1;
    [|reflexivity..].
  apply userless_true in Hu.
  rewrite bind_run, item_get_run.
  destruct (py_getitem (heap st t) "name") as [name|]; [|reflexivity].
  rewrite bind_run.
  pose proof (head_stays_say (RemovingNoUsername name) st) as Hsay.
  unfold say in *. destruct (renders (RemovingNoUsername name)); [|reflexivity].
  etrans; [exact Hsay|]. by apply (head_stays_items_remove "username").
Qed.

End LeadingNote.

(** X18: the driver does not get past a leading item that is not a login.
    When the first item of the loaded list is a dict with no [login] key
    (a note, a card, an identity), the driver stops with a Python
    exception: it prints at most its first two lines, the item is still
    the first of the list, and if the userless filter returned, the
    exception is the [KeyError: 'login'] of the passwordless filter. *)
Theorem main_stops_at_leading_note confirm (data : state) (a : addr)
    (rest : list addr) (d : list (string * value)) :
  items data = a :: rest ->
  heap data a = VDict d ->
  NoDup (Dict.keys d) ->
  Dict.get "login" d = None ->
  exists data' out e,
    main confirm data = (data', out, Raise e) /\
    e <> OutOfFuel /\
    length out <= 2 /\
    head (items data') = Some a /\
    ((remove_userless_item data).2 = Ok tt -> e = KeyError (VStr "login")).
Proof.
  intros Hi Ha Hnd Hl. unfold main.
  destruct (head_stays_userless a d Hnd Hl data) as [Ha1 [rest1 Hi1]].
  { split; [done | by exists rest]. }
  pose proof (remove_userless_item_within_fuel data) as Hf.
  destruct (remove_userless_item data) as [s1 [[]|e]]; simpl in *.
  - assert (remove_passwordless_item s1 = (s1, Raise (KeyError (VStr "login"))))
      as ->.
    { unfold remove_passwordless_item.
      rewrite (for_each_item_first _ _ _ _ _ Hi1), bind_run.
      unfold passwordless at 1.
      rewrite !bind_run, item_contains_run, Ha1. simpl.
      rewrite (dict_mem_None _ _ Hl), bind_run, ret_run, fmap_run,
        login_contains_run, Ha1.
      simpl. by rewrite Hl. }
    eexists _, _, _. split; [reflexivity|].
    split_and!; [done | simpl; lia | by rewrite Hi1 | done].
  - eexists _, _, _. split; [reflexivity|].
    split_and!; [intros -> | simpl; lia | by rewrite Hi1 | done].
    by apply Hf.
Qed.

(** * A run in which every merge is declined *)

#[global] Instance same_data_preorder : PreOrder same_data.
Proof.
  split.
  - intros st. by repeat split.
  - intros s1 s2 s3 (H1 & H2 & H3) (K1 & K2 & K3). repeat split; congruence.
Qed.

Lemma merge_all_declined confirm pairs st :
  (forall n, confirm n = false) ->
  same_data st (merge_all confirm pairs st).1.
Proof.
  intros Hno. revert st. induction pairs as [|[a b] pairs IH]; intros st.
  - reflexivity.
  - unfold merge_all. simpl. rewrite bind_run.
    destruct (merge_uris_of_items confirm a b st) as [st1 r] eqn:Hrun.
    assert (same_data st st1) as Hsame.
    { destruct (merge_outcome _ _ _ _ _ _ Hrun) as [[H _]|(_ & Hyes & _)];
        [done | by rewrite Hno in Hyes]. }
    destruct r as [[]|e]; [|done].
    etrans; [exact Hsame | apply IH].
Qed.

(** X19: a run of the driver in which every prompt is answered "no" leaves
    the document as the filters left it.  The item objects, the item list
    and the registry at the end of the driver are those at the end of the
    three filters, whether the driver returns or raises. *)
Theorem main_all_declined confirm (data : state) :
  (forall n, confirm n = false) ->
  same_data (filter_stage data).1 (main confirm data).1.1.
Proof.
  intros Hno. unfold main, filter_stage. rewrite bind_run.
  destruct (remove_userless_item data) as [s1 [[]|e]]; [|reflexivity].
  rewrite bind_run.
  destruct (remove_passwordless_item s1) as [s2 [[]|e]]; [|reflexivity].
  destruct (remove_uriless_item s2) as [s3 [[]|e]]; [|reflexivity].
  pose proof (keeps_find_items_with_duplicates eq s3) as Hfind.
  destruct (find_items_with_duplicates s3) as [s4 [pairs|e]];
    simpl in Hfind; subst s4; [|reflexivity].
  pose proof (merge_all_declined confirm pairs s3 Hno) as Hmerge.
  by destruct (merge_all confirm pairs s3) as [s5 [[]|e]].
Qed.

End Console.

(** * Sample runs

    The properties above hold of every console.  Here each of them that has
    a premise is applied to a sample document, on a sample console. *)

Lemma passwordless_raises_without_login_witness :
  remove_passwordless_item plain_console only_a_note =
  (only_a_note, Raise (KeyError (VStr "login"))).
Proof.
  apply (passwordless_raises_without_login plain_console only_a_note 0 []
           [("id", VStr "1"); ("name", VStr "wifi")]); reflexivity.
Defined.

Lemma userless_raises_without_username_witness :
  remove_userless_item plain_console no_username_key =
  (no_username_key, Raise (KeyError (VStr "username"))).
Proof.
  apply (userless_raises_without_username plain_console no_username_key 0 []
           [("id", VStr "1"); ("name", VStr "mail");
            ("login", VDict [("password", VStr "p")])]
           [("password", VStr "p")]); reflexivity.
Defined.

Lemma filter_stage_second_run_removes_witness :
  let st1 := (filter_stage plain_console two_userless).1 in
  let st2 := (filter_stage plain_console st1).1 in
  (filter_stage plain_console two_userless).2 = Ok tt /\ items st1 = [1] /\
  (filter_stage plain_console st1).2 = Ok tt /\ items st2 = [].
Proof.
  apply (filter_stage_second_run_removes plain_console); reflexivity.
Defined.

Lemma two_duplicates_item_a :
  login_item (heap two_duplicates 0) (KStr "1") [uri_x 0].
Proof.
  eexists _, _, _, _. split_and!; try reflexivity.
  repeat constructor; by eexists.
Qed.

Lemma two_duplicates_item_b :
  login_item (heap two_duplicates 1) (KStr "2") [uri_x 1; uri "https://y.com"].
Proof.
  eexists _, _, _, _. split_and!; try reflexivity.
  repeat constructor; by eexists.
Qed.

Lemma two_duplicates_rendered :
  rendered plain_console
    (merge_messages two_duplicates 0 1 [uri_x 0] [uri_x 1; uri "https://y.com"]).
Proof. by repeat constructor. Qed.

Lemma confirmed_merge_witness :
  exists st' merged,
    merge_uris_of_items plain_console (always true) 0 1 two_duplicates
      = (st', Ok tt) /\
    item_uris st' 0 = Some merged /\
    merged = dedup_last ([uri_x 0] ++ [uri_x 1; uri "https://y.com"]) /\
    NoDup (uri_keys merged) /\
    Forall (fun u => is_Some (uri_key u)) merged /\
    (forall k, first_with k merged =
               last_with k ([uri_x 0] ++ [uri_x 1; uri "https://y.com"])) /\
    (forall k u, last_with k [uri_x 1; uri "https://y.com"] = Some u ->
                 first_with k merged = Some u) /\
    KStr "2" ∈ merged_items st' /\
    items st' = items two_duplicates.
Proof.
  apply (confirmed_merge plain_console (always true) two_duplicates 0 1
           (KStr "1") (KStr "2")).
  - exact two_duplicates_item_a.
  - exact two_duplicates_item_b.
  - vm_compute. set_solver.
  - vm_compute. set_solver.
  - exact two_duplicates_rendered.
  - reflexivity.
Defined.

Lemma merged_uris_union_keeps_last_witness :
  exists st' merged,
    merge_uris_of_items plain_console (always true) 0 1 two_duplicates
      = (st', Ok tt) /\
    item_uris st' 0 = Some merged /\
    NoDup (uri_keys merged) /\
    (forall k, k ∈ uri_keys merged <->
               k ∈ uri_keys [uri_x 0] \/
               k ∈ uri_keys [uri_x 1; uri "https://y.com"]) /\
    (forall u, u ∈ merged ->
               u ∈ [uri_x 0] \/ u ∈ [uri_x 1; uri "https://y.com"]) /\
    (forall k, k ∈ uri_keys [uri_x 0] ->
               k ∈ uri_keys [uri_x 1; uri "https://y.com"] ->
               is_Some (last_with k [uri_x 1; uri "https://y.com"]) /\
               first_with k merged =
               last_with k [uri_x 1; uri "https://y.com"]).
Proof.
  apply (merged_uris_union_keeps_last plain_console (always true)
           two_duplicates 0 1 (KStr "1") (KStr "2")).
  - exact two_duplicates_item_a.
  - exact two_duplicates_item_b.
  - vm_compute. set_solver.
  - vm_compute. set_solver.
  - exact two_duplicates_rendered.
  - reflexivity.
Defined.

(** What the merge of [two_duplicates] leaves in A: B's copy of the entry
    for ["https://x.com"], then B's other entry. *)
Example merge_two_duplicates :
  let run := merge_uris_of_items plain_console (always true) 0 1 two_duplicates in
  run.2 = Ok tt /\
  item_uris run.1 0 = Some [uri_x 1; uri "https://y.com"] /\
  item_uris run.1 1 = Some [uri_x 1; uri "https://y.com"] /\
  elements (merged_items run.1) = [KStr "2"] /\
  items run.1 = [0; 1].
Proof. vm_compute. repeat split. Qed.

(** C6 as stated fails: on [two_duplicates] both lists have an entry for
    ["https://x.com"], and the merge keeps B's copy, not A's. *)
Lemma merge_does_not_retain_first :
  ~ first_occurrence_retained plain_console (always true) two_duplicates 0 1.
Proof.
  intros Hfirst.
  destruct (merge_uris_of_items plain_console (always true) 0 1 two_duplicates)
    as [st' r] eqn:Hrun.
  assert (r = Ok tt) as ->.
  { change r with (st', r).2. rewrite <- Hrun. vm_compute. reflexivity. }
  destruct (Hfirst (KStr "1") (KStr "2") [uri_x 0]
              [uri_x 1; uri "https://y.com"] st')
    as (merged & Huris & _ & Hkeep).
  - exact two_duplicates_item_a.
  - exact two_duplicates_item_b.
  - vm_compute. set_solver.
  - vm_compute. set_solver.
  - exact two_duplicates_rendered.
  - reflexivity.
  - exact Hrun.
  - assert (item_uris st' 0 = Some [uri_x 1; uri "https://y.com"]) as Hm.
    { change st' with (st', @Ok unit tt).1. rewrite <- Hrun. vm_compute.
      reflexivity. }
    rewrite Hm in Huris. injection Huris as <-.
    specialize (Hkeep (KStr "https://x.com")). vm_compute in Hkeep.
    discriminate Hkeep.
Qed.

Lemma declined_merge_mutates_nothing_witness :
  same_data two_duplicates
    (merge_uris_of_items plain_console (always false) 0 1 two_duplicates).1.
Proof.
  apply (declined_merge_mutates_nothing plain_console (always false)
           two_duplicates 0 1).
  reflexivity.
Defined.

Lemma merged_id_is_skipped_witness :
  merge_uris_of_items plain_console (always true) 1 0
    (merge_all plain_console (always true) [(0, 1)]
       (after_merge plain_console)).1 =
  ((merge_all plain_console (always true) [(0, 1)]
      (after_merge plain_console)).1, Ok tt).
Proof.
  apply (merged_id_is_skipped plain_console (always true)
           (after_merge plain_console) _ [(0, 1)] 1 0 (KStr "2")).
  - refine (bool_decide_unpack _ _). vm_compute. exact I.
  - reflexivity.
  - left. vm_compute. reflexivity.
Defined.

Lemma two_duplicates_found :
  find_items_with_duplicates two_duplicates = (two_duplicates, Ok [(0, 1); (1, 0)]).
Proof. rewrite finder_run. f_equal. Qed.

Lemma finder_raises_after_filter_stage_witness :
  let st1 := (filter_stage plain_console skipped_login).1 in
  (filter_stage plain_console skipped_login).2 = Ok tt /\
  items st1 = [1; 2; 3] /\
  item_id st1 2 = Some (KStr "3") /\ item_id st1 3 = Some (KStr "4") /\
  same_credentials (heap st1 2) (heap st1 3) = true /\
  (find_items_with_duplicates st1).2 = Raise (KeyError (VStr "username")).
Proof.
  apply (finder_raises_after_filter_stage plain_console). reflexivity.
Defined.

Lemma mixed_uris_typed : uris_typed mixed.
Proof.
  intros a Ha. simpl in Ha.
  repeat (apply elem_of_cons in Ha as [->|Ha]; [reflexivity|]).
  by apply elem_of_nil in Ha.
Qed.

(** What the filter leaves of [mixed]: the first login, with its one good
    URI entry. *)
Example remove_uriless_item_mixed :
  let run := remove_uriless_item plain_console mixed in
  run.2 = Ok tt /\ items run.1 = [0] /\
  item_uris run.1 0 = Some [uri "https://x.com"] /\
  log run.1 = [RemovingNoUri (VStr "wifi"); RemovingNoUri (VStr "bank")].
Proof. vm_compute. repeat split. Qed.

Lemma mixed_vault_document : vault_document mixed.
Proof.
  intros a Ha. simpl in Ha.
  repeat (apply elem_of_cons in Ha as [->|Ha]; [by vm_compute|]).
  by apply elem_of_nil in Ha.
Qed.

Lemma mixed_removal_rendered : removal_rendered plain_console mixed.
Proof.
  intros a Ha. simpl in Ha.
  repeat (apply elem_of_cons in Ha as [->|Ha]; [by vm_compute|]).
  by apply elem_of_nil in Ha.
Qed.

Lemma uriless_survivors_have_valid_uris_witness :
  (exists st', remove_uriless_item plain_console mixed = (st', Ok tt)) /\
  exists d l us,
    heap (remove_uriless_item plain_console mixed).1 0 = VDict d /\
    Dict.get "login" d = Some (VDict l) /\
    Dict.get "uris" l = Some (VList us) /\ us <> [] /\
    forall u, u ∈ us ->
      exists ud x,
        u = VDict ud /\ Dict.get "uri" ud = Some x /\ py_truthy x = true /\
        (uris_typed mixed -> exists s, x = VStr s /\ s <> "").
Proof.
  destruct (uriless_survivors_have_valid_uris plain_console mixed)
    as [Hreturns Hvalid].
  split.
  - apply Hreturns; [exact mixed_vault_document | exact mixed_removal_rendered].
  - apply (Hvalid (remove_uriless_item plain_console mixed).1).
    + apply injective_projections; [reflexivity | vm_compute; reflexivity].
    + vm_compute. constructor.
Defined.

Lemma finder_reports_unequal_duplicates_witness :
  exists pairs,
    find_items_with_duplicates two_duplicates = (two_duplicates, Ok pairs) /\
    forall a b, a ∈ items two_duplicates -> b ∈ items two_duplicates ->
      (obj_eq two_duplicates a b = false ->
       same_credentials (heap two_duplicates a) (heap two_duplicates b) = true ->
       (a, b) ∈ pairs /\ (b, a) ∈ pairs) /\
      (obj_eq two_duplicates a b = true -> (a, b) ∉ pairs).
Proof.
  apply (finder_reports_unequal_duplicates two_duplicates).
  - intros a Ha. simpl in Ha.
    repeat (apply elem_of_cons in Ha as [->|Ha]; [by vm_compute|]).
    by apply elem_of_nil in Ha.
  - intros a Ha. simpl in Ha.
    repeat (apply elem_of_cons in Ha as [->|Ha]; [by eexists|]).
    by apply elem_of_nil in Ha.
Defined.

Lemma finder_reports_distinct_objects_witness :
  exists pairs,
    find_items_with_duplicates two_duplicates = (two_duplicates, Ok pairs) /\
    forall a b, a ∈ items two_duplicates -> b ∈ items two_duplicates ->
      (a <> b ->
       same_credentials (heap two_duplicates a) (heap two_duplicates b) = true ->
       (a, b) ∈ pairs /\ (b, a) ∈ pairs) /\
      ((a, b) ∈ pairs ->
       a <> b /\
       same_credentials (heap two_duplicates a) (heap two_duplicates b) = true).
Proof.
  apply (finder_reports_distinct_objects two_duplicates).
  - intros a b Ha Hb Hab. simpl in Ha, Hb.
    repeat (apply elem_of_cons in Ha as [->|Ha]);
      try (by apply elem_of_nil in Ha);
      repeat (apply elem_of_cons in Hb as [->|Hb]);
      try (by apply elem_of_nil in Hb);
      try done; by eexists _, _.
  - intros a Ha. simpl in Ha.
    repeat (apply elem_of_cons in Ha as [->|Ha]; [by vm_compute|]).
    by apply elem_of_nil in Ha.
  - intros a Ha. simpl in Ha.
    repeat (apply elem_of_cons in Ha as [->|Ha]; [by eexists|]).
    by apply elem_of_nil in Ha.
Defined.

Lemma merge_raise_writes_nothing_witness :
  (merge_uris_of_items tag_console (always true) 0 1 unhashable_uri).2
    = Raise TypeError /\
  same_data unhashable_uri
    (merge_uris_of_items tag_console (always true) 0 1 unhashable_uri).1.
Proof.
  split; [by vm_compute|].
  apply (merge_raise_writes_nothing tag_console (always true) 0 1
           unhashable_uri TypeError).
  - by vm_compute.
  - discriminate.
Defined.

Lemma finder_pairs_are_duplicates_witness :
  0 ∈ items two_duplicates /\ 1 ∈ items two_duplicates /\ 0 <> 1 /\
  obj_eq two_duplicates 0 1 = false /\
  same_credentials (heap two_duplicates 0) (heap two_duplicates 1) = true.
Proof.
  apply (finder_pairs_are_duplicates two_duplicates [(0, 1); (1, 0)] 0 1).
  - rewrite finder_run. by f_equal.
  - left.
Defined.

Lemma finder_of_equal_items_witness :
  find_items_with_duplicates only_a_note = (only_a_note, Ok []).
Proof.
  apply (finder_of_equal_items only_a_note).
  intros a b Ha Hb. simpl in Ha, Hb.
  apply list_elem_of_singleton in Ha as ->.
  apply list_elem_of_singleton in Hb as ->. reflexivity.
Defined.

Lemma finder_raises_without_login_witness :
  find_items_with_duplicates note_then_login
  = (note_then_login, Raise (KeyError (VStr "login"))).
Proof.
  apply (finder_raises_without_login note_then_login 0 1 [1]
           [("id", VStr "1"); ("name", VStr "wifi")]); try reflexivity.
  left.
Defined.


Lemma uriless_twice_witness :
  exists st2,
    remove_uriless_item plain_console
      (remove_uriless_item plain_console mixed).1 = (st2, Ok tt) /\
    items st2 = items (remove_uriless_item plain_console mixed).1 /\
    log st2 = log (remove_uriless_item plain_console mixed).1 /\
    forall a, heap st2 a = heap (remove_uriless_item plain_console mixed).1 a.
Proof.
  apply (uriless_twice plain_console mixed).
  apply injective_projections; [reflexivity | by vm_compute].
Defined.

Lemma merged_uris_in_first_occurrence_order_witness :
  exists st' merged,
    merge_uris_of_items plain_console (always true) 0 1 two_duplicates
      = (st', Ok tt) /\
    item_uris st' 0 = Some merged /\
    uri_keys merged =
      first_occurrences
        (uri_keys [uri_x 0] ++ uri_keys [uri_x 1; uri "https://y.com"]).
Proof.
  apply (merged_uris_in_first_occurrence_order plain_console (always true)
           two_duplicates 0 1 (KStr "1") (KStr "2")).
  - exact two_duplicates_item_a.
  - exact two_duplicates_item_b.
  - vm_compute. set_solver.
  - vm_compute. set_solver.
  - exact two_duplicates_rendered.
  - reflexivity.
Defined.

Lemma merge_of_distinct_uris_appends_witness :
  exists st',
    merge_uris_of_items plain_console (always true) 0 1 distinct_uris
      = (st', Ok tt) /\
    item_uris st' 0 = Some ([uri "https://x.com"] ++ [uri "https://y.com"]).
Proof.
  apply (merge_of_distinct_uris_appends plain_console (always true)
           distinct_uris 0 1 (KStr "1") (KStr "2")).
  - eexists _, _, _, _. split_and!; try reflexivity.
    repeat constructor; by eexists.
  - eexists _, _, _, _. split_and!; try reflexivity.
    repeat constructor; by eexists.
  - vm_compute. set_solver.
  - vm_compute. set_solver.
  - by repeat constructor.
  - reflexivity.
  - vm_compute. repeat constructor; set_solver.
Defined.

Lemma merge_done_before_last_message_witness :
  exists st',
    merge_uris_of_items tag_console (always true) 0 1 tagged
      = (st', Raise MarkupError) /\
    item_uris st' 0 =
      Some (dedup_last ([uri "https://x.com"] ++ [uri "https://y.com"])) /\
    KStr "2" ∈ merged_items st' /\
    prompts st' = S (prompts tagged).
Proof.
  apply (merge_done_before_last_message tag_console (always true) tagged 0 1
           (KStr "1") (KStr "2")).
  - eexists _, _, _, _. split_and!; try reflexivity.
    repeat constructor; by eexists.
  - eexists _, _, _, _. split_and!; try reflexivity.
    repeat constructor; by eexists.
  - vm_compute. set_solver.
  - vm_compute. set_solver.
  - by repeat constructor.
  - reflexivity.
  - reflexivity.
Defined.

Lemma main_counts_add_up_witness :
  exists p0 p1 p2 p3 p4 r1 r2 r3,
    (main plain_console (always true) two_duplicates).1.2 =
      [(p0, FoundItems (item_count two_duplicates));
       (p1, RemovedWithoutUsername r1);
       (p2, RemovedWithoutPassword r2);
       (p3, RemovedWithoutUri r3);
       (p4, EndingWith
              (item_count (main plain_console (always true) two_duplicates).1.1)
              (item_count two_duplicates))] /\
    (0 <= r1)%Z /\ (0 <= r2)%Z /\ (0 <= r3)%Z /\
    (item_count two_duplicates =
     r1 + r2 + r3 +
     item_count (main plain_console (always true) two_duplicates).1.1)%Z /\
    sublist (items (main plain_console (always true) two_duplicates).1.1)
            (items two_duplicates).
Proof.
  apply (main_counts_add_up plain_console (always true) two_duplicates).
  destruct (main plain_console (always true) two_duplicates)
    as [[st' out] r] eqn:E.
  simpl. f_equal. change r with (st', out, r).2. rewrite <- E. by vm_compute.
Defined.

(** What the driver prints on [two_duplicates], with a "yes" to the
    prompt: nothing is removed, and the merged item is still counted. *)
Example main_two_duplicates :
  let run := main plain_console (always true) two_duplicates in
  run.2 = Ok tt /\
  map snd run.1.2 =
    [FoundItems 2; RemovedWithoutUsername 0; RemovedWithoutPassword 0;
     RemovedWithoutUri 0; EndingWith 2 2] /\
  elements (merged_items run.1.1) = [KStr "2"].
Proof. vm_compute. repeat split. Qed.

Lemma userless_filter_keeps_named_witness :
  0 ∈ items (remove_userless_item plain_console mixed).1.
Proof.
  apply (userless_filter_keeps_named plain_console mixed 0 (VStr "u")).
  - apply list_elem_of_here.
  - reflexivity.
  - discriminate.
Defined.

Lemma passwordless_filter_keeps_secured_witness :
  0 ∈ items (remove_passwordless_item plain_console mixed).1.
Proof.
  apply (passwordless_filter_keeps_secured plain_console mixed 0 (VStr "p")).
  - apply list_elem_of_here.
  - reflexivity.
  - discriminate.
Defined.


Lemma main_stops_at_leading_note_witness :
  exists data' out e,
    main plain_console (always true) note_then_login = (data', out, Raise e) /\
    e <> OutOfFuel /\
    length out <= 2 /\
    head (items data') = Some 0 /\
    ((remove_userless_item plain_console note_then_login).2 = Ok tt ->
     e = KeyError (VStr "login")).
Proof.
  apply (main_stops_at_leading_note plain_console (always true)
           note_then_login 0 [1] [("id", VStr "1"); ("name", VStr "wifi")]).
  - reflexivity.
  - reflexivity.
  - refine (bool_decide_unpack _ _). vm_compute. exact I.
  - reflexivity.
Defined.

Lemma main_all_declined_witness :
  same_data (filter_stage plain_console two_duplicates).1
            (main plain_console (always false) two_duplicates).1.1.
Proof.
  apply (main_all_declined plain_console (always false) two_duplicates).
  reflexivity.
Defined.
